(** * AVR JTAG programming through an FT232R in synchronous bit-bang mode

    A shallow embedding of [program.py]: the JTAG transaction codec
    ([jtag_command]) and the AVR programming sequencer ([program_elf],
    [poll_fuse_write_complete], [program_fuses], [read_fuses_locks]),
    followed by the properties proved about them.

    Modelling conventions
    - Python integers are [Z]; loop counters, lengths and list indices are
      [nat]; a byte string ([bytes], [bytearray], the list [stream]) is a
      [list Z].
    - The bit-bang device is an arbitrary state type [D] with the three
      operations the program calls on it ([flush], [write], [read]); they are
      total, so an I/O exception of the driver is outside the model.
    - Every function that touches the device runs in the monad [M]: a world
      (device state, every byte handed to [dev.write] so far, the calls seen
      so far) goes in, the new world and a [result] come out.  A Python
      exception is [Raise]; the [while True] loop runs on fuel and gives
      [OutOfFuel] when the fuel is spent before the loop breaks. *)

From Stdlib Require Import ZArith Lia Bool String.
From stdpp Require Import base list numbers.

Local Open Scope Z_scope.

(** ** Signal lines (program.py, lines 16-20) *)

Definition TMS : Z := Z.shiftl 1 4.
Definition TDI : Z := Z.shiftl 1 2.
Definition TDO : Z := Z.shiftl 1 3.
Definition TCK : Z := Z.shiftl 1 5.

(** The direction mask written to [dev.direction]: the output lines. *)
Definition direction : Z := Z.lor (Z.lor TMS TDI) TCK.

(** ** Instructions (class AVR_JTAG, lines 90-98) *)

Inductive AVR_JTAG : Type :=
  | IDCODE
  | PROG_ENABLE
  | PROG_COMMANDS
  | PROG_PAGELOAD
  | PROG_PAGEREAD
  | AVR_RESET
  | BYPASS.

(** (instruction register value, number of bits in selected data register) *)
Definition value (instruction : AVR_JTAG) : Z * nat :=
  match instruction with
  | IDCODE        => (0x1, 32%nat)
  | PROG_ENABLE   => (0x4, 16%nat)
  | PROG_COMMANDS => (0x5, 15%nat)
  | PROG_PAGELOAD => (0x6, 1024%nat)
  | PROG_PAGEREAD => (0x7, 1032%nat)
  | AVR_RESET     => (0xC, 1%nat)
  | BYPASS        => (0xF, 1%nat)
  end.

Definition irvalue_of (instruction : AVR_JTAG) : Z := fst (value instruction).
Definition nbits_of (instruction : AVR_JTAG) : nat := snd (value instruction).

Global Instance AVR_JTAG_eq_dec : EqDecision AVR_JTAG.
Proof. solve_decision. Defined.

(** ** Python values, exceptions and results *)

(** The second argument of [jtag_command]: an [int] or a byte sequence. *)
Inductive Payload : Type :=
  | PInt (v : Z)
  | PBytes (bs : list Z).

Global Instance Payload_eq_dec : EqDecision Payload.
Proof. solve_decision. Defined.

(** The arguments of [program_fuses] are unchecked Python objects. *)
Inductive PyObj : Type :=
  | PyInt (v : Z)
  | PyBool (b : bool)
  | PyStr (s : string)
  | PyNone.

Inductive error : Type :=
  | ValueError
  | TypeError
  | OverflowError
  | IndexError
  | RuntimeError (offset : nat) (wrote read : list Z).

Inductive result (A : Type) : Type :=
  | Ok (a : A)
  | Raise (e : error)
  | OutOfFuel.
Arguments Ok {A} a.
Arguments Raise {A} e.
Arguments OutOfFuel {A}.

(** [isinstance(x, int)]: [bool] is a subclass of [int]. *)
Definition isinstance_int (x : PyObj) : bool :=
  match x with
  | PyInt _ | PyBool _ => true
  | PyStr _ | PyNone => false
  end.

(** The integer an [int] object stands for in [>>] and [&]; [None] is the
    TypeError those operators raise on the other objects. *)
Definition int_value (x : PyObj) : option Z :=
  match x with
  | PyInt v => Some v
  | PyBool b => Some (Z.b2z b)
  | PyStr _ | PyNone => None
  end.

(** [bool(x)] of an integer, as the integer 0 or 1 it multiplies to. *)
Definition py_bool (x : Z) : Z := Z.b2z (negb (x =? 0)).

(** [ceil(a / b)] on non-negative integers. *)
Definition ceil_div (a b : nat) : nat := ((a + (b - 1)) / b)%nat.

(** [range(start, stop, step)], unrolled on fuel ([stop] steps are enough for
    a positive [step]). *)
Fixpoint range_from (fuel start stop step : nat) : list nat :=
  match fuel with
  | O => []
  | S fuel =>
      if (start <? stop)%nat
      then start :: range_from fuel (start + step) stop step
      else []
  end.

Definition py_range (start stop step : nat) : list nat :=
  range_from stop start stop step.

(** [v.to_bytes(len, 'little')]: OverflowError on a negative [v] and on one
    that does not fit in [len] bytes. *)
Definition to_bytes (v : Z) (len : nat) : result (list Z) :=
  if v <? 0 then Raise OverflowError
  else if 2 ^ (8 * Z.of_nat len) <=? v then Raise OverflowError
  else Ok (map (fun k => Z.land (Z.shiftr v (8 * Z.of_nat k)) 0xff) (seq 0 len)).

(** ** Encoding one transaction (jtag_command, lines 33-77) *)

Definition IR_LENGTH : nat := 4.

(** [clock_in(bits)]: output bits then raise TCK; returns the index of the
    input state after the rising TCK edge in the response array. *)
Definition clock_in (bits : Z) (stream : list Z) : list Z * nat :=
  let stream := stream ++ [bits; bits + TCK] in
  (stream, length stream).

(** [stream[-2] |= TMS; stream[-1] |= TMS] (the stream always holds at least
    two bytes where the program does this). *)
Definition or_at (i : nat) (mask : Z) (stream : list Z) : list Z :=
  alter (fun b => Z.lor b mask) i stream.

Definition mark_last_cell (stream : list Z) : list Z :=
  let stream := or_at (length stream - 2) TMS stream in
  or_at (length stream - 1) TMS stream.

(** [for tms in l: clock_in(tms * TMS)] *)
Definition clock_tms (l : list Z) (stream : list Z) : list Z :=
  fold_left (fun stream tms => fst (clock_in (tms * TMS) stream)) l stream.

(** [for bit in range(IR_LENGTH): clock_in((irvalue & 1) * TDI); irvalue >>= 1] *)
Definition shift_ir (irvalue : Z) (stream : list Z) : list Z :=
  fst (fold_left
         (fun '(stream, irvalue) (_ : nat) =>
            (fst (clock_in (Z.land irvalue 1 * TDI) stream), Z.shiftr irvalue 1))
         (seq 0 IR_LENGTH) (stream, irvalue)).

(** One turn of the data register loop (lines 61-69). *)
Definition shift_dr_step (data : list Z) (st : list Z * option nat) (bit : nat)
  : list Z * option nat :=
  let '(stream, retindex) := st in
  let byte := (bit / 8)%nat in
  let '(stream, ret) :=
    if bool_decide (byte < length data)%nat
    then clock_in (TDI * py_bool (Z.land (Z.shiftr (data !!! byte) (Z.of_nat (bit mod 8))) 1)) stream
    else clock_in 0 stream in
  (stream, if (bit =? 0)%nat then Some ret else retindex).

Definition shift_dr (nbits : nat) (data : list Z) (stream : list Z)
  : list Z * option nat :=
  fold_left (shift_dr_step data) (seq 0 nbits) (stream, None).

Definition encode (irvalue : Z) (nbits : nat) (data : list Z)
  : list Z * option nat :=
  let stream := [0] in
  (* Take TAP controller from Test-Logic-Reset to Run-Test/Idle *)
  let stream := fold_left (fun stream (_ : nat) => fst (clock_in 0 stream)) (seq 0 2) stream in
  (* Take TAP to Shift-IR *)
  let stream := clock_tms [1; 1; 0; 0] stream in
  let stream := shift_ir irvalue stream in
  (* MSB of IR is shifted with TMS high *)
  let stream := mark_last_cell stream in
  (* Take TAP to Run-Test/Idle, then Shift-DR *)
  let stream := clock_tms [1; 0; 1; 0; 0] stream in
  let '(stream, retindex) := shift_dr nbits data stream in
  (* MSB of DR is shifted with TMS high *)
  let stream := mark_last_cell stream in
  (* Take TAP to Run-Test/Idle *)
  let stream := clock_tms [1; 0] stream in
  let stream := fst (clock_in 0 stream) in
  (stream, retindex).

(** ** Decoding the response (jtag_command, lines 80 and 87-89) *)

(** One turn of the loop of lines 87-88; [retindex] is still [None] only when
    the data register loop never ran, and indexing with it is a TypeError. *)
Definition decode_step (retindex : option nat) (ret : list Z)
    (acc : result (list Z)) (bit : nat) : result (list Z) :=
  match acc with
  | Ok bytes =>
      match retindex with
      | None => Raise TypeError
      | Some retindex =>
          match ret !! (retindex + 2 * bit)%nat with
          | None => Raise IndexError
          | Some r =>
              if bool_decide (bit / 8 < length bytes)%nat
              then Ok (alter (fun b => Z.lor b (Z.shiftl (py_bool (Z.land r TDO))
                                                         (Z.of_nat (bit mod 8))))
                             (bit / 8)%nat bytes)
              else Raise IndexError
          end
      end
  | other => other
  end.

Definition decode (nbits : nat) (retindex : option nat) (ret : list Z)
  : result (list Z) :=
  fold_left (decode_step retindex ret) (seq 0 nbits)
            (Ok (replicate (ceil_div nbits 8) 0)).

(** ** The transport, the world and the monad *)

(** The three operations the program calls on the [BitBangDevice]:
    [dev.flush()], [dev.write(bytes)] (the number of bytes written) and
    [dev.read(count)]. *)
Class Transport (D : Type) : Type := {
  dev_flush : D -> D;
  dev_write : D -> list Z -> D * nat;
  dev_read : D -> nat -> D * list Z
}.

(** What an observer of a run sees: each call of [jtag_command] with what it
    returned or raised, and each [sleep(10e-3)]. *)
Inductive event : Type :=
  | Call (instruction : AVR_JTAG) (data : Payload) (returned : result (list Z))
  | Sleep.

(** The world of a run: the state of the device, every byte handed to
    [dev.write] so far (in order), and the events so far. *)
Record World (D : Type) : Type := mkWorld {
  dev : D;
  wire : list Z;
  log : list event
}.
Arguments mkWorld {D} dev wire log.
Arguments dev {D} w.
Arguments wire {D} w.
Arguments log {D} w.

Definition M (D A : Type) : Type := World D -> World D * result A.

Global Instance M_ret {D} : MRet (M D) := fun A a w => (w, Ok a).

Global Instance M_bind {D} : MBind (M D) := fun A B f m w =>
  let '(w', r) := m w in
  match r with
  | Ok a => f a w'
  | Raise e => (w', Raise e)
  | OutOfFuel => (w', OutOfFuel)
  end.

Definition raise {D A} (e : error) : M D A := fun w => (w, Raise e).

Definition lift {D A} (r : result A) : M D A := fun w => (w, r).

Definition log_event {D} (e : event) (w : World D) : World D :=
  mkWorld (dev w) (wire w) (log w ++ [e]).

(** [for x in l: body(x)] *)
Fixpoint for_each {D A} (l : list A) (body : A -> M D unit) : M D unit :=
  match l with
  | [] => mret tt
  | x :: l => body x ;; for_each l body
  end.

(** [l[a:b]] for [0 <= a <= b]. *)
Definition slice {A} (l : list A) (a b : nat) : list A := take (b - a) (drop a l).

(** [l[i]], an IndexError when out of range. *)
Definition index {D} (l : list Z) (i : nat) : M D Z :=
  match l !! i with
  | Some x => mret x
  | None => raise IndexError
  end.

Section Program.
Context {D : Type} `{Transport D}.

Definition flush : M D unit := fun w =>
  (mkWorld (dev_flush (dev w)) (wire w) (log w), Ok tt).

Definition write (bs : list Z) : M D nat := fun w =>
  let '(d, written) := dev_write (dev w) bs in
  (mkWorld d (wire w ++ bs) (log w), Ok written).

Definition read (count : nat) : M D (list Z) := fun w =>
  let '(d, bs) := dev_read (dev w) count in
  (mkWorld d (wire w) (log w), Ok bs).

Definition sleep : M D unit := fun w => (log_event Sleep w, Ok tt).

(** *** The round trip (jtag_command, lines 78-86) *)

Definition CHUNK_SIZE : nat := 256.

Fixpoint transfer_chunks (stream : list Z) (offsets : list nat)
    (read_ : list (list Z)) : M D (list (list Z)) :=
  match offsets with
  | [] => mret read_
  | offset :: offsets =>
      written ← write (slice stream offset (offset + CHUNK_SIZE));
      chunk ← read written;
      transfer_chunks stream offsets (read_ ++ [chunk])
  end.

Definition transfer (stream : list Z) : M D (list Z) :=
  read_ ← transfer_chunks stream (py_range 0 (length stream) CHUNK_SIZE) [];
  mret (concat read_).

(** [dev.flush()], then the stream out and the response in. *)
Definition exchange (stream : list Z) : M D (list Z) :=
  flush;; transfer stream.

(** Lines 31-32: an [int] becomes [ceil(nbits/8)] little-endian bytes. *)
Definition payload_bytes (nbits : nat) (data : Payload) : result (list Z) :=
  match data with
  | PInt v => to_bytes v (ceil_div nbits 8)
  | PBytes bs => Ok bs
  end.

(** *** jtag_command (lines 24-89)

    The instruction is a member of [AVR_JTAG] by its type, so the
    ValueError of line 28 cannot arise. *)
Definition jtag_transaction (instruction : AVR_JTAG) (data : Payload)
  : M D (list Z) :=
  let irvalue := fst (value instruction) in
  let nbits := snd (value instruction) in
  data ← lift (payload_bytes nbits data);
  let '(stream, retindex) := encode irvalue nbits data in
  ret ← exchange stream;
  lift (decode nbits retindex ret).

Definition jtag_command (instruction : AVR_JTAG) (data : Payload)
  : M D (list Z) := fun w =>
  let '(w, r) := jtag_transaction instruction data w in
  (log_event (Call instruction data r) w, r).

(** *** program_elf (lines 101-142)

    [program] is the content of the [.text] section, which the ELF reader
    hands over. *)
Definition PAGE_BYTES : nat := 128.

(** The body of the loop of lines 118-128. *)
Definition flash_write_page (program : list Z) (offset : nat) : M D unit :=
  let address := Z.shiftr (Z.of_nat offset) 1 in
  jtag_command PROG_COMMANDS (PInt (Z.lor 0x0700 (Z.land (Z.shiftr address 8) 0xff)));;
  jtag_command PROG_COMMANDS (PInt (Z.lor 0x0300 (Z.land address 0xff)));;
  jtag_command PROG_PAGELOAD (PBytes (slice program offset (offset + PAGE_BYTES)));;
  jtag_command PROG_COMMANDS (PInt 0x3700);;
  jtag_command PROG_COMMANDS (PInt 0x3500);;
  jtag_command PROG_COMMANDS (PInt 0x3700);;
  jtag_command PROG_COMMANDS (PInt 0x3700);;
  sleep.

(** The body of the loop of lines 131-138. *)
Definition flash_verify_page (program : list Z) (offset : nat) : M D unit :=
  let address := Z.shiftr (Z.of_nat offset) 1 in
  jtag_command PROG_COMMANDS (PInt (Z.lor 0x0700 (Z.land (Z.shiftr address 8) 0xff)));;
  jtag_command PROG_COMMANDS (PInt (Z.lor 0x0300 (Z.land address 0xff)));;
  returned ← jtag_command PROG_PAGEREAD (PInt 0);
  let read_ := drop 1 returned in
  if bool_decide (take (length program - offset) read_
                  = slice program offset (offset + PAGE_BYTES))
  then mret tt
  else raise (RuntimeError offset (slice program offset (offset + PAGE_BYTES)) read_).

Definition program_elf (program : list Z) (verify : bool) : M D unit :=
  jtag_command AVR_RESET (PInt 1);;
  jtag_command PROG_ENABLE (PInt 0xA370);;
  (* Chip Erase *)
  jtag_command PROG_COMMANDS (PInt 0x2380);;
  jtag_command PROG_COMMANDS (PInt 0x3180);;
  jtag_command PROG_COMMANDS (PInt 0x3380);;
  jtag_command PROG_COMMANDS (PInt 0x3380);;
  sleep;;
  (* Enter Flash Write *)
  jtag_command PROG_COMMANDS (PInt 0x2310);;
  for_each (py_range 0 (length program) PAGE_BYTES) (flash_write_page program);;
  (if verify
   then
     (* Enter Flash Read *)
     jtag_command PROG_COMMANDS (PInt 0x2302);;
     for_each (py_range 0 (length program) PAGE_BYTES) (flash_verify_page program)
   else mret tt);;
  (* Exit Programming Mode *)
  jtag_command PROG_COMMANDS (PInt 0x2300);;
  jtag_command PROG_COMMANDS (PInt 0x3300);;
  jtag_command PROG_ENABLE (PInt 0);;
  jtag_command AVR_RESET (PInt 0);;
  mret tt.

(** *** poll_fuse_write_complete (lines 144-147) *)
Fixpoint poll_fuse_write_complete (fuel : nat) : M D unit :=
  match fuel with
  | O => fun w => (w, OutOfFuel)
  | S fuel =>
      returned ← jtag_command PROG_COMMANDS (PInt 0x3700);
      status ← index returned 1;
      if negb (Z.land status 2 =? 0)
      then mret tt
      else poll_fuse_write_complete fuel
  end.

(** [x & 0xff] and [(x >> 8) & 0xff] on an unchecked object. *)
Definition low_byte (x : PyObj) : M D Z :=
  match int_value x with
  | Some v => mret (Z.land v 0xff)
  | None => raise TypeError
  end.

Definition high_byte (x : PyObj) : M D Z :=
  match int_value x with
  | Some v => mret (Z.land (Z.shiftr v 8) 0xff)
  | None => raise TypeError
  end.

(** *** program_fuses (lines 148-171); [fuel] bounds each of the polls. *)
Definition program_fuses (fuel : nat) (fuses extended_fuses : PyObj) : M D unit :=
  if negb (isinstance_int fuses) then raise TypeError
  else
    jtag_command AVR_RESET (PInt 1);;
    jtag_command PROG_ENABLE (PInt 0xA370);;
    (* Enter Fuse Write *)
    jtag_command PROG_COMMANDS (PInt 0x2340);;
    e ← low_byte extended_fuses;
    jtag_command PROG_COMMANDS (PInt (Z.lor 0x1300 e));;
    jtag_command PROG_COMMANDS (PInt 0x3b00);;
    jtag_command PROG_COMMANDS (PInt 0x3900);;
    jtag_command PROG_COMMANDS (PInt 0x3b00);;
    jtag_command PROG_COMMANDS (PInt 0x3b00);;
    poll_fuse_write_complete fuel;;
    h ← high_byte fuses;
    jtag_command PROG_COMMANDS (PInt (Z.lor 0x1300 h));;
    jtag_command PROG_COMMANDS (PInt 0x3700);;
    jtag_command PROG_COMMANDS (PInt 0x3500);;
    jtag_command PROG_COMMANDS (PInt 0x3700);;
    jtag_command PROG_COMMANDS (PInt 0x3700);;
    poll_fuse_write_complete fuel;;
    l ← low_byte fuses;
    jtag_command PROG_COMMANDS (PInt (Z.lor 0x1300 l));;
    jtag_command PROG_COMMANDS (PInt 0x3300);;
    jtag_command PROG_COMMANDS (PInt 0x3100);;
    jtag_command PROG_COMMANDS (PInt 0x3300);;
    jtag_command PROG_COMMANDS (PInt 0x3300);;
    poll_fuse_write_complete fuel.

(** *** read_fuses_locks (lines 172-181) *)
Definition read_fuses_locks : M D (Z * Z * Z) :=
  jtag_command AVR_RESET (PInt 1);;
  jtag_command PROG_ENABLE (PInt 0xA370);;
  (* Enter Fuse/Lock Bit Read *)
  jtag_command PROG_COMMANDS (PInt 0x2304);;
  jtag_command PROG_COMMANDS (PInt 0x3a00);;
  extended ← (r ← jtag_command PROG_COMMANDS (PInt 0x3e00); index r 0);
  high ← (r ← jtag_command PROG_COMMANDS (PInt 0x3200); index r 0);
  low ← (r ← jtag_command PROG_COMMANDS (PInt 0x3600); index r 0);
  lock ← (r ← jtag_command PROG_COMMANDS (PInt 0x3700); index r 0);
  mret (extended, Z.lor (Z.shiftl high 8) low, lock).

End Program.

(** ** A simulated transport

    The device state is the queue of bytes it will answer with: a write
    accepts everything, a read of [count] bytes takes them from the front of
    the queue and fills up with zero bytes when the queue runs dry. *)
Global Instance script_transport : Transport (list Z) := {
  dev_flush script := script;
  dev_write script bs := (script, length bs);
  dev_read script count := (drop count script, take count (script ++ replicate count 0))
}.

Definition script_world (script : list Z) : World (list Z) := mkWorld script [] [].


(** ** The frame: what the encoder is expected to produce *)

(** One bit-cell: the line state before the rising edge, then the same state
    with TCK raised. *)
Definition cell (pre : Z) : list Z := [pre; pre + TCK].

Fixpoint cells (pres : list Z) : list Z :=
  match pres with
  | [] => []
  | pre :: pres => cell pre ++ cells pres
  end.

(** The TDI line for one bit. *)
Definition tdi (b : bool) : Z := if b then TDI else 0.

(** Bit [i] of a byte sequence: least significant bit first within a byte,
    least significant byte first; zero past the end. *)
Definition payload_bit (data : list Z) (i : nat) : bool :=
  match data !! (i / 8)%nat with
  | Some d => Z.testbit d (Z.of_nat (i mod 8))
  | None => false
  end.

Definition ir_cells (irvalue : Z) : list Z :=
  [tdi (Z.testbit irvalue 0); tdi (Z.testbit irvalue 1);
   tdi (Z.testbit irvalue 2); Z.lor (tdi (Z.testbit irvalue 3)) TMS].

Definition dr_cell (nbits : nat) (data : list Z) (i : nat) : Z :=
  Z.lor (tdi (payload_bit data i)) (if (S i =? nbits)%nat then TMS else 0).

Definition dr_cells (nbits : nat) (data : list Z) : list Z :=
  map (dr_cell nbits data) (seq 0 nbits).

Definition preamble (irvalue : Z) : list Z :=
  [0; 0] ++ [TMS; TMS; 0; 0] ++ ir_cells irvalue ++ [TMS; 0; TMS; 0; 0].

Definition postamble : list Z := [TMS; 0] ++ [0].

Definition frame (irvalue : Z) (nbits : nat) (data : list Z) : list Z :=
  preamble irvalue ++ dr_cells nbits data ++ postamble.

(** The four states of the TMS and TDI lines before a rising edge. *)
Definition output_state (pre : Z) : Prop :=
  pre = 0 \/ pre = TDI \/ pre = TMS \/ pre = Z.lor TDI TMS.

(** ** The samples and the packed result *)

(** The state of the TDO line in a response byte. *)
Definition tdo_line (r : Z) : bool := Z.testbit r 3.

(** The TDO samples of a transaction: sample [i] is the TDO line of the
    response byte at [retindex + 2 * i]. *)
Definition sample (retindex : nat) (ret : list Z) (i : nat) : bool :=
  match ret !! (retindex + 2 * i)%nat with
  | Some r => tdo_line r
  | None => false
  end.

(** [buf] holds the first [m] bits of [bits], least significant bit first in
    each byte, and nothing else. *)
Definition packed (bits : nat -> bool) (m : nat) (buf : list Z) : Prop :=
  forall (k : nat) (b : Z), buf !! k = Some b ->
  forall j : Z, 0 <= j ->
    Z.testbit b j =
    (j <? 8) && (8 * k + Z.to_nat j <? m)%nat && bits (8 * k + Z.to_nat j)%nat.

(** ** Packing bits into bytes *)

(** The value of a byte written least significant bit first. *)
Fixpoint byte_of_bits (bits : list bool) : Z :=
  match bits with
  | [] => 0
  | b :: bits => Z.b2z b + 2 * byte_of_bits bits
  end.

(** A bit pattern packed least-significant-bit-first into
    [ceil(length/8)] bytes. *)
Definition pack (bits : list bool) : list Z :=
  map (fun k => byte_of_bits (take 8 (drop (8 * k) bits)))
      (seq 0 (ceil_div (length bits) 8)).

Definition bit_at (bits : list bool) (i : nat) : bool := default false (bits !! i).

(** With a recorded position, the decoder fails only by reading past the
    end of the response. *)
Definition index_error_only {A} (r : result A) : Prop :=
  match r with
  | Ok _ => True
  | Raise e => e = IndexError
  | OutOfFuel => False
  end.

(** Bit [i] of a payload: of the integer itself, or of the byte sequence. *)
Definition payload_value_bit (data : Payload) (i : nat) : bool :=
  match data with
  | PInt v => Z.testbit v (Z.of_nat i)
  | PBytes bs => payload_bit bs i
  end.

(** The payloads that line 32 converts: every byte sequence, and the
    integers that fit in [ceil(nbits/8)] bytes. *)
Definition converts (nbits : nat) (data : Payload) : Prop :=
  match data with
  | PInt v => 0 <= v < 2 ^ (8 * Z.of_nat (ceil_div nbits 8))
  | PBytes _ => True
  end.

(** ** A transport that keeps its contract

    A write takes every byte it is given, and a read of [count] bytes
    returns [count] bytes: the response is as long as the stream. *)
Class TransportOK (D : Type) `{Transport D} : Prop := {
  write_all : forall (d : D) (bs : list Z), snd (dev_write d bs) = length bs;
  read_all : forall (d : D) (count : nat), length (snd (dev_read d count)) = count
}.

(** ** Reading the log *)

(** The instruction and payload of a call. *)
Definition invocation (e : event) : option (AVR_JTAG * Payload) :=
  match e with
  | Call instruction data _ => Some (instruction, data)
  | Sleep => None
  end.

Definition invocations (events : list event) : list (AVR_JTAG * Payload) :=
  omap invocation events.

(** What has been logged since the world [w]. *)
Definition events_since {D} (w w' : World D) : list event :=
  drop (length (log w)) (log w').

(** ** Polling the fuse write status *)

(** The world after [k] polls. *)
Definition after_polls {D} `{Transport D} (k : nat) (w : World D) : World D :=
  Nat.iter k (fun w => fst (jtag_command PROG_COMMANDS (PInt 0x3700) w)) w.

(** Bit 1 of the byte at index 1 of what a poll returned. *)
Definition status_bit (returned : result (list Z)) : option bool :=
  match returned with
  | Ok returned => (fun b => Z.testbit b 1) <$> returned !! 1%nat
  | _ => None
  end.

(** What a poll started in the world [w] reads as status. *)
Definition poll_status {D} `{Transport D} (w : World D) : option bool :=
  status_bit (snd (jtag_command PROG_COMMANDS (PInt 0x3700) w)).

(** ** Argument errors *)

(** A result that is not one of the errors raised for a bad argument. *)
Definition no_argument_error {A} (r : result A) : Prop :=
  match r with
  | Raise TypeError | Raise ValueError | Raise OverflowError => False
  | _ => True
  end.

(** A computation that raises no such error in any world. *)
Definition argument_safe {D A} (m : M D A) : Prop :=
  forall w : World D, no_argument_error (snd (m w)).

(** ** Specifications of runs

    [Spec m Q]: from any world, the run of [m] adds to the log a list of
    events that, together with the result, satisfies [Q]. *)
Definition Spec {D A} (m : M D A) (Q : list event -> result A -> Prop) : Prop :=
  forall w : World D,
    exists events, log (fst (m w)) = log w ++ events /\ Q events (snd (m w)).

(** [m] returns, and the calls it makes are [calls], in this order. *)
Definition Issues {D A} (m : M D A) (calls : list (AVR_JTAG * Payload)) : Prop :=
  Spec m (fun events r => (exists a, r = Ok a) /\ invocations events = calls).

(** Whatever [m] does, it makes no call of [instruction]. *)
Definition Avoids {D A} (instruction : AVR_JTAG) (m : M D A) : Prop :=
  Spec m (fun events _ => Forall (fun c => fst c <> instruction) (invocations events)).

(** ** The pages of an image *)

(** Page [k] of the image. *)
Definition page (program : list Z) (k : nat) : list Z :=
  slice program (k * PAGE_BYTES) (k * PAGE_BYTES + PAGE_BYTES).

(** Loading the word address (byte offset / 2) of a page: the high byte,
    then the low byte. *)
Definition load_address (offset : nat) : list (AVR_JTAG * Payload) :=
  [(PROG_COMMANDS, PInt (Z.lor 0x0700 (Z.land (Z.shiftr (Z.of_nat offset / 2) 8) 0xff)));
   (PROG_COMMANDS, PInt (Z.lor 0x0300 (Z.land (Z.of_nat offset / 2) 0xff)))].

(** The calls that write page [k]: address, page load, write pulse. *)
Definition write_page_calls (program : list Z) (k : nat) : list (AVR_JTAG * Payload) :=
  load_address (k * PAGE_BYTES)
  ++ [(PROG_PAGELOAD, PBytes (page program k))]
  ++ [(PROG_COMMANDS, PInt 0x3700); (PROG_COMMANDS, PInt 0x3500);
      (PROG_COMMANDS, PInt 0x3700); (PROG_COMMANDS, PInt 0x3700)].

(** What the PROG_PAGEREAD calls in a list of events returned, in order. *)
Definition pageread_return (e : event) : option (list Z) :=
  match e with
  | Call PROG_PAGEREAD _ (Ok returned) => Some returned
  | _ => None
  end.

Definition pageread_returns (events : list event) : list (list Z) :=
  omap pageread_return events.

(** The comparison of line 136 for page [k], on what PROG_PAGEREAD
    returned. *)
Definition readback_matches (program : list Z) (k : nat) (returned : list Z) : Prop :=
  take (length program - k * PAGE_BYTES) (drop 1 returned) = page program k.

(** The events start with calls [calls], and what follows satisfies [Q]. *)
Definition After {A} (calls : list (AVR_JTAG * Payload))
    (Q : list event -> result A -> Prop) : list event -> result A -> Prop :=
  fun events r =>
    exists ev1 ev2, events = ev1 ++ ev2 /\ invocations ev1 = calls /\ Q ev2 r.

(** The calls of the chip erase and of entering flash write mode. *)
Definition erase_calls : list (AVR_JTAG * Payload) :=
  [(AVR_RESET, PInt 1); (PROG_ENABLE, PInt 0xA370);
   (PROG_COMMANDS, PInt 0x2380); (PROG_COMMANDS, PInt 0x3180);
   (PROG_COMMANDS, PInt 0x3380); (PROG_COMMANDS, PInt 0x3380);
   (PROG_COMMANDS, PInt 0x2310)].

(** ** The verify loop *)

(** What PROG_PAGEREAD returned for page [k] agrees with the image: its first
    byte aside, the bytes are those of the page, as far as the image goes. *)
Definition readback_equal (program : list Z) (k : nat) (returned : list Z) : Prop :=
  forall i : nat,
    (i < 128)%nat -> (128 * k + i < length program)%nat ->
    returned !! (1 + i)%nat = program !! (128 * k + i)%nat.

(** Every PROG_PAGEREAD call has the payload 0. *)
Definition pageread_zero (c : AVR_JTAG * Payload) : Prop :=
  fst c = PROG_PAGEREAD -> snd c = PInt 0.

(** The outcome of verifying the pages [k0], ..., [k0 + m - 1]: what the
    events and the result look like.  Either every page was read once and
    matched, or the reads stop at the first page that did not match, with the
    error for that page. *)
Definition VerifyLoop (program : list Z) (k0 m : nat)
    (events : list event) (r : result unit) : Prop :=
  Forall pageread_zero (invocations events)
  /\ Forall (fun returned => length returned = 129%nat) (pageread_returns events)
  /\ ((r = Ok tt
       /\ length (pageread_returns events) = m
       /\ forall j returned,
            pageread_returns events !! j = Some returned ->
            readback_matches program (k0 + j) returned)
      \/ (exists j returned,
            pageread_returns events !! j = Some returned
            /\ length (pageread_returns events) = S j
            /\ (j < m)%nat
            /\ (forall j' returned',
                  (j' < j)%nat -> pageread_returns events !! j' = Some returned' ->
                  readback_matches program (k0 + j') returned')
            /\ ~ readback_matches program (k0 + j) returned
            /\ r = Raise (RuntimeError ((k0 + j) * PAGE_BYTES)
                                       (page program (k0 + j)) (drop 1 returned))
            /\ list.last events = Some (Call PROG_PAGEREAD (PInt 0) (Ok returned)))).

(** ** The readback as the specification words it *)

(** The bits of a byte sequence, least significant bit first. *)
Definition unpack (bs : list Z) : list bool :=
  flat_map (fun b => map (fun j => Z.testbit b (Z.of_nat j)) (seq 0 8)) bs.

(** A byte sequence with its first bit discarded and the rest packed anew. *)
Definition drop_first_bit (returned : list Z) : list Z :=
  pack (drop 1 (unpack returned)).

(** ** Further observations of one transaction *)

(** A value a [bytearray] can hold. *)
Definition is_byte (b : Z) : Prop := 0 <= b < 256.

(** A transport that records each [dev.write] call: its state is the list of
    the byte strings written so far.  It answers every read with zero
    bytes. *)
Definition recorder_transport : Transport (list (list Z)) := {|
  dev_flush chunks := chunks;
  dev_write chunks bs := (chunks ++ [bs], length bs);
  dev_read chunks count := (chunks, replicate count 0)
|}.

(** The instruction code read back from a stream: TDI of the pre-edge bytes
    of the four instruction register cells, least significant bit first. *)
Definition ir_of_stream (stream : list Z) : Z :=
  Z.b2z (Z.testbit (stream !!! 13%nat) 2)
  + 2 * (Z.b2z (Z.testbit (stream !!! 15%nat) 2)
         + 2 * (Z.b2z (Z.testbit (stream !!! 17%nat) 2)
                + 2 * Z.b2z (Z.testbit (stream !!! 19%nat) 2))).

(** ** The TAP controller

    The state machine of the test access port at the other end of the lines
    (IEEE 1149.1), whose states the comments of [jtag_command] name.  It
    steps on each rising edge of TCK by the value of TMS; on an edge taken in
    a shift state the bit on TDI is shifted into the selected register, and
    an edge taken in a capture state starts a new scan. *)
Inductive tap_state : Type :=
  | TestLogicReset | RunTestIdle
  | SelectDR | CaptureDR | ShiftDR | Exit1DR | PauseDR | Exit2DR | UpdateDR
  | SelectIR | CaptureIR | ShiftIR | Exit1IR | PauseIR | Exit2IR | UpdateIR.

Definition tap_next (s : tap_state) (tms : bool) : tap_state :=
  match s, tms with
  | TestLogicReset, false => RunTestIdle
  | TestLogicReset, true => TestLogicReset
  | RunTestIdle, false => RunTestIdle
  | RunTestIdle, true => SelectDR
  | SelectDR, false => CaptureDR
  | SelectDR, true => SelectIR
  | CaptureDR, false => ShiftDR
  | CaptureDR, true => Exit1DR
  | ShiftDR, false => ShiftDR
  | ShiftDR, true => Exit1DR
  | Exit1DR, false => PauseDR
  | Exit1DR, true => UpdateDR
  | PauseDR, false => PauseDR
  | PauseDR, true => Exit2DR
  | Exit2DR, false => ShiftDR
  | Exit2DR, true => UpdateDR
  | UpdateDR, false => RunTestIdle
  | UpdateDR, true => SelectDR
  | SelectIR, false => CaptureIR
  | SelectIR, true => TestLogicReset
  | CaptureIR, false => ShiftIR
  | CaptureIR, true => Exit1IR
  | ShiftIR, false => ShiftIR
  | ShiftIR, true => Exit1IR
  | Exit1IR, false => PauseIR
  | Exit1IR, true => UpdateIR
  | PauseIR, false => PauseIR
  | PauseIR, true => Exit2IR
  | Exit2IR, false => ShiftIR
  | Exit2IR, true => UpdateIR
  | UpdateIR, false => RunTestIdle
  | UpdateIR, true => SelectDR
  end.

(** The controller with the bits shifted into the instruction register and
    into the data register during their latest scans, first bit first. *)
Record tap : Type := mkTap {
  tap_st : tap_state;
  ir_in : list bool;
  dr_in : list bool
}.

(** One rising edge of TCK while the lines are at [b]. *)
Definition tap_edge (t : tap) (b : Z) : tap :=
  mkTap (tap_next (tap_st t) (Z.testbit b 4))
        (match tap_st t with
         | ShiftIR => ir_in t ++ [Z.testbit b 2]
         | CaptureIR => []
         | _ => ir_in t
         end)
        (match tap_st t with
         | ShiftDR => dr_in t ++ [Z.testbit b 2]
         | CaptureDR => []
         | _ => dr_in t
         end).

(** The controller driven by a stream of line states; [tck] is the level of
    TCK before the first of them. *)
Fixpoint tap_run (stream : list Z) (tck : bool) (t : tap) : tap :=
  match stream with
  | [] => t
  | b :: stream =>
      tap_run stream (Z.testbit b 5)
              (if Z.testbit b 5 && negb tck then tap_edge t b else t)
  end.

(** ** Further specifications of runs *)

(** [m] returns, and what it does is [trace], in this order: the calls it
    makes, with [None] for each sleep. *)
Definition Runs {D A} (m : M D A) (trace : list (option (AVR_JTAG * Payload))) : Prop :=
  Spec m (fun events r => (exists a, r = Ok a) /\ map invocation events = trace).

(** If [m] returns, the calls it has made satisfy [P]. *)
Definition Completes {D A} (m : M D A) (P : list (AVR_JTAG * Payload) -> Prop) : Prop :=
  Spec m (fun events r => (exists a, r = Ok a) -> P (invocations events)).

(** The calls of the sequencer, by name. *)
Definition command (opcode : Z) : AVR_JTAG * Payload := (PROG_COMMANDS, PInt opcode).

Definition exit_calls : list (AVR_JTAG * Payload) :=
  [command 0x2300; command 0x3300; (PROG_ENABLE, PInt 0); (AVR_RESET, PInt 0)].

Definition read_page_calls (k : nat) : list (AVR_JTAG * Payload) :=
  load_address (k * PAGE_BYTES) ++ [(PROG_PAGEREAD, PInt 0)].

(** The four-opcode pulse that writes what has been loaded. *)
Definition write_pulse (high low : Z) : list (AVR_JTAG * Payload) :=
  [command high; command low; command high; command high].

(** Loading one fuse byte and pulsing it into the fuse. *)
Definition fuse_write_calls (byte high low : Z) : list (AVR_JTAG * Payload) :=
  command (Z.lor 0x1300 byte) :: write_pulse high low.

(** What writing page [k] does: its calls, then the settle sleep. *)
Definition write_page_trace (program : list Z) (k : nat)
  : list (option (AVR_JTAG * Payload)) :=
  map Some (write_page_calls program k) ++ [None].

(** What the chip erase does: reset, enable, the erase pulse, the settle
    sleep, and entering flash write mode. *)
Definition erase_trace : list (option (AVR_JTAG * Payload)) :=
  [Some (AVR_RESET, PInt 1); Some (PROG_ENABLE, PInt 0xA370);
   Some (command 0x2380); Some (command 0x3180);
   Some (command 0x3380); Some (command 0x3380);
   None;
   Some (command 0x2310)].

(** What the calls in a list of events returned, in order. *)
Definition reply (e : event) : option (list Z) :=
  match e with
  | Call _ _ (Ok returned) => Some returned
  | _ => None
  end.

Definition replies (events : list event) : list (list Z) := omap reply events.

(** The call of one poll of the fuse write status. *)
Definition poll_call : AVR_JTAG * Payload := command 0x3700.

(** A transport whose reads return nothing: it takes every byte written and
    answers none. *)
Definition silent_transport : Transport unit := {|
  dev_flush d := d;
  dev_write d bs := (d, length bs);
  dev_read d count := (d, [])
|}.

(** ** The wire and the log *)

(** The bytes one call puts on the wire: the stream encoded for its
    instruction and payload, and nothing when the payload does not
    convert. *)
Definition call_stream (c : AVR_JTAG * Payload) : list Z :=
  match payload_bytes (nbits_of (fst c)) (snd c) with
  | Ok bs => fst (encode (irvalue_of (fst c)) (nbits_of (fst c)) bs)
  | _ => []
  end.

(** Whatever [m] does, the bytes it writes to the transport are the streams
    of the calls it logs, in the order of the calls, and nothing else. *)
Definition Wired {D A} (m : M D A) : Prop :=
  forall w : World D,
    exists events,
      log (fst (m w)) = log w ++ events
      /\ wire (fst (m w)) = wire w ++ concat (map call_stream (invocations events)).

(** ** Properties of the encoder *)

Lemma cells_app (l1 l2 : list Z) : cells (l1 ++ l2) = cells l1 ++ cells l2.
Proof.
  induction l1 as [|b l1 IH]; [done|].
  cbn [cells app]. rewrite IH. by rewrite <- app_assoc.
Qed.

Lemma length_cells (l : list Z) : length (cells l) = (2 * length l)%nat.
Proof. induction l as [|b l IH]; cbn in *; lia. Qed.

Lemma clock_tms_spec (l : list Z) (stream : list Z) :
  clock_tms l stream = stream ++ cells (map (fun tms => tms * TMS) l).
Proof.
  unfold clock_tms. revert stream.
  induction l as [|tms l IH]; intros stream; cbn [fold_left map cells].
  - by rewrite app_nil_r.
  - rewrite IH. cbn [clock_in fst cell]. by rewrite <- app_assoc.
Qed.

Lemma land_shiftr_1 (d k : Z) :
  0 <= k -> Z.land (Z.shiftr d k) 1 = Z.b2z (Z.testbit d k).
Proof.
  intros Hk. change 1 with (Z.ones 1). rewrite Z.land_ones by lia.
  change (2 ^ 1) with 2. rewrite <- Z.bit0_mod.
  rewrite Z.shiftr_spec by lia. by rewrite Z.add_0_l.
Qed.

Lemma tdi_py_bool (b : bool) : TDI * py_bool (Z.b2z b) = tdi b.
Proof. by destruct b. Qed.

(** The bit the data register loop puts on TDI. *)
Lemma shift_dr_step_spec (data : list Z) (stream : list Z) (ri : option nat) (bit : nat) :
  shift_dr_step data (stream, ri) bit =
  (stream ++ cell (tdi (payload_bit data bit)),
   if (bit =? 0)%nat then Some (length stream + 2)%nat else ri).
Proof.
  unfold shift_dr_step, payload_bit.
  case_bool_decide as Hlen.
  - rewrite (list_lookup_lookup_total_lt data (bit / 8)) by done.
    rewrite land_shiftr_1 by lia. rewrite tdi_py_bool.
    cbn [clock_in]. by rewrite length_app.
  - rewrite lookup_ge_None_2 by lia.
    cbn [clock_in tdi]. by rewrite length_app.
Qed.

Lemma shift_dr_spec (nbits : nat) (data : list Z) (stream : list Z) :
  shift_dr nbits data stream =
  (stream ++ cells (map (fun i => tdi (payload_bit data i)) (seq 0 nbits)),
   if (nbits =? 0)%nat then None else Some (length stream + 2)%nat).
Proof.
  unfold shift_dr. induction nbits as [|n IH].
  - cbn. by rewrite app_nil_r.
  - rewrite seq_S, fold_left_app, IH. cbn [fold_left].
    rewrite shift_dr_step_spec. rewrite map_app, cells_app.
    cbn [map cells Nat.add]. rewrite app_nil_r, <- app_assoc.
    f_equal. destruct n as [|n]; [|done].
    cbn [seq map cells Nat.eqb]. by rewrite app_nil_r.
Qed.
Lemma mark_last_cell_snoc (stream : list Z) (a b : Z) :
  mark_last_cell (stream ++ [a; b]) = stream ++ [Z.lor a TMS; Z.lor b TMS].
Proof.
  unfold mark_last_cell, or_at.
  rewrite length_alter, length_app. cbn [length].
  replace (length stream + 2 - 2)%nat with (length stream + 0)%nat by lia.
  replace (length stream + 2 - 1)%nat with (length stream + 1)%nat by lia.
  rewrite alter_app_r. rewrite alter_app_r. done.
Qed.

Lemma land_1_testbit (x : Z) : Z.land x 1 = Z.b2z (Z.testbit x 0).
Proof. rewrite <- (land_shiftr_1 x 0) by lia. by rewrite Z.shiftr_0_r. Qed.

Lemma tdi_b2z (b : bool) : TDI * Z.b2z b = tdi b.
Proof. by destruct b. Qed.

Lemma shift_ir_spec (irvalue : Z) (stream : list Z) :
  shift_ir irvalue stream =
  stream ++ cells ([tdi (Z.testbit irvalue 0); tdi (Z.testbit irvalue 1);
                    tdi (Z.testbit irvalue 2)] ++ [tdi (Z.testbit irvalue 3)]).
Proof.
  unfold shift_ir. cbn [IR_LENGTH seq fold_left clock_in fst].
  rewrite !Z.shiftr_shiftr by lia. cbn [Z.add Pos.add Pos.succ].
  rewrite land_1_testbit, !land_shiftr_1 by lia.
  rewrite !(Z.mul_comm _ TDI), !tdi_b2z.
  cbn [cells cell app]. by rewrite <- !app_assoc.
Qed.

(** Raising TMS on both halves of a cell whose only line is TDI gives the
    cell of the state with TMS raised. *)
Lemma mark_cell (b : bool) :
  [Z.lor (tdi b) TMS; Z.lor (tdi b + TCK) TMS] = cell (Z.lor (tdi b) TMS).
Proof. by destruct b. Qed.

Lemma mark_last_cell_cells (stream : list Z) (pres : list Z) (b : bool) :
  mark_last_cell (stream ++ cells (pres ++ [tdi b])) =
  stream ++ cells (pres ++ [Z.lor (tdi b) TMS]).
Proof.
  rewrite !cells_app. cbn [cells cell app].
  rewrite !app_assoc. rewrite mark_last_cell_snoc.
  by rewrite (mark_cell b).
Qed.

Lemma dr_cells_snoc (n : nat) (data : list Z) :
  dr_cells (S n) data =
  map (fun i => tdi (payload_bit data i)) (seq 0 n)
  ++ [Z.lor (tdi (payload_bit data n)) TMS].
Proof.
  unfold dr_cells. rewrite seq_S, map_app. cbn [map Nat.add].
  f_equal.
  - apply map_ext_in. intros i Hi%in_seq. unfold dr_cell.
    destruct (Nat.eqb_spec (S i) (S n)) as [?|_]; [lia|].
    by rewrite Z.lor_0_r.
  - unfold dr_cell. by rewrite Nat.eqb_refl.
Qed.

(** The stream is one idle byte followed by the cells of the frame, and the
    recorded position is that of the byte after the first data cell. *)
Lemma encode_spec (irvalue : Z) (nbits : nat) (data : list Z) :
  (0 < nbits)%nat ->
  encode irvalue nbits data = (0 :: cells (frame irvalue nbits data), Some 33%nat).
Proof.
  intros Hn. destruct nbits as [|n]; [lia|]. clear Hn.
  unfold encode. cbn [seq fold_left clock_in fst].
  rewrite !clock_tms_spec, shift_ir_spec.
  rewrite mark_last_cell_cells.
  rewrite shift_dr_spec. cbn [Nat.eqb].
  rewrite seq_S, map_app. cbn [map Nat.add].
  rewrite mark_last_cell_cells.
  rewrite clock_tms_spec.
  unfold frame. rewrite dr_cells_snoc.
  f_equal.
  - rewrite !Z.mul_1_l, !Z.mul_0_l. unfold preamble, postamble, ir_cells.
    rewrite !cells_app. cbn [cells cell app map].
    rewrite <- !app_assoc. cbn [app]. rewrite <- ?app_assoc. done.
Qed.


(** ** The monad *)

Lemma bind_ok {D A B} (m : M D A) (f : A -> M D B) (w w' : World D) (a : A) :
  m w = (w', Ok a) -> (m ≫= f) w = f a w'.
Proof. intros Hm. unfold mbind, M_bind. by rewrite Hm. Qed.

Lemma bind_raise {D A B} (m : M D A) (f : A -> M D B) (w w' : World D) (e : error) :
  m w = (w', Raise e) -> (m ≫= f) w = (w', Raise e).
Proof. intros Hm. unfold mbind, M_bind. by rewrite Hm. Qed.

Lemma bind_out_of_fuel {D A B} (m : M D A) (f : A -> M D B) (w w' : World D) :
  m w = (w', OutOfFuel) -> (m ≫= f) w = (w', OutOfFuel).
Proof. intros Hm. unfold mbind, M_bind. by rewrite Hm. Qed.

(** ** The round trip *)

Lemma slice_chunk {A} (l : list A) (offset size : nat) :
  slice l offset (offset + size) = take size (drop offset l).
Proof. unfold slice. f_equal. lia. Qed.

Lemma range_from_chunks {A} (l : list A) (size : nat) :
  (0 < size)%nat ->
  forall fuel start,
    (length l - start <= fuel)%nat ->
    concat (map (fun offset => slice l offset (offset + size))
                (range_from fuel start (length l) size)) = drop start l.
Proof.
  intros Hsize. induction fuel as [|fuel IH]; intros start Hfuel.
  - cbn. rewrite drop_ge by lia. done.
  - cbn [range_from]. destruct (Nat.ltb_spec start (length l)) as [Hlt|Hge].
    + cbn [map concat]. rewrite IH by lia.
      rewrite slice_chunk. rewrite <- drop_drop.
      by rewrite take_drop.
    + cbn. rewrite drop_ge by lia. done.
Qed.

Lemma py_range_chunks {A} (l : list A) (size : nat) :
  (0 < size)%nat ->
  concat (map (fun offset => slice l offset (offset + size))
              (py_range 0 (length l) size)) = l.
Proof.
  intros Hsize. unfold py_range.
  rewrite range_from_chunks by lia. done.
Qed.

Section RoundTrip.
Context {D : Type} `{Transport D}.

Lemma transfer_chunks_spec (stream : list Z) (offsets : list nat) :
  forall (read_ : list (list Z)) (w : World D),
  exists w' chunks,
    transfer_chunks stream offsets read_ w = (w', Ok (read_ ++ chunks))
    /\ wire w' = wire w ++ concat (map (fun offset => slice stream offset (offset + CHUNK_SIZE)) offsets)
    /\ log w' = log w.
Proof.
  induction offsets as [|offset offsets IH]; intros read_ w.
  - exists w, []. cbn. by rewrite !app_nil_r.
  - cbn [transfer_chunks map concat].
    destruct (dev_write (dev w) (slice stream offset (offset + CHUNK_SIZE)))
      as [d1 written] eqn:Hw.
    destruct (dev_read d1 written) as [d2 chunk] eqn:Hr.
    set (w1 := mkWorld d1 (wire w ++ slice stream offset (offset + CHUNK_SIZE)) (log w)).
    set (w2 := mkWorld d2 (wire w1) (log w1)).
    destruct (IH (read_ ++ [chunk]) w2) as (w' & chunks & Hrun & Hwire & Hlog).
    exists w', (chunk :: chunks). split; [|split].
    + erewrite bind_ok; [|unfold write; by rewrite Hw].
      erewrite bind_ok; [|unfold read; cbn [dev]; by rewrite Hr].
      fold w1. cbn [wire log]. fold w2. rewrite Hrun.
      by rewrite <- app_assoc.
    + rewrite Hwire. cbn. by rewrite <- app_assoc.
    + by rewrite Hlog.
Qed.

(** The device is handed the stream as it is, in order, whatever it
    answers. *)
Lemma exchange_spec (stream : list Z) (w : World D) :
  exists w' ret,
    exchange stream w = (w', Ok ret)
    /\ wire w' = wire w ++ stream
    /\ log w' = log w.
Proof.
  unfold exchange, transfer.
  set (w0 := mkWorld (dev_flush (dev w)) (wire w) (log w)).
  destruct (transfer_chunks_spec stream (py_range 0 (length stream) CHUNK_SIZE) [] w0)
    as (w' & chunks & Hrun & Hwire & Hlog).
  exists w', (concat chunks). split; [|split].
  - erewrite bind_ok; [|unfold flush; reflexivity].
    fold w0. erewrite bind_ok; [|exact Hrun]. done.
  - rewrite Hwire. rewrite py_range_chunks by (unfold CHUNK_SIZE; lia). done.
  - done.
Qed.

End RoundTrip.

(** ** Properties of the decoder *)

Lemma land_TDO (r : Z) : Z.land r TDO = if tdo_line r then TDO else 0.
Proof.
  apply Z.bits_inj'. intros i Hi. rewrite Z.land_spec.
  change TDO with (2 ^ 3). unfold tdo_line.
  rewrite Z.pow2_bits_eqb by lia.
  destruct (Z.eqb_spec 3 i) as [<-|Hne].
  - rewrite andb_true_r. destruct (Z.testbit r 3).
    + by rewrite Z.pow2_bits_eqb by lia.
    + by rewrite Z.bits_0.
  - rewrite andb_false_r. destruct (Z.testbit r 3).
    + rewrite Z.pow2_bits_eqb by lia. symmetry. by apply Z.eqb_neq.
    + by rewrite Z.bits_0.
Qed.

Lemma py_bool_land_TDO (r : Z) : py_bool (Z.land r TDO) = Z.b2z (tdo_line r).
Proof. rewrite land_TDO. by destruct (tdo_line r). Qed.

Lemma testbit_b2z (s : bool) (x : Z) : Z.testbit (Z.b2z s) x = s && (x =? 0).
Proof.
  destruct s; cbn [Z.b2z andb].
  - destruct (Z.eqb_spec x 0) as [->|Hne]; [done|].
    destruct (Z.lt_trichotomy x 0) as [Hlt|[?|Hgt]]; [|done|].
    + by apply Z.testbit_neg_r.
    + change 1 with (2 ^ 0). rewrite Z.pow2_bits_eqb by lia.
      apply Z.eqb_neq. lia.
  - apply Z.bits_0.
Qed.

Lemma packed_replicate (bits : nat -> bool) (len : nat) :
  packed bits 0 (replicate len 0).
Proof.
  intros k b [-> _]%lookup_replicate j Hj.
  rewrite Z.bits_0. rewrite andb_false_r. done.
Qed.

Lemma packed_step (bits : nat -> bool) (m : nat) (buf : list Z) :
  packed bits m buf ->
  packed bits (S m)
    (alter (fun b => Z.lor b (Z.shiftl (Z.b2z (bits m)) (Z.of_nat (m mod 8))))
           (m / 8)%nat buf).
Proof.
  intros Hp k b Hk j Hj.
  pose proof (Nat.div_mod_eq m 8) as Hdm.
  pose proof (Nat.mod_upper_bound m 8 ltac:(lia)) as Hmod.
  revert Hk Hdm Hmod.
  generalize (m mod 8)%nat (m / 8)%nat. intros q d Hk Hdm Hmod.
  rewrite list_lookup_alter in Hk.
  destruct (decide (d = k)%nat) as [<-|Hne].
  - destruct (buf !! d) as [b0|] eqn:Hb0; [|done].
    cbn [fmap option_fmap option_map] in Hk. injection Hk as <-.
    rewrite Z.lor_spec, (Hp _ _ Hb0 j Hj).
    rewrite Z.shiftl_spec by lia. rewrite testbit_b2z.
    destruct (Z.eqb_spec (j - Z.of_nat q) 0) as [Heq|Hneq].
    + replace (8 * d + Z.to_nat j)%nat with m by lia.
      rewrite Nat.ltb_irrefl.
      destruct (Nat.ltb_spec m (S m)); [|lia].
      destruct (Z.ltb_spec j 8); [|lia].
      by destruct (bits m).
    + rewrite andb_false_r, orb_false_r. do 2 f_equal.
      destruct (Nat.ltb_spec (8 * d + Z.to_nat j) m),
               (Nat.ltb_spec (8 * d + Z.to_nat j) (S m)); try done; lia.
  - rewrite (Hp _ _ Hk j Hj).
    destruct (Z.ltb_spec j 8) as [Hj8|Hj8]; [|done].
    do 2 f_equal.
    destruct (Nat.ltb_spec (8 * k + Z.to_nat j) m),
             (Nat.ltb_spec (8 * k + Z.to_nat j) (S m)); try done; lia.
Qed.

Lemma packed_unique (bits : nat -> bool) (m : nat) (buf1 buf2 : list Z) :
  packed bits m buf1 -> packed bits m buf2 ->
  length buf1 = length buf2 -> buf1 = buf2.
Proof.
  intros H1 H2 Hlen. apply list_eq. intros k.
  destruct (buf1 !! k) as [b1|] eqn:Hb1.
  - destruct (buf2 !! k) as [b2|] eqn:Hb2.
    + f_equal. apply Z.bits_inj'. intros j Hj.
      by rewrite (H1 _ _ Hb1 j Hj), (H2 _ _ Hb2 j Hj).
    + apply lookup_lt_Some in Hb1. apply lookup_ge_None in Hb2. lia.
  - destruct (buf2 !! k) as [b2|] eqn:Hb2; [|done].
    apply lookup_lt_Some in Hb2. apply lookup_ge_None in Hb1. lia.
Qed.

Lemma div8_lt_ceil (i n : nat) : (i < n)%nat -> (i / 8 < ceil_div n 8)%nat.
Proof.
  intros Hi. unfold ceil_div.
  apply Nat.Div0.div_lt_upper_bound.
  pose proof (Nat.div_mod_eq (n + (8 - 1)) 8).
  pose proof (Nat.mod_upper_bound (n + (8 - 1)) 8 ltac:(lia)). lia.
Qed.

Lemma decode_loop (retindex : nat) (ret : list Z) (len m : nat) :
  (forall i, (i < m)%nat -> is_Some (ret !! (retindex + 2 * i)%nat)) ->
  (forall i, (i < m)%nat -> (i / 8 < len)%nat) ->
  exists buf,
    fold_left (decode_step (Some retindex) ret) (seq 0 m) (Ok (replicate len 0)) = Ok buf
    /\ length buf = len
    /\ packed (sample retindex ret) m buf.
Proof.
  induction m as [|m IH]; intros Hret Hlen.
  - exists (replicate len 0). cbn. split; [done|]. split.
    + apply length_replicate.
    + apply packed_replicate.
  - destruct IH as (buf & Hrun & Hbuf & Hp); [intros; apply Hret; lia|intros; apply Hlen; lia|].
    destruct (Hret m ltac:(lia)) as [r Hr].
    eexists. rewrite seq_S, fold_left_app, Hrun. cbn [fold_left Nat.add decode_step].
    rewrite Hr. rewrite bool_decide_true by (rewrite Hbuf; apply Hlen; lia).
    split; [reflexivity|]. split.
    + by rewrite length_alter.
    + rewrite py_bool_land_TDO.
      replace (tdo_line r) with (sample retindex ret m) by (unfold sample; by rewrite Hr).
      by apply packed_step.
Qed.

(** The decoder returns whenever the response reaches the sampled positions,
    and then gives [ceil(nbits/8)] bytes holding the samples. *)
Lemma decode_spec (nbits retindex : nat) (ret : list Z) :
  (forall i, (i < nbits)%nat -> is_Some (ret !! (retindex + 2 * i)%nat)) ->
  exists buf,
    decode nbits (Some retindex) ret = Ok buf
    /\ length buf = ceil_div nbits 8
    /\ packed (sample retindex ret) nbits buf.
Proof.
  intros Hret. apply decode_loop; [done|].
  intros i Hi. by apply div8_lt_ceil.
Qed.

(** ** Packing bits into bytes *)

Lemma lookup_map {A B} (f : A -> B) (l : list A) (i : nat) :
  map f l !! i = f <$> l !! i.
Proof.
  revert i. induction l as [|x l IH]; intros [|i]; cbn; done.
Qed.

Lemma testbit_byte_of_bits (bits : list bool) (j : Z) :
  0 <= j -> Z.testbit (byte_of_bits bits) j = bit_at bits (Z.to_nat j).
Proof.
  revert j. induction bits as [|b bits IH]; intros j Hj.
  - cbn. apply Z.bits_0.
  - cbn [byte_of_bits]. rewrite Z.add_comm.
    destruct (Z.eq_dec j 0) as [->|Hne].
    + by rewrite Z.testbit_0_r.
    + replace j with (Z.succ (j - 1)) at 1 by lia.
      rewrite Z.testbit_succ_r by lia. rewrite IH by lia.
      replace (Z.to_nat j) with (S (Z.to_nat (j - 1))) by lia. done.
Qed.

Lemma packed_pack (bits : list bool) :
  packed (bit_at bits) (length bits) (pack bits).
Proof.
  intros k b Hk j Hj. unfold pack in Hk. rewrite lookup_map in Hk.
  destruct (seq 0 (ceil_div (length bits) 8) !! k) as [k'|] eqn:Hseq; [|done].
  apply lookup_seq in Hseq as [-> _].
  cbn [fmap option_fmap option_map Nat.add] in Hk. injection Hk as Hb. subst b.
  rewrite testbit_byte_of_bits by done. unfold bit_at.
  rewrite lookup_take, lookup_drop.
  destruct (Z.ltb_spec j 8) as [Hj8|Hj8].
  - rewrite decide_True by lia. cbn [andb].
    destruct (Nat.ltb_spec (8 * k + Z.to_nat j) (length bits)) as [Hlt|Hge]; [done|].
    by rewrite lookup_ge_None_2 by lia.
  - by rewrite decide_False by lia.
Qed.

Lemma length_pack (bits : list bool) : length (pack bits) = ceil_div (length bits) 8.
Proof. unfold pack. by rewrite length_map, length_seq. Qed.

(** ** One transaction *)

Lemma nbits_of_pos (instruction : AVR_JTAG) : (0 < nbits_of instruction)%nat.
Proof. destruct instruction; cbn; lia. Qed.

Section Transaction.
Context {D : Type} `{Transport D}.

(** A payload that converts: the stream goes out whole, and the call
    returns what the decoder makes of the response. *)
Lemma jtag_command_run (instruction : AVR_JTAG) (data : Payload) (bs : list Z)
    (w : World D) :
  payload_bytes (nbits_of instruction) data = Ok bs ->
  exists w1 ret,
    exchange (0 :: cells (frame (irvalue_of instruction) (nbits_of instruction) bs)) w
      = (w1, Ok ret)
    /\ wire w1 = wire w ++ 0 :: cells (frame (irvalue_of instruction) (nbits_of instruction) bs)
    /\ log w1 = log w
    /\ jtag_command instruction data w
       = (log_event (Call instruction data (decode (nbits_of instruction) (Some 33%nat) ret)) w1,
          decode (nbits_of instruction) (Some 33%nat) ret).
Proof.
  intros Hbs.
  destruct (exchange_spec
              (0 :: cells (frame (irvalue_of instruction) (nbits_of instruction) bs)) w)
    as (w1 & ret & Hex & Hwire & Hlog).
  exists w1, ret. split; [done|]. split; [done|]. split; [done|].
  unfold jtag_command, jtag_transaction.
  fold (nbits_of instruction). fold (irvalue_of instruction).
  erewrite bind_ok; [|unfold lift; by rewrite Hbs].
  rewrite encode_spec by apply nbits_of_pos.
  erewrite bind_ok; [|exact Hex]. done.
Qed.

(** A payload that does not convert: the call raises before anything
    reaches the device. *)
Lemma jtag_command_raise (instruction : AVR_JTAG) (data : Payload) (e : error)
    (w : World D) :
  payload_bytes (nbits_of instruction) data = Raise e ->
  jtag_command instruction data w
  = (log_event (Call instruction data (Raise e)) w, Raise e).
Proof.
  intros Hbs. unfold jtag_command, jtag_transaction.
  fold (nbits_of instruction).
  erewrite bind_raise; [|unfold lift; by rewrite Hbs]. done.
Qed.

End Transaction.

Lemma packed_ext (f g : nat -> bool) (m : nat) (buf : list Z) :
  (forall i, (i < m)%nat -> f i = g i) -> packed f m buf -> packed g m buf.
Proof.
  intros Hfg Hp k b Hk j Hj. rewrite (Hp k b Hk j Hj).
  destruct (Nat.ltb_spec (8 * k + Z.to_nat j) m) as [Hlt|Hge].
  - by rewrite Hfg.
  - by rewrite !andb_false_r.
Qed.

Lemma lookup_cells_pre (pres : list Z) (i : nat) :
  cells pres !! (2 * i)%nat = pres !! i.
Proof.
  revert i. induction pres as [|pre pres IH]; intros [|i]; try done.
  replace (2 * S i)%nat with (S (S (2 * i))) by lia. cbn. apply IH.
Qed.

Lemma lookup_cells_post (pres : list Z) (i : nat) :
  cells pres !! (2 * i + 1)%nat = (fun pre => pre + TCK) <$> pres !! i.
Proof.
  revert i. induction pres as [|pre pres IH]; intros [|i]; try done.
  replace (2 * S i + 1)%nat with (S (S (2 * i + 1))) by lia. cbn. apply IH.
Qed.

Lemma length_preamble (irvalue : Z) : length (preamble irvalue) = 15%nat.
Proof. done. Qed.

Lemma length_dr_cells (nbits : nat) (data : list Z) : length (dr_cells nbits data) = nbits.
Proof. unfold dr_cells. by rewrite length_map, length_seq. Qed.

Lemma length_frame (irvalue : Z) (nbits : nat) (data : list Z) :
  length (frame irvalue nbits data) = (14 + (4 + nbits))%nat.
Proof.
  unfold frame. rewrite !length_app, length_preamble, length_dr_cells. cbn. lia.
Qed.

Lemma lookup_dr_cells (nbits : nat) (data : list Z) (i : nat) :
  (i < nbits)%nat -> dr_cells nbits data !! i = Some (dr_cell nbits data i).
Proof.
  intros Hi. unfold dr_cells. rewrite lookup_map.
  by rewrite lookup_seq_lt by done.
Qed.

(** Where the data register cells sit in the frame. *)
Lemma lookup_frame_dr (irvalue : Z) (nbits : nat) (data : list Z) (i : nat) :
  (i < nbits)%nat ->
  frame irvalue nbits data !! (15 + i)%nat = Some (dr_cell nbits data i).
Proof.
  intros Hi. unfold frame.
  rewrite lookup_app_r by (rewrite length_preamble; lia).
  rewrite length_preamble.
  rewrite lookup_app_l by (rewrite length_dr_cells; lia).
  replace (15 + i - 15)%nat with i by lia. by apply lookup_dr_cells.
Qed.

Lemma dr_cell_TCK (nbits : nat) (data : list Z) (i : nat) :
  Z.testbit (dr_cell nbits data i + TCK) 5 = true.
Proof.
  unfold dr_cell. by destruct (payload_bit data i), (S i =? nbits)%nat.
Qed.

(** ** The claims about one transaction *)

Section TransactionClaims.
Context {D : Type} `{Transport D}.

(** C1 (round-trip decode).  Take the stream and the recorded start
    position the encoder produces for an instruction with an [n]-bit data
    register, and any response of the transport in which the TDO line of
    the byte at (recorded start position + 2*i) carries bit [i] of a chosen
    pattern of [n] bits.  Then [jtag_command] returns exactly that pattern
    packed least-significant-bit-first into ceil(n/8) bytes.  The sampled
    response byte is the one that comes right after the TCK-asserted byte
    of data register cell [i] in the stream. *)
Theorem jtag_command_round_trip (instruction : AVR_JTAG) (data : Payload)
    (bs stream ret : list Z) (retindex : nat) (pattern : list bool)
    (w w1 : World D) :
  payload_bytes (nbits_of instruction) data = Ok bs ->
  encode (irvalue_of instruction) (nbits_of instruction) bs = (stream, Some retindex) ->
  exchange stream w = (w1, Ok ret) ->
  length pattern = nbits_of instruction ->
  (forall i b, pattern !! i = Some b ->
               tdo_line <$> ret !! (retindex + 2 * i)%nat = Some b) ->
  snd (jtag_command instruction data w) = Ok (pack pattern)
  /\ (forall i, (i < nbits_of instruction)%nat ->
        exists post, stream !! (retindex + 2 * i - 1)%nat = Some post
                     /\ Z.testbit post 5 = true).
Proof.
  intros Hbs Henc Hex Hlen Hpat.
  rewrite encode_spec in Henc by apply nbits_of_pos.
  assert (stream = 0 :: cells (frame (irvalue_of instruction) (nbits_of instruction) bs)
          /\ retindex = 33%nat) as [-> ->] by (split; congruence).
  destruct (jtag_command_run instruction data bs w Hbs)
    as (w1' & ret' & Hex' & _ & _ & Hrun).
  assert (ret' = ret) as -> by congruence.
  split.
  - rewrite Hrun. cbn [snd].
    destruct (decode_spec (nbits_of instruction) 33 ret) as (buf & Hdec & Hbuf & Hp).
    { intros i Hi. destruct (lookup_lt_is_Some_2 pattern i ltac:(lia)) as [b Hb].
      specialize (Hpat i b Hb). destruct (ret !! (33 + 2 * i)%nat); [by eexists|done]. }
    rewrite Hdec. f_equal.
    apply (packed_unique (bit_at pattern) (nbits_of instruction)).
    + eapply packed_ext; [|exact Hp]. intros i Hi.
      destruct (lookup_lt_is_Some_2 pattern i ltac:(lia)) as [b Hb].
      specialize (Hpat i b Hb). unfold sample, bit_at. rewrite Hb.
      destruct (ret !! (33 + 2 * i)%nat); [|done]. by injection Hpat.
    + rewrite <- Hlen. apply packed_pack.
    + by rewrite Hbuf, length_pack, Hlen.
  - intros i Hi. exists (dr_cell (nbits_of instruction) bs i + TCK). split.
    + replace (33 + 2 * i - 1)%nat with (S (2 * (15 + i) + 1)) by lia.
      cbn [lookup list_lookup]. rewrite lookup_cells_post.
      by rewrite lookup_frame_dr.
    + apply dr_cell_TCK.
Qed.

End TransactionClaims.

Lemma jtag_command_round_trip_witness :
  snd (jtag_command PROG_COMMANDS (PInt 0x3700)
         (script_world (replicate 33 0 ++ [8; 0; 0; 0; 8; 0; 8]))) = Ok (pack ([true; false; true; true] ++ replicate 11 false))
  /\ (forall i, (i < nbits_of PROG_COMMANDS)%nat ->
          exists post, fst (encode 5 15 [0; 0x37]) !! (33 + 2 * i - 1)%nat = Some post
                       /\ Z.testbit post 5 = true).
Proof.
  eapply (jtag_command_round_trip PROG_COMMANDS (PInt 0x3700) [0; 0x37] _ _ 33
            ([true; false; true; true] ++ replicate 11 false)
            (script_world (replicate 33 0 ++ [8; 0; 0; 0; 8; 0; 8]))).
  - reflexivity.
  - vm_compute. reflexivity.
  - vm_compute. reflexivity.
  - reflexivity.
  - intros i b Hb. 
    do 15 (destruct i as [|i]; [vm_compute in Hb |- *; congruence|]).
    vm_compute in Hb. discriminate.
Defined.

(** ** The lines a frame drives *)

Lemma tdi_lines (b : bool) (tms : bool) :
  output_state (Z.lor (tdi b) (if tms then TMS else 0)).
Proof. unfold output_state. destruct b, tms; cbn; auto. Qed.

Lemma frame_lines (irvalue : Z) (nbits : nat) (data : list Z) :
  Forall output_state (frame irvalue nbits data).
Proof.
  unfold frame. rewrite !Forall_app. split; [|split].
  - unfold preamble, ir_cells.
    pose proof (tdi_lines (Z.testbit irvalue 0) false) as H0.
    pose proof (tdi_lines (Z.testbit irvalue 1) false) as H1.
    pose proof (tdi_lines (Z.testbit irvalue 2) false) as H2.
    pose proof (tdi_lines (Z.testbit irvalue 3) true) as H3.
    rewrite Z.lor_0_r in H0, H1, H2.
    repeat apply Forall_cons; try done; unfold output_state; auto.
  - unfold dr_cells. apply Forall_lookup. intros i pre Hpre.
    rewrite lookup_map in Hpre.
    destruct (seq 0 nbits !! i) as [i'|]; [|done].
    cbn [fmap option_fmap option_map] in Hpre.
    assert (pre = dr_cell nbits data i') as -> by congruence.
    unfold dr_cell. apply tdi_lines.
  - unfold postamble. repeat apply Forall_cons; try done; unfold output_state; auto.
Qed.

Lemma Forall_cells (P : Z -> Prop) (pres : list Z) :
  Forall (fun pre => P pre /\ P (pre + TCK)) pres -> Forall P (cells pres).
Proof.
  induction 1 as [|pre pres [Hpre Hpost] _ IH]; cbn [cells cell app].
  - constructor.
  - by repeat constructor.
Qed.

Lemma output_state_TCK (pre : Z) : output_state pre -> Z.lor pre TCK = pre + TCK.
Proof. by intros [->|[->|[->| ->]]]. Qed.

Lemma output_state_direction (pre : Z) :
  output_state pre ->
  (Z.land pre direction = pre /\ Z.testbit pre 3 = false)
  /\ (Z.land (pre + TCK) direction = pre + TCK /\ Z.testbit (pre + TCK) 3 = false).
Proof. by intros [->|[->|[->| ->]]]. Qed.

(** [to_bytes] never runs out of fuel, and neither does the conversion of a
    payload. *)
Lemma payload_bytes_cases (nbits : nat) (data : Payload) :
  (exists bs, payload_bytes nbits data = Ok bs)
  \/ payload_bytes nbits data = Raise OverflowError.
Proof.
  destruct data as [v|bs]; cbn [payload_bytes]; [|by eauto].
  unfold to_bytes. destruct (v <? 0); [by right|].
  destruct (2 ^ (8 * Z.of_nat (ceil_div nbits 8)) <=? v); [by right|by eauto].
Qed.

Lemma decode_step_errors (retindex : nat) (ret : list Z)
    (acc : result (list Z)) (bit : nat) :
  index_error_only acc -> index_error_only (decode_step (Some retindex) ret acc bit).
Proof.
  intros Hacc. unfold decode_step.
  destruct acc as [bytes|e0|]; [|done|done].
  destruct (ret !! (retindex + 2 * bit)%nat); [|done].
  by case_bool_decide.
Qed.

Lemma decode_errors (nbits retindex : nat) (ret : list Z) :
  index_error_only (decode nbits (Some retindex) ret).
Proof.
  unfold decode.
  assert (forall l acc, index_error_only acc ->
            index_error_only (fold_left (decode_step (Some retindex) ret) l acc)) as Hfold.
  { induction l as [|bit l IH]; intros acc Hacc; [done|].
    cbn [fold_left]. apply IH. by apply decode_step_errors. }
  by apply Hfold.
Qed.

(** Little-endian conversion keeps every bit where it was. *)
Lemma to_bytes_bits (v : Z) (len : nat) :
  0 <= v < 2 ^ (8 * Z.of_nat len) ->
  exists bs,
    to_bytes v len = Ok bs
    /\ length bs = len
    /\ forall i, (i < 8 * len)%nat -> payload_bit bs i = Z.testbit v (Z.of_nat i).
Proof.
  intros [Hlo Hhi]. unfold to_bytes.
  destruct (Z.ltb_spec v 0); [lia|].
  destruct (Z.leb_spec (2 ^ (8 * Z.of_nat len)) v); [lia|].
  eexists. split; [reflexivity|]. split.
  - by rewrite length_map, length_seq.
  - intros i Hi. unfold payload_bit.
    pose proof (Nat.div_mod_eq i 8) as Hdm.
    pose proof (Nat.mod_upper_bound i 8 ltac:(lia)) as Hmod.
    revert Hdm Hmod. generalize (i mod 8)%nat (i / 8)%nat. intros q d Hdm Hmod.
    rewrite lookup_map, lookup_seq_lt by lia.
    cbn [fmap option_fmap option_map Nat.add].
    rewrite Z.land_spec, Z.shiftr_spec by lia.
    change 255 with (Z.ones 8). rewrite Z.ones_spec_low by lia.
    rewrite andb_true_r. f_equal. lia.
Qed.

Lemma to_bytes_overflow (v : Z) (len : nat) :
  ~ (0 <= v < 2 ^ (8 * Z.of_nat len)) -> to_bytes v len = Raise OverflowError.
Proof.
  intros Hv. unfold to_bytes.
  destruct (Z.ltb_spec v 0); [done|].
  destruct (Z.leb_spec (2 ^ (8 * Z.of_nat len)) v); [done|lia].
Qed.

Lemma le_8_ceil_div (n : nat) : (n <= 8 * ceil_div n 8)%nat.
Proof.
  unfold ceil_div.
  pose proof (Nat.div_mod_eq (n + (8 - 1)) 8).
  pose proof (Nat.mod_upper_bound (n + (8 - 1)) 8 ltac:(lia)). lia.
Qed.

Lemma dr_cell_tdi (nbits : nat) (data : list Z) (i : nat) :
  Z.testbit (dr_cell nbits data i) 2 = payload_bit data i.
Proof.
  unfold dr_cell. by destruct (payload_bit data i), (S i =? nbits)%nat.
Qed.

Lemma converts_payload_bytes (nbits : nat) (data : Payload) :
  converts nbits data ->
  exists bs,
    payload_bytes nbits data = Ok bs
    /\ forall i, (i < nbits)%nat -> payload_bit bs i = payload_value_bit data i.
Proof.
  destruct data as [v|bs]; cbn [converts payload_bytes payload_value_bit].
  - intros Hv. destruct (to_bytes_bits v (ceil_div nbits 8) Hv) as (bs & Hbs & _ & Hbits).
    exists bs. split; [done|]. intros i Hi. apply Hbits.
    pose proof (le_8_ceil_div nbits). lia.
  - intros _. by exists bs.
Qed.

Lemma not_converts_payload_bytes (nbits : nat) (data : Payload) :
  ~ converts nbits data -> payload_bytes nbits data = Raise OverflowError.
Proof.
  destruct data as [v|bs]; cbn [converts payload_bytes]; [|done].
  apply to_bytes_overflow.
Qed.

Section FrameClaims.
Context {D : Type} `{Transport D}.

(** C2 (frame size), as the code has it.  For an instruction with an
    [n]-bit data register, the bytes [jtag_command] hands to the transport
    are one leading idle byte (line state 0) followed by 14 + (4 + n)
    cells: 14 preamble and postamble clock cells, 4 instruction register
    cells and [n] data register cells.  Each cell is two bytes, the
    pre-edge byte and the same byte with TCK asserted, so the stream is
    1 + 2 * (14 + (4 + n)) bytes long. *)
Theorem jtag_command_frame_size (instruction : AVR_JTAG) (data : Payload)
    (bs : list Z) (w : World D) :
  payload_bytes (nbits_of instruction) data = Ok bs ->
  exists pres,
    wire (fst (jtag_command instruction data w)) = wire w ++ 0 :: cells pres
    /\ length pres = (14 + (4 + nbits_of instruction))%nat
    /\ Forall (fun pre => pre + TCK = Z.lor pre TCK) pres
    /\ length (0 :: cells pres) = (1 + 2 * (14 + (4 + nbits_of instruction)))%nat.
Proof.
  intros Hbs.
  destruct (jtag_command_run instruction data bs w Hbs)
    as (w1 & ret & _ & Hwire & _ & Hrun).
  exists (frame (irvalue_of instruction) (nbits_of instruction) bs).
  rewrite Hrun. cbn [fst log_event wire]. split; [done|]. split; [|split].
  - apply length_frame.
  - eapply Forall_impl; [|apply frame_lines].
    intros pre Hpre. symmetry. by apply output_state_TCK.
  - cbn [length]. by rewrite length_cells, length_frame.
Qed.

(** C10 (output lines).  Every byte [jtag_command] writes to the transport
    uses only the TMS (bit 4), TDI (bit 2) and TCK (bit 5) positions, and
    in particular never asserts the TDO position (bit 3), for every
    instruction and payload. *)
Theorem jtag_command_output_lines (instruction : AVR_JTAG) (data : Payload)
    (w : World D) :
  exists emitted,
    wire (fst (jtag_command instruction data w)) = wire w ++ emitted
    /\ Forall (fun b => Z.land b direction = b /\ Z.testbit b 3 = false) emitted.
Proof.
  destruct (payload_bytes_cases (nbits_of instruction) data) as [[bs Hbs]|Hraise].
  - destruct (jtag_command_run instruction data bs w Hbs)
      as (w1 & ret & _ & Hwire & _ & Hrun).
    exists (0 :: cells (frame (irvalue_of instruction) (nbits_of instruction) bs)).
    rewrite Hrun. cbn [fst log_event wire]. split; [done|].
    apply Forall_cons; [by split|].
    apply Forall_cells.
    eapply Forall_impl; [|apply frame_lines].
    intros pre Hpre. by apply output_state_direction.
  - exists []. rewrite (jtag_command_raise _ _ _ _ Hraise).
    cbn [fst log_event wire]. by rewrite app_nil_r.
Qed.

(** C8 (payload handling), as the code has it.  A byte sequence of any
    length and an integer that fits in ceil(n/8) bytes are shifted bit by
    bit: data register cell [i] (both of its bytes) carries on TDI bit [i]
    of the payload, least significant bit first within a byte and least
    significant byte first, with zero bits past the end of a short byte
    sequence; exactly [n] cells are shifted, so a longer payload is cut at
    [n] bits and the call fails only if the response is too short.  An
    integer that is negative or does not fit in ceil(n/8) bytes raises
    OverflowError and nothing is written. *)
Theorem jtag_command_payload (instruction : AVR_JTAG) (data : Payload)
    (w : World D) :
  exists emitted,
    wire (fst (jtag_command instruction data w)) = wire w ++ emitted
    /\ (converts (nbits_of instruction) data ->
          length emitted = (1 + 2 * (14 + (4 + nbits_of instruction)))%nat
          /\ (forall i, (i < nbits_of instruction)%nat ->
                exists pre,
                  emitted !! (31 + 2 * i)%nat = Some pre
                  /\ emitted !! (32 + 2 * i)%nat = Some (pre + TCK)
                  /\ Z.testbit pre 2 = payload_value_bit data i)
          /\ index_error_only (snd (jtag_command instruction data w)))
    /\ (~ converts (nbits_of instruction) data ->
          snd (jtag_command instruction data w) = Raise OverflowError
          /\ emitted = []).
Proof.
  destruct (payload_bytes_cases (nbits_of instruction) data) as [[bs Hbs]|Hraise].
  - destruct (jtag_command_run instruction data bs w Hbs)
      as (w1 & ret & _ & Hwire & _ & Hrun).
    exists (0 :: cells (frame (irvalue_of instruction) (nbits_of instruction) bs)).
    rewrite Hrun. cbn [fst snd log_event wire]. split; [done|]. split.
    + intros Hconv.
      destruct (converts_payload_bytes _ _ Hconv) as (bs' & Hbs' & Hbits).
      assert (bs' = bs) as -> by congruence.
      split; [|split].
      * cbn [length]. by rewrite length_cells, length_frame.
      * intros i Hi. exists (dr_cell (nbits_of instruction) bs i).
        replace (31 + 2 * i)%nat with (S (2 * (15 + i))) by lia.
        replace (32 + 2 * i)%nat with (S (2 * (15 + i) + 1)) by lia.
        cbn [lookup list_lookup].
        rewrite lookup_cells_pre, lookup_cells_post, lookup_frame_dr by done.
        split; [done|]. split; [done|].
        rewrite dr_cell_tdi. by apply Hbits.
      * apply decode_errors.
    + intros Hconv. apply not_converts_payload_bytes in Hconv. congruence.
  - exists []. rewrite (jtag_command_raise _ _ _ _ Hraise).
    cbn [fst snd log_event wire]. split; [by rewrite app_nil_r|]. split.
    + intros Hconv.
      destruct (converts_payload_bytes _ _ Hconv) as (bs' & Hbs' & _). congruence.
    + done.
Qed.

End FrameClaims.

Lemma jtag_command_frame_size_witness :
  exists pres,
    wire (fst (jtag_command BYPASS (PInt 1) (script_world []))) = [] ++ 0 :: cells pres
    /\ length pres = (14 + (4 + 1))%nat
    /\ Forall (fun pre => pre + TCK = Z.lor pre TCK) pres
    /\ length (0 :: cells pres) = (1 + 2 * (14 + (4 + 1)))%nat.
Proof.
  apply (jtag_command_frame_size BYPASS (PInt 1) [1] (script_world [])).
  reflexivity.
Defined.

(** C2 as the specification words it fails: the stream of a BYPASS
    transaction is 39 bytes long, which is not twice a number of cells. *)
Lemma frame_size_counterexample :
  length (wire (fst (jtag_command BYPASS (PInt 0) (script_world [])))) = 39%nat
  /\ ~ (exists cell_count : nat,
          length (wire (fst (jtag_command BYPASS (PInt 0) (script_world []))))
          = (2 * cell_count)%nat).
Proof.
  assert (length (wire (fst (jtag_command BYPASS (PInt 0) (script_world [])))) = 39%nat)
    as Hlen39 by (by vm_compute).
  split; [done|].
  intros [cell_count Hlen]. rewrite Hlen39 in Hlen. lia.
Qed.

(** C8 as the specification words it fails: an integer payload longer than
    the 15-bit register of PROG_COMMANDS that does not fit in two bytes is not
    cut to 15 bits; the call raises and nothing is shifted. *)
Lemma payload_counterexample :
  snd (jtag_command PROG_COMMANDS (PInt 0x10000) (script_world [])) = Raise OverflowError
  /\ wire (fst (jtag_command PROG_COMMANDS (PInt 0x10000) (script_world []))) = [].
Proof. by vm_compute. Qed.

(** ** Transports that keep their contract *)

Global Instance script_transport_ok : TransportOK (list Z).
Proof.
  split.
  - done.
  - intros script count. cbn [dev_read script_transport snd].
    rewrite length_take, length_app, length_replicate. lia.
Qed.

Section Contract.
Context {D : Type} `{TransportOK D}.

Lemma transfer_chunks_length (stream : list Z) (offsets : list nat) :
  forall (read_ chunks : list (list Z)) (w w' : World D),
    transfer_chunks stream offsets read_ w = (w', Ok chunks) ->
    length (concat chunks)
    = (length (concat read_)
       + length (concat (map (fun offset => slice stream offset (offset + CHUNK_SIZE))
                             offsets)))%nat.
Proof.
  induction offsets as [|offset offsets IH]; intros read_ chunks w w' Hrun.
  - cbn [transfer_chunks] in Hrun. unfold mret, M_ret in Hrun.
    assert (chunks = read_) as -> by congruence. cbn. lia.
  - cbn [transfer_chunks] in Hrun.
    pose proof (write_all (dev w) (slice stream offset (offset + CHUNK_SIZE))) as Hw.
    destruct (dev_write (dev w) (slice stream offset (offset + CHUNK_SIZE)))
      as [d1 written] eqn:Hwrite.
    pose proof (read_all d1 written) as Hr.
    destruct (dev_read d1 written) as [d2 chunk] eqn:Hread.
    cbn [snd] in Hw, Hr.
    erewrite bind_ok in Hrun; [|unfold write; by rewrite Hwrite].
    erewrite bind_ok in Hrun; [|unfold read; cbn [dev]; by rewrite Hread].
    apply IH in Hrun. rewrite Hrun.
    rewrite concat_app, length_app. cbn [map concat].
    rewrite app_nil_r, length_app. lia.
Qed.

Lemma exchange_length (stream ret : list Z) (w w' : World D) :
  exchange stream w = (w', Ok ret) -> length ret = length stream.
Proof.
  unfold exchange, transfer. intros Hrun.
  erewrite bind_ok in Hrun; [|unfold flush; reflexivity].
  destruct (transfer_chunks_spec stream (py_range 0 (length stream) CHUNK_SIZE) []
              (mkWorld (dev_flush (dev w)) (wire w) (log w)))
    as (w1 & chunks & Hchunks & _ & _).
  erewrite bind_ok in Hrun; [|exact Hchunks].
  apply transfer_chunks_length in Hchunks.
  rewrite py_range_chunks in Hchunks by (unfold CHUNK_SIZE; lia).
  unfold mret, M_ret in Hrun. cbn [app concat length Nat.add] in Hrun, Hchunks.
  assert (ret = concat chunks) as -> by congruence.
  done.
Qed.

(** On such a transport a call with a payload that converts returns. *)
Lemma jtag_command_succeeds (instruction : AVR_JTAG) (data : Payload) (w : World D) :
  converts (nbits_of instruction) data ->
  exists w' buf,
    jtag_command instruction data w = (w', Ok buf)
    /\ length buf = ceil_div (nbits_of instruction) 8
    /\ log w' = log w ++ [Call instruction data (Ok buf)].
Proof.
  intros Hconv.
  destruct (converts_payload_bytes _ _ Hconv) as (bs & Hbs & _).
  destruct (jtag_command_run instruction data bs w Hbs)
    as (w1 & ret & Hex & _ & Hlog & Hrun).
  apply exchange_length in Hex.
  destruct (decode_spec (nbits_of instruction) 33 ret) as (buf & Hdec & Hbuf & _).
  { intros i Hi. apply lookup_lt_is_Some_2. rewrite Hex.
    cbn [length]. rewrite length_cells, length_frame. lia. }
  eexists _, buf. rewrite Hrun, Hdec. split; [reflexivity|]. split; [done|].
  cbn [log_event log]. by rewrite Hlog.
Qed.

End Contract.

(** ** The log *)

Section Log.
Context {D : Type} `{Transport D}.

(** A call adds one entry to the log, whatever the device does. *)
Lemma jtag_command_log (instruction : AVR_JTAG) (data : Payload) (w : World D) :
  log (fst (jtag_command instruction data w))
  = log w ++ [Call instruction data (snd (jtag_command instruction data w))].
Proof.
  destruct (payload_bytes_cases (nbits_of instruction) data) as [[bs Hbs]|Hraise].
  - destruct (jtag_command_run instruction data bs w Hbs)
      as (w1 & ret & _ & _ & Hlog & Hrun).
    rewrite Hrun. cbn [fst snd log_event log]. by rewrite Hlog.
  - by rewrite (jtag_command_raise _ _ _ _ Hraise).
Qed.

Lemma events_since_app (w w' : World D) (events : list event) :
  log w' = log w ++ events -> events_since w w' = events.
Proof. intros Hlog. unfold events_since. rewrite Hlog. apply drop_app_length. Qed.

Lemma after_polls_succ (k : nat) (w : World D) :
  after_polls (S k) w
  = fst (jtag_command PROG_COMMANDS (PInt 0x3700) (after_polls k w)).
Proof. reflexivity. Qed.

Lemma log_after_polls (k : nat) (w : World D) :
  exists events,
    log (after_polls k w) = log w ++ events
    /\ invocations events = replicate k (PROG_COMMANDS, PInt 0x3700).
Proof.
  induction k as [|k (events & Hlog & Hinv)].
  - exists []. cbn. by rewrite app_nil_r.
  - rewrite after_polls_succ, jtag_command_log, Hlog.
    eexists. rewrite <- app_assoc. split; [reflexivity|].
    unfold invocations in *. rewrite omap_app, Hinv. cbn.
    change [(PROG_COMMANDS, PInt 14080)] with (replicate 1 (PROG_COMMANDS, PInt 14080)).
    rewrite <- replicate_add. by replace (k + 1)%nat with (S k) by lia.
Qed.

End Log.

Lemma land_2_testbit (b : Z) : negb (Z.land b 2 =? 0) = Z.testbit b 1.
Proof.
  assert (Z.land b 2 = if Z.testbit b 1 then 2 else 0) as ->.
  { apply Z.bits_inj'. intros i Hi. rewrite Z.land_spec.
    change 2 with (2 ^ 1) at 1. rewrite Z.pow2_bits_eqb by lia.
    destruct (Z.eqb_spec 1 i) as [<-|Hne].
    - rewrite andb_true_r. by destruct (Z.testbit b 1).
    - rewrite andb_false_r. destruct (Z.testbit b 1).
      + change 2 with (2 ^ 1). rewrite Z.pow2_bits_eqb by lia.
        symmetry. by apply Z.eqb_neq.
      + by rewrite Z.bits_0. }
  by destruct (Z.testbit b 1).
Qed.

Section Polling.
Context {D : Type} `{Transport D}.

Lemma after_polls_S (k : nat) (w : World D) :
  after_polls (S k) w
  = after_polls k (fst (jtag_command PROG_COMMANDS (PInt 0x3700) w)).
Proof. unfold after_polls. by rewrite Nat.iter_succ_r. Qed.

(** One turn of the loop, by the status the poll reads. *)
Lemma poll_step (fuel : nat) (w : World D) (status : bool) :
  poll_status w = Some status ->
  poll_fuse_write_complete (S fuel) w
  = if status
    then (fst (jtag_command PROG_COMMANDS (PInt 0x3700) w), Ok tt)
    else poll_fuse_write_complete fuel (fst (jtag_command PROG_COMMANDS (PInt 0x3700) w)).
Proof.
  unfold poll_status, status_bit. intros Hst.
  cbn [poll_fuse_write_complete].
  destruct (jtag_command PROG_COMMANDS (PInt 0x3700) w) as [w1 [returned|e|]] eqn:Hrun;
    cbn [snd fst] in *; [|done|done].
  destruct (returned !! 1%nat) as [b|] eqn:Hb; [|done].
  cbn [fmap option_fmap option_map] in Hst.
  erewrite bind_ok; [|exact Hrun].
  erewrite bind_ok; [|unfold index; rewrite Hb; reflexivity].
  rewrite land_2_testbit.
  assert (Z.testbit b 1 = status) as -> by congruence.
  by destruct status.
Qed.

(** C6 (fuse-write polling).  [poll_fuse_write_complete] issues
    PROG_COMMANDS(0x3700) again and again and looks at bit 1 of the byte
    at index 1 of what comes back.  If the device shows the bit clear on
    the first [n] polls and set on poll number [n + 1], the loop returns
    after exactly [n + 1] such transactions (given fuel for that many
    turns). *)
Theorem poll_fuse_write_complete_polls (n fuel : nat) (w : World D) :
  (forall k, (k < n)%nat -> poll_status (after_polls k w) = Some false) ->
  poll_status (after_polls n w) = Some true ->
  (n < fuel)%nat ->
  poll_fuse_write_complete fuel w = (after_polls (S n) w, Ok tt)
  /\ invocations (events_since w (after_polls (S n) w))
     = replicate (S n) (PROG_COMMANDS, PInt 0x3700).
Proof.
  intros Hclear Hset Hfuel. split.
  - revert fuel w Hclear Hset Hfuel.
    induction n as [|n IH]; intros fuel w Hclear Hset Hfuel.
    + destruct fuel as [|fuel]; [lia|].
      by rewrite (poll_step fuel w true Hset).
    + destruct fuel as [|fuel]; [lia|].
      rewrite (poll_step fuel w false (Hclear 0%nat ltac:(lia))).
      rewrite (after_polls_S (S n)). apply IH; [|by rewrite <- after_polls_S|lia].
      intros k Hk. rewrite <- after_polls_S. apply Hclear. lia.
  - destruct (log_after_polls (S n) w) as (events & Hlog & Hinv).
    by rewrite (events_since_app _ _ _ Hlog).
Qed.

End Polling.

Lemma poll_fuse_write_complete_polls_witness :
  poll_fuse_write_complete 5
    (script_world (replicate 134 0 ++ replicate 51 0 ++ [8] ++ replicate 15 0))
  = (after_polls 3
       (script_world (replicate 134 0 ++ replicate 51 0 ++ [8] ++ replicate 15 0)),
     Ok tt)
  /\ invocations
       (events_since
          (script_world (replicate 134 0 ++ replicate 51 0 ++ [8] ++ replicate 15 0))
          (after_polls 3
             (script_world (replicate 134 0 ++ replicate 51 0 ++ [8] ++ replicate 15 0))))
     = replicate 3 (PROG_COMMANDS, PInt 0x3700).
Proof.
  apply (poll_fuse_write_complete_polls 2 5
           (script_world (replicate 134 0 ++ replicate 51 0 ++ [8] ++ replicate 15 0))).
  - intros k Hk. destruct k as [|[|k]]; [by vm_compute|by vm_compute|lia].
  - by vm_compute.
  - lia.
Defined.

(** ** Argument errors of the fuse programmer *)

Lemma bind_argument_safe {D A B} (m : M D A) (f : A -> M D B) :
  argument_safe m -> (forall a, argument_safe (f a)) -> argument_safe (m ≫= f).
Proof.
  intros Hm Hf w. specialize (Hm w). unfold mbind, M_bind.
  destruct (m w) as [w' [a|e|]]; cbn [snd] in *; [apply Hf|done|done].
Qed.

Lemma ret_argument_safe {D A} (a : A) : argument_safe (mret a : M D A).
Proof. by intros w. Qed.

Lemma index_argument_safe {D} (l : list Z) (i : nat) : argument_safe (@index D l i).
Proof. intros w. unfold index. by destruct (l !! i). Qed.

Lemma low_byte_range (v : Z) : 0 <= Z.land v 0xff < 256.
Proof.
  change 255 with (Z.ones 8). rewrite Z.land_ones by lia.
  apply Z.mod_pos_bound. lia.
Qed.

(** A command word with a data byte in its low half fits in two bytes. *)
Lemma command_word_range (opcode e : Z) :
  0 <= opcode < 2 ^ 16 -> 0 <= e < 256 -> 0 <= Z.lor opcode e < 2 ^ 16.
Proof.
  intros Hop He.
  assert (0 <= Z.lor opcode e) as Hnonneg by (apply Z.lor_nonneg; lia).
  split; [done|].
  destruct (Z.eq_dec (Z.lor opcode e) 0) as [->|Hne]; [lia|].
  apply Z.log2_lt_pow2; [lia|].
  rewrite Z.log2_lor by lia.
  assert (Z.log2 opcode < 16).
  { destruct (Z.eq_dec opcode 0) as [->|?]; [done|]. apply Z.log2_lt_pow2; lia. }
  assert (Z.log2 e < 16).
  { destruct (Z.eq_dec e 0) as [->|?]; [done|]. apply Z.log2_lt_pow2; lia. }
  lia.
Qed.

Section FuseArguments.
Context {D : Type} `{Transport D}.

Lemma jtag_command_argument_safe (instruction : AVR_JTAG) (data : Payload) :
  converts (nbits_of instruction) data ->
  argument_safe (jtag_command (D:=D) instruction data).
Proof.
  intros Hconv w.
  destruct (converts_payload_bytes _ _ Hconv) as (bs & Hbs & _).
  destruct (jtag_command_run instruction data bs w Hbs) as (w1 & ret & _ & _ & _ & Hrun).
  rewrite Hrun. cbn [snd].
  pose proof (decode_errors (nbits_of instruction) 33 ret) as Hdec.
  destruct (decode (nbits_of instruction) (Some 33%nat) ret) as [buf|e|]; [done| |done].
  cbn in Hdec. by subst e.
Qed.

Lemma poll_argument_safe (fuel : nat) :
  argument_safe (poll_fuse_write_complete (D:=D) fuel).
Proof.
  induction fuel as [|fuel IH]; [by intros w|].
  cbn [poll_fuse_write_complete].
  apply bind_argument_safe; [by apply jtag_command_argument_safe; vm_compute|].
  intros returned. apply bind_argument_safe; [apply index_argument_safe|].
  intros status. destruct (negb (Z.land status 2 =? 0)); [apply ret_argument_safe|done].
Qed.

Lemma command_argument_safe (opcode : Z) :
  0 <= opcode < 2 ^ 16 ->
  argument_safe (jtag_command (D:=D) PROG_COMMANDS (PInt opcode)).
Proof. intros Hop. by apply jtag_command_argument_safe. Qed.

Lemma load_data_argument_safe (e : Z) :
  0 <= e < 256 ->
  argument_safe (jtag_command (D:=D) PROG_COMMANDS (PInt (Z.lor 0x1300 e))).
Proof. intros He. apply command_argument_safe. apply command_word_range; lia. Qed.

End FuseArguments.

Lemma land_mod_low (v : Z) : Z.land (v mod 256) 0xff = Z.land v 0xff.
Proof.
  apply Z.bits_inj'. intros i Hi. rewrite !Z.land_spec.
  change 255 with (Z.ones 8).
  destruct (Z.lt_ge_cases i 8) as [Hlt|Hge].
  - change 256 with (2 ^ 8). by rewrite Z.mod_pow2_bits_low by lia.
  - by rewrite Z.ones_spec_high, !andb_false_r by lia.
Qed.

Lemma land_mod_fuses_low (v : Z) : Z.land (v mod 65536) 0xff = Z.land v 0xff.
Proof.
  apply Z.bits_inj'. intros i Hi. rewrite !Z.land_spec.
  change 255 with (Z.ones 8).
  destruct (Z.lt_ge_cases i 8) as [Hlt|Hge].
  - change 65536 with (2 ^ 16). by rewrite Z.mod_pow2_bits_low by lia.
  - by rewrite Z.ones_spec_high, !andb_false_r by lia.
Qed.

Lemma land_mod_fuses_high (v : Z) :
  Z.land (Z.shiftr (v mod 65536) 8) 0xff = Z.land (Z.shiftr v 8) 0xff.
Proof.
  apply Z.bits_inj'. intros i Hi. rewrite !Z.land_spec, !Z.shiftr_spec by lia.
  change 255 with (Z.ones 8).
  destruct (Z.lt_ge_cases i 8) as [Hlt|Hge].
  - change 65536 with (2 ^ 16). by rewrite Z.mod_pow2_bits_low by lia.
  - by rewrite Z.ones_spec_high, !andb_false_r by lia.
Qed.

Lemma ret_bind_argument_safe {D A B} (a : A) (f : A -> M D B) :
  argument_safe (f a) -> argument_safe (mret a ≫= f).
Proof. intros Hf w. apply Hf. Qed.

Section FuseClaims.
Context {D : Type} `{Transport D}.

(** C7 (fuse argument validation), as the code has it.  [program_fuses]
    fails with a type error before any device interaction when [fuses] is
    not an integer.  When both arguments are integers, of any sign and
    size, no type or range error is raised: the run is the one for [fuses]
    reduced to its low 16 bits and [extended_fuses] reduced to its low 8
    bits. *)
Theorem program_fuses_validation (fuel : nat) (fuses extended_fuses : PyObj)
    (w : World D) :
  (isinstance_int fuses = false ->
     program_fuses fuel fuses extended_fuses w = (w, Raise TypeError))
  /\ (forall f e,
        int_value fuses = Some f -> int_value extended_fuses = Some e ->
        no_argument_error (snd (program_fuses fuel fuses extended_fuses w))
        /\ program_fuses fuel fuses extended_fuses w
           = program_fuses fuel (PyInt (f mod 65536)) (PyInt (e mod 256)) w).
Proof.
  split.
  - intros Hint. unfold program_fuses. by rewrite Hint.
  - intros f e Hf He.
    assert (isinstance_int fuses = true) as Hint by (by destruct fuses).
    split.
    + unfold program_fuses, low_byte, high_byte. rewrite Hint, Hf, He.
      change (negb true) with false. cbv iota.
      pose proof (low_byte_range e). pose proof (low_byte_range f).
      pose proof (low_byte_range (Z.shiftr f 8)).
      repeat first
        [ lazymatch goal with
          | |- argument_safe (mret _ ≫= _) => apply ret_bind_argument_safe
          end
        | exact (poll_argument_safe fuel)
        | apply ret_argument_safe
        | apply bind_argument_safe; [|intros ?]
        | apply load_data_argument_safe; lia
        | apply command_argument_safe; lia
        | apply jtag_command_argument_safe; by vm_compute ].
    + unfold program_fuses, low_byte, high_byte. rewrite Hint, Hf, He.
      change (isinstance_int (PyInt (f mod 65536))) with true.
      change (int_value (PyInt (f mod 65536))) with (Some (f mod 65536)).
      change (int_value (PyInt (e mod 256))) with (Some (e mod 256)).
      cbv iota beta.
      by rewrite land_mod_low, land_mod_fuses_low, land_mod_fuses_high.
Qed.

End FuseClaims.

(** C7 as the specification words it fails: fuses = 0x1ffff does not fit in
    16 bits and extended_fuses = 0x1ff does not fit in 8 bits, yet the run
    talks to the device and completes without an error. *)
Lemma fuse_validation_counterexample :
  snd (program_fuses 1 (PyInt 0x1ffff) (PyInt 0x1ff)
         (script_world (replicate 1600 8))) = Ok tt
  /\ length (invocations (log (fst (program_fuses 1 (PyInt 0x1ffff) (PyInt 0x1ff)
                                      (script_world (replicate 1600 8)))))) = 21%nat.
Proof. by vm_compute. Qed.

(** ** Reasoning about runs *)

Lemma invocations_app (ev1 ev2 : list event) :
  invocations (ev1 ++ ev2) = invocations ev1 ++ invocations ev2.
Proof. unfold invocations. apply omap_app. Qed.

Lemma Spec_weaken {D A} (m : M D A) (Q Q' : list event -> result A -> Prop) :
  Spec m Q -> (forall events r, Q events r -> Q' events r) -> Spec m Q'.
Proof.
  intros Hm HQ w. destruct (Hm w) as (events & Hlog & Hq).
  exists events. split; [done|]. by apply HQ.
Qed.

Lemma Issues_then {D A B} (m : M D A) (f : A -> M D B)
    (calls : list (AVR_JTAG * Payload)) (Q : list event -> result B -> Prop) :
  Issues m calls -> (forall a, Spec (f a) Q) ->
  Spec (m ≫= f)
       (fun events r => exists ev1 ev2,
            events = ev1 ++ ev2 /\ invocations ev1 = calls /\ Q ev2 r).
Proof.
  intros Hm Hf w. destruct (Hm w) as (ev1 & Hlog1 & (a & Hr) & Hinv).
  destruct (m w) as [w1 r1] eqn:Hmw. cbn [fst snd] in *. subst r1.
  rewrite (bind_ok _ _ _ _ _ Hmw).
  destruct (Hf a w1) as (ev2 & Hlog2 & HQ).
  exists (ev1 ++ ev2). rewrite Hlog2, Hlog1, <- app_assoc. split; [done|].
  by exists ev1, ev2.
Qed.

Lemma Issues_bind {D A B} (m : M D A) (f : A -> M D B)
    (calls1 calls2 : list (AVR_JTAG * Payload)) :
  Issues m calls1 -> (forall a, Issues (f a) calls2) ->
  Issues (m ≫= f) (calls1 ++ calls2).
Proof.
  intros Hm Hf. eapply Spec_weaken; [by apply Issues_then|].
  intros events r (ev1 & ev2 & -> & Hinv1 & Hok & Hinv2).
  split; [done|]. by rewrite invocations_app, Hinv1, Hinv2.
Qed.

Lemma Issues_ret {D A} (a : A) : Issues (mret a : M D A) [].
Proof. intros w. exists []. cbn. rewrite app_nil_r. by eauto. Qed.

Lemma Issues_for_each {D A} (body : A -> M D unit)
    (calls : A -> list (AVR_JTAG * Payload)) (l : list A) :
  (forall x, Issues (body x) (calls x)) ->
  Issues (for_each l body) (concat (map calls l)).
Proof.
  intros Hbody. induction l as [|x l IH]; cbn [for_each map concat].
  - apply Issues_ret.
  - apply Issues_bind; [apply Hbody|]. by intros _.
Qed.

Lemma Avoids_bind {D A B} (instruction : AVR_JTAG) (m : M D A) (f : A -> M D B) :
  Avoids instruction m -> (forall a, Avoids instruction (f a)) ->
  Avoids instruction (m ≫= f).
Proof.
  intros Hm Hf w. destruct (Hm w) as (ev1 & Hlog1 & Hno1).
  unfold mbind, M_bind. destruct (m w) as [w1 [a|e|]]; cbn [fst snd] in *.
  - destruct (Hf a w1) as (ev2 & Hlog2 & Hno2).
    exists (ev1 ++ ev2). rewrite Hlog2, Hlog1, <- app_assoc. split; [done|].
    rewrite invocations_app. by apply Forall_app.
  - by exists ev1.
  - by exists ev1.
Qed.

Lemma Avoids_ret {D A} (instruction : AVR_JTAG) (a : A) :
  Avoids instruction (mret a : M D A).
Proof. intros w. exists []. cbn. rewrite app_nil_r. split; [done|constructor]. Qed.

Lemma Avoids_raise {D A} (instruction : AVR_JTAG) (e : error) :
  Avoids instruction (raise e : M D A).
Proof. intros w. exists []. cbn. rewrite app_nil_r. split; [done|constructor]. Qed.

Lemma Avoids_for_each {D A} (instruction : AVR_JTAG) (body : A -> M D unit) (l : list A) :
  (forall x, Avoids instruction (body x)) -> Avoids instruction (for_each l body).
Proof.
  intros Hbody. induction l as [|x l IH]; cbn [for_each].
  - apply Avoids_ret.
  - apply Avoids_bind; [apply Hbody|]. by intros _.
Qed.

Section Runs.
Context {D : Type} `{Transport D}.

Lemma Issues_sleep : Issues (sleep (D:=D)) [].
Proof. intros w. exists [Sleep]. cbn. by eauto. Qed.

Lemma Avoids_jtag_command (instruction other : AVR_JTAG) (data : Payload) :
  other <> instruction -> Avoids instruction (jtag_command (D:=D) other data).
Proof.
  intros Hne w. eexists. split; [apply jtag_command_log|].
  cbn. by repeat constructor.
Qed.

Context `{!TransportOK D}.

Lemma Spec_jtag_command (instruction : AVR_JTAG) (data : Payload) :
  converts (nbits_of instruction) data ->
  Spec (jtag_command (D:=D) instruction data)
       (fun events r => exists buf,
            r = Ok buf /\ events = [Call instruction data (Ok buf)]
            /\ length buf = ceil_div (nbits_of instruction) 8).
Proof.
  intros Hconv w.
  destruct (jtag_command_succeeds instruction data w Hconv) as (w' & buf & Hrun & Hlen & Hlog).
  rewrite Hrun. cbn [fst snd]. eexists. split; [exact Hlog|]. by exists buf.
Qed.

Lemma Issues_jtag_command (instruction : AVR_JTAG) (data : Payload) :
  converts (nbits_of instruction) data ->
  Issues (jtag_command (D:=D) instruction data) [(instruction, data)].
Proof.
  intros Hconv. eapply Spec_weaken; [by apply Spec_jtag_command|].
  intros events r (buf & -> & -> & _). split; [by eauto|done].
Qed.

End Runs.

(** ** The page offsets *)

Lemma ceil_div_step (n step : nat) :
  (0 < step)%nat -> (0 < n)%nat -> ceil_div n step = S (ceil_div (n - step) step).
Proof.
  intros Hstep Hn. unfold ceil_div.
  destruct (Nat.le_gt_cases step n) as [Hle|Hgt].
  - replace (n + (step - 1))%nat with ((n - step + (step - 1)) + 1 * step)%nat by lia.
    rewrite Nat.div_add by lia. lia.
  - replace (n - step)%nat with 0%nat by lia.
    rewrite (Nat.div_small (0 + (step - 1))) by lia.
    symmetry. apply (Nat.div_unique _ _ _ (n - 1)); lia.
Qed.

Lemma range_from_seq (step : nat) :
  (0 < step)%nat ->
  forall fuel start stop,
    (stop - start <= fuel)%nat ->
    range_from fuel start stop step
    = map (fun k => start + k * step)%nat (seq 0 (ceil_div (stop - start) step)).
Proof.
  intros Hstep. induction fuel as [|fuel IH]; intros start stop Hfuel.
  - replace (stop - start)%nat with 0%nat by lia.
    unfold ceil_div. by rewrite Nat.div_small by lia.
  - cbn [range_from]. destruct (Nat.ltb_spec start stop) as [Hlt|Hge].
    + rewrite (ceil_div_step (stop - start)) by lia.
      cbn [seq map]. f_equal; [lia|].
      rewrite IH by lia. rewrite <- seq_shift, map_map.
      replace (stop - (start + step))%nat with (stop - start - step)%nat by lia.
      apply map_ext. intros k. lia.
    + replace (stop - start)%nat with 0%nat by lia.
      unfold ceil_div. by rewrite Nat.div_small by lia.
Qed.

(** The loop over the pages runs over the offsets 0, 128, 256, ... of the
    ceil(L/128) pages. *)
Lemma py_range_pages (len : nat) :
  py_range 0 len PAGE_BYTES = map (fun k => k * PAGE_BYTES)%nat (seq 0 (ceil_div len PAGE_BYTES)).
Proof.
  unfold py_range. rewrite range_from_seq by (unfold PAGE_BYTES; lia).
  by rewrite Nat.sub_0_r.
Qed.

(** ** Writing the pages *)

(** Zero bytes after the end of a payload change nothing on the wire. *)
Lemma payload_bit_pad (data : list Z) (pad i : nat) :
  payload_bit (data ++ replicate pad 0) i = payload_bit data i.
Proof.
  unfold payload_bit.
  destruct (Nat.lt_ge_cases (i / 8) (length data)) as [Hlt|Hge].
  - by rewrite lookup_app_l by done.
  - rewrite lookup_app_r by done. rewrite (lookup_ge_None_2 data) by done.
    destruct (replicate pad 0 !! (i / 8 - length data)%nat) as [d|] eqn:Hd; [|done].
    apply lookup_replicate in Hd as [-> _]. apply Z.bits_0.
Qed.

Lemma frame_pad (irvalue : Z) (nbits : nat) (data : list Z) (pad : nat) :
  frame irvalue nbits (data ++ replicate pad 0) = frame irvalue nbits data.
Proof.
  unfold frame, dr_cells. do 2 f_equal.
  apply map_ext. intros i. unfold dr_cell. by rewrite payload_bit_pad.
Qed.

Lemma length_page (program : list Z) (k : nat) :
  (length (page program k) <= PAGE_BYTES)%nat.
Proof. unfold page, slice. rewrite length_take. lia. Qed.

Lemma Issues_for_each_map {D A B} (g : A -> B) (body : B -> M D unit)
    (calls : A -> list (AVR_JTAG * Payload)) (l : list A) :
  (forall x, Issues (body (g x)) (calls x)) ->
  Issues (for_each (map g l) body) (concat (map calls l)).
Proof.
  intros Hbody. induction l as [|x l IH]; cbn [for_each map concat].
  - apply Issues_ret.
  - apply Issues_bind; [apply Hbody|]. by intros _.
Qed.

Section WritePages.
Context {D : Type} `{TransportOK D}.

Lemma Issues_command (opcode : Z) :
  0 <= opcode < 2 ^ 16 ->
  Issues (jtag_command (D:=D) PROG_COMMANDS (PInt opcode)) [(PROG_COMMANDS, PInt opcode)].
Proof. intros Hop. by apply Issues_jtag_command. Qed.

Lemma Issues_flash_write_page (program : list Z) (k : nat) :
  Issues (flash_write_page (D:=D) program (k * PAGE_BYTES)) (write_page_calls program k).
Proof.
  unfold flash_write_page, write_page_calls, load_address, page.
  rewrite Z.shiftr_div_pow2 by lia. change (2 ^ 1) with 2.
  pose proof (low_byte_range (Z.shiftr (Z.of_nat (k * PAGE_BYTES) / 2) 8)).
  pose proof (low_byte_range (Z.of_nat (k * PAGE_BYTES) / 2)).
  apply (Issues_bind _ _ [_] _); [apply Issues_command, command_word_range; lia|intros _].
  apply (Issues_bind _ _ [_] _); [apply Issues_command, command_word_range; lia|intros _].
  apply (Issues_bind _ _ [_] _); [by apply Issues_jtag_command|intros _].
  apply (Issues_bind _ _ [_] _); [apply Issues_command; lia|intros _].
  apply (Issues_bind _ _ [_] _); [apply Issues_command; lia|intros _].
  apply (Issues_bind _ _ [_] _); [apply Issues_command; lia|intros _].
  apply (Issues_bind _ _ [_] []); [apply Issues_command; lia|intros _].
  apply Issues_sleep.
Qed.

Lemma Issues_write_loop (program : list Z) :
  Issues (for_each (py_range 0 (length program) PAGE_BYTES) (flash_write_page (D:=D) program))
         (concat (map (write_page_calls program) (seq 0 (ceil_div (length program) PAGE_BYTES)))).
Proof.
  rewrite py_range_pages. apply Issues_for_each_map.
  intros k. apply Issues_flash_write_page.
Qed.

End WritePages.

Lemma Issues_prefix {D A B} (m : M D A) (f : A -> M D B)
    (calls1 calls2 : list (AVR_JTAG * Payload)) (Q : list event -> result B -> Prop) :
  Issues m calls1 -> (forall a, Spec (f a) (After calls2 Q)) ->
  Spec (m ≫= f) (After (calls1 ++ calls2) Q).
Proof.
  intros Hm Hf. eapply Spec_weaken; [by apply Issues_then|].
  intros events r (ev1 & ev' & -> & Hinv1 & ev2 & ev3 & -> & Hinv2 & HQ).
  exists (ev1 ++ ev2), ev3. rewrite <- app_assoc. split; [done|]. split; [|done].
  by rewrite invocations_app, Hinv1, Hinv2.
Qed.

Lemma Spec_After_nil {D A} (m : M D A) (Q : list event -> result A -> Prop) :
  Spec m Q -> Spec m (After [] Q).
Proof.
  intros Hm. eapply Spec_weaken; [exact Hm|].
  intros events r HQ. by exists [], events.
Qed.

Section Erase.
Context {D : Type} `{TransportOK D}.

(** Everything up to and including the write loop returns and issues the
    erase calls and then the calls of each page; [rest] is what the
    program goes on with. *)
Lemma Spec_program_prefix (program : list Z) (rest : M D unit)
    (Q : list event -> result unit -> Prop) :
  Spec rest Q ->
  Spec (jtag_command AVR_RESET (PInt 1);;
        jtag_command PROG_ENABLE (PInt 0xA370);;
        jtag_command PROG_COMMANDS (PInt 0x2380);;
        jtag_command PROG_COMMANDS (PInt 0x3180);;
        jtag_command PROG_COMMANDS (PInt 0x3380);;
        jtag_command PROG_COMMANDS (PInt 0x3380);;
        sleep;;
        jtag_command PROG_COMMANDS (PInt 0x2310);;
        for_each (py_range 0 (length program) PAGE_BYTES) (flash_write_page program);;
        rest)
       (After (erase_calls
               ++ concat (map (write_page_calls program)
                              (seq 0 (ceil_div (length program) PAGE_BYTES))))
              Q).
Proof.
  intros Hrest.
  apply (Issues_prefix _ _ [_]); [by apply Issues_jtag_command|intros _].
  apply (Issues_prefix _ _ [_]); [by apply Issues_jtag_command|intros _].
  apply (Issues_prefix _ _ [_]); [by apply Issues_jtag_command|intros _].
  apply (Issues_prefix _ _ [_]); [by apply Issues_jtag_command|intros _].
  apply (Issues_prefix _ _ [_]); [by apply Issues_jtag_command|intros _].
  apply (Issues_prefix _ _ [_]); [by apply Issues_jtag_command|intros _].
  apply (Issues_prefix _ _ []); [apply Issues_sleep|intros _].
  apply (Issues_prefix _ _ [_]); [by apply Issues_jtag_command|intros _].
  rewrite <- (app_nil_r (concat _)).
  apply Issues_prefix; [apply Issues_write_loop|intros _].
  by apply Spec_After_nil.
Qed.

End Erase.

Lemma Avoids_program_rest {D} `{Transport D} (program : list Z) (verify : bool) :
  Avoids (D:=D) PROG_PAGELOAD
    ((if verify
      then
        jtag_command PROG_COMMANDS (PInt 0x2302);;
        for_each (py_range 0 (length program) PAGE_BYTES) (flash_verify_page program)
      else mret tt);;
     jtag_command PROG_COMMANDS (PInt 0x2300);;
     jtag_command PROG_COMMANDS (PInt 0x3300);;
     jtag_command PROG_ENABLE (PInt 0);;
     jtag_command AVR_RESET (PInt 0);;
     mret tt).
Proof.
  apply Avoids_bind.
  - destruct verify; [|apply Avoids_ret].
    apply Avoids_bind; [by apply Avoids_jtag_command|intros _].
    apply Avoids_for_each. intros offset. unfold flash_verify_page.
    apply Avoids_bind; [by apply Avoids_jtag_command|intros _].
    apply Avoids_bind; [by apply Avoids_jtag_command|intros _].
    apply Avoids_bind; [by apply Avoids_jtag_command|intros returned].
    case_bool_decide; [apply Avoids_ret|apply Avoids_raise].
  - intros _.
    repeat (apply Avoids_bind; [by apply Avoids_jtag_command|intros _]).
    apply Avoids_ret.
Qed.

(** ** What reaches the wire *)

Lemma Wired_bind {D A B} (m : M D A) (f : A -> M D B) :
  Wired m -> (forall a, Wired (f a)) -> Wired (m ≫= f).
Proof.
  intros Hm Hf w. destruct (Hm w) as (ev1 & Hlog1 & Hwire1).
  unfold mbind, M_bind. destruct (m w) as [w1 [a|e|]]; cbn [fst snd] in *.
  - destruct (Hf a w1) as (ev2 & Hlog2 & Hwire2).
    exists (ev1 ++ ev2). rewrite Hlog2, Hlog1, Hwire2, Hwire1.
    rewrite invocations_app, map_app, concat_app. by rewrite <- !app_assoc.
  - by exists ev1.
  - by exists ev1.
Qed.

Lemma Wired_ret {D A} (a : A) : Wired (mret a : M D A).
Proof. intros w. exists []. cbn. by rewrite !app_nil_r. Qed.

Lemma Wired_raise {D A} (e : error) : Wired (raise e : M D A).
Proof. intros w. exists []. cbn. by rewrite !app_nil_r. Qed.

Lemma Wired_for_each {D A} (body : A -> M D unit) (l : list A) :
  (forall x, Wired (body x)) -> Wired (for_each l body).
Proof.
  intros Hbody. induction l as [|x l IH]; cbn [for_each].
  - apply Wired_ret.
  - apply Wired_bind; [apply Hbody|]. by intros _.
Qed.

Section Wire.
Context {D : Type} `{Transport D}.

Lemma Wired_sleep : Wired (sleep (D:=D)).
Proof. intros w. exists [Sleep]. cbn. by rewrite app_nil_r. Qed.

(** A call writes its stream and nothing else, whatever the device
    answers. *)
Lemma Wired_jtag_command (instruction : AVR_JTAG) (data : Payload) :
  Wired (jtag_command (D:=D) instruction data).
Proof.
  intros w. eexists. split; [apply jtag_command_log|].
  change (invocations [Call instruction data (snd (jtag_command instruction data w))])
    with [(instruction, data)].
  cbn [map concat]. rewrite app_nil_r.
  unfold call_stream. cbn [fst snd].
  destruct (payload_bytes_cases (nbits_of instruction) data) as [[bs Hbs]|Hraise].
  - destruct (jtag_command_run instruction data bs w Hbs)
      as (w1 & ret & _ & Hwire & _ & Hrun).
    rewrite Hrun, Hbs. cbn [fst log_event wire].
    by rewrite encode_spec by apply nbits_of_pos.
  - rewrite (jtag_command_raise _ _ _ _ Hraise), Hraise.
    cbn [fst log_event wire]. by rewrite app_nil_r.
Qed.

Lemma Wired_program_elf (program : list Z) (verify : bool) :
  Wired (program_elf (D:=D) program verify).
Proof.
  unfold program_elf.
  do 6 (apply Wired_bind; [apply Wired_jtag_command|intros _]).
  apply Wired_bind; [apply Wired_sleep|intros _].
  apply Wired_bind; [apply Wired_jtag_command|intros _].
  apply Wired_bind.
  { apply Wired_for_each. intros offset. unfold flash_write_page.
    do 7 (apply Wired_bind; [apply Wired_jtag_command|intros _]).
    apply Wired_sleep. }
  intros _. apply Wired_bind.
  { destruct verify; [|apply Wired_ret].
    apply Wired_bind; [apply Wired_jtag_command|intros _].
    apply Wired_for_each. intros offset. unfold flash_verify_page.
    do 2 (apply Wired_bind; [apply Wired_jtag_command|intros _]).
    apply Wired_bind; [apply Wired_jtag_command|intros returned].
    case_bool_decide; [apply Wired_ret|apply Wired_raise]. }
  intros _.
  do 4 (apply Wired_bind; [apply Wired_jtag_command|intros _]).
  apply Wired_ret.
Qed.

End Wire.

(** The stream of a page load: 1024 data cells, and cell [i] carries on TDI
    bit [i] of the page filled up with zero bytes. *)
Lemma page_stream_bits (pg : list Z) (pad : nat) :
  call_stream (PROG_PAGELOAD, PBytes pg)
  = fst (encode (irvalue_of PROG_PAGELOAD) (nbits_of PROG_PAGELOAD) (pg ++ replicate pad 0))
  /\ length (call_stream (PROG_PAGELOAD, PBytes pg)) = (37 + 2 * 1024)%nat
  /\ forall i, (i < 1024)%nat ->
       exists pre,
         call_stream (PROG_PAGELOAD, PBytes pg) !! (31 + 2 * i)%nat = Some pre
         /\ call_stream (PROG_PAGELOAD, PBytes pg) !! (32 + 2 * i)%nat = Some (pre + TCK)
         /\ Z.testbit pre 2 = payload_bit (pg ++ replicate pad 0) i.
Proof.
  unfold call_stream. cbn [fst snd payload_bytes].
  rewrite !encode_spec by apply nbits_of_pos. cbn [fst].
  rewrite frame_pad.
  assert (nbits_of PROG_PAGELOAD = 1024%nat) as Hn by reflexivity.
  split; [done|]. split.
  - cbn [length]. rewrite length_cells, length_frame, Hn. lia.
  - intros i Hi. exists (dr_cell (nbits_of PROG_PAGELOAD) pg i).
    replace (31 + 2 * i)%nat with (S (2 * (15 + i))) by lia.
    replace (32 + 2 * i)%nat with (S (2 * (15 + i) + 1)) by lia.
    cbn [lookup list_lookup].
    rewrite lookup_cells_pre, lookup_cells_post, lookup_frame_dr by (rewrite Hn; lia).
    split; [done|]. split; [done|].
    by rewrite dr_cell_tdi, payload_bit_pad.
Qed.

Lemma payload_bit_padding (pg : list Z) (pad i : nat) :
  (8 * length pg <= i)%nat -> payload_bit (pg ++ replicate pad 0) i = false.
Proof.
  intros Hi. rewrite payload_bit_pad. unfold payload_bit.
  rewrite lookup_ge_None_2; [done|].
  pose proof (Nat.div_mod_eq i 8). pose proof (Nat.mod_upper_bound i 8 ltac:(lia)).
  lia.
Qed.

Section PageClaims.
Context {D : Type} `{TransportOK D}.

(** C3 (page iteration).  For an image of [L] bytes, the calls of
    [program_elf] are the erase calls, then for each of the ceil(L/128)
    pages, in ascending order of offset: the high and then the low byte of
    the word address (byte offset / 2) through PROG_COMMANDS, the page
    through PROG_PAGELOAD, the write pulse; PROG_PAGELOAD is issued nowhere
    else.  The bytes written to the transport are the streams of these
    calls, one after the other in the order of the calls.  The stream of a
    page load has 1024 data cells: cell [i] carries on TDI bit [i] of the
    page filled up with zero bytes to 128 bytes, so every bit past the end
    of a short final page is shifted as zero. *)
Theorem program_elf_pages (program : list Z) (verify : bool) (w : World D) :
  (exists rest,
     invocations (events_since w (fst (program_elf program verify w)))
     = erase_calls
       ++ concat (map (write_page_calls program)
                      (seq 0 (ceil_div (length program) 128)))
       ++ rest
     /\ Forall (fun c => fst c <> PROG_PAGELOAD) rest
     /\ wire (fst (program_elf program verify w))
        = wire w
          ++ concat (map call_stream
                         (erase_calls
                          ++ concat (map (write_page_calls program)
                                         (seq 0 (ceil_div (length program) 128)))
                          ++ rest)))
  /\ (forall k,
        (k < ceil_div (length program) 128)%nat ->
        length (page program k ++ replicate (128 - length (page program k)) 0) = 128%nat
        /\ call_stream (PROG_PAGELOAD, PBytes (page program k))
           = fst (encode (irvalue_of PROG_PAGELOAD) (nbits_of PROG_PAGELOAD)
                    (page program k ++ replicate (128 - length (page program k)) 0))
        /\ length (call_stream (PROG_PAGELOAD, PBytes (page program k)))
           = (37 + 2 * 1024)%nat
        /\ (forall i, (i < 1024)%nat ->
              exists pre,
                call_stream (PROG_PAGELOAD, PBytes (page program k)) !! (31 + 2 * i)%nat
                = Some pre
                /\ call_stream (PROG_PAGELOAD, PBytes (page program k)) !! (32 + 2 * i)%nat
                   = Some (pre + TCK)
                /\ Z.testbit pre 2
                   = payload_bit (page program k
                                  ++ replicate (128 - length (page program k)) 0) i
                /\ ((8 * length (page program k) <= i)%nat -> Z.testbit pre 2 = false))).
Proof.
  split.
  - destruct (Spec_program_prefix program _ _ (Avoids_program_rest program verify) w)
      as (events & Hlog & ev1 & ev2 & -> & Hinv & Hrest).
    destruct (Wired_program_elf program verify w) as (events' & Hlog' & Hwire).
    assert (events' = ev1 ++ ev2) as ->.
    { unfold program_elf in Hlog'. rewrite Hlog in Hlog'. by apply app_inv_head in Hlog'. }
    exists (invocations ev2).
    unfold program_elf. rewrite (events_since_app _ _ _ Hlog).
    rewrite invocations_app, Hinv, <- app_assoc. split; [done|]. split; [done|].
    unfold program_elf in Hwire. rewrite Hwire.
    by rewrite invocations_app, Hinv, <- app_assoc.
  - intros k Hk. pose proof (length_page program k) as Hlen.
    unfold PAGE_BYTES in Hlen.
    destruct (page_stream_bits (page program k) (128 - length (page program k)))
      as (Hpad & Hlength & Hbits).
    split; [rewrite length_app, length_replicate; lia|].
    split; [done|]. split; [done|].
    intros i Hi. destruct (Hbits i Hi) as (pre & Hpre & Hpost & Htdi).
    exists pre. split; [done|]. split; [done|]. split; [done|].
    intros Hpast. rewrite Htdi. by apply payload_bit_padding.
Qed.

End PageClaims.

Lemma program_elf_pages_witness :
  (exists rest,
     invocations (events_since (script_world []) (fst (program_elf [1; 2; 3] true (script_world []))))
     = erase_calls
       ++ concat (map (write_page_calls [1; 2; 3]) (seq 0 (ceil_div (length [1; 2; 3]) 128)))
       ++ rest
     /\ Forall (fun c => fst c <> PROG_PAGELOAD) rest
     /\ wire (fst (program_elf [1; 2; 3] true (script_world [])))
        = wire (script_world [])
          ++ concat (map call_stream
                         (erase_calls
                          ++ concat (map (write_page_calls [1; 2; 3])
                                         (seq 0 (ceil_div (length [1; 2; 3]) 128)))
                          ++ rest)))
  /\ (forall k,
        (k < ceil_div (length [1%Z; 2%Z; 3%Z]) 128)%nat ->
        length (page [1; 2; 3] k ++ replicate (128 - length (page [1; 2; 3] k)) 0) = 128%nat
        /\ call_stream (PROG_PAGELOAD, PBytes (page [1; 2; 3] k))
           = fst (encode (irvalue_of PROG_PAGELOAD) (nbits_of PROG_PAGELOAD)
                    (page [1; 2; 3] k ++ replicate (128 - length (page [1; 2; 3] k)) 0))
        /\ length (call_stream (PROG_PAGELOAD, PBytes (page [1; 2; 3] k)))
           = (37 + 2 * 1024)%nat
        /\ (forall i, (i < 1024)%nat ->
              exists pre,
                call_stream (PROG_PAGELOAD, PBytes (page [1; 2; 3] k)) !! (31 + 2 * i)%nat
                = Some pre
                /\ call_stream (PROG_PAGELOAD, PBytes (page [1; 2; 3] k)) !! (32 + 2 * i)%nat
                   = Some (pre + TCK)
                /\ Z.testbit pre 2
                   = payload_bit (page [1; 2; 3] k
                                  ++ replicate (128 - length (page [1; 2; 3] k)) 0) i
                /\ ((8 * length (page [1%Z; 2%Z; 3%Z] k) <= i)%nat -> Z.testbit pre 2 = false))).
Proof. exact (program_elf_pages [1; 2; 3] true (script_world [])). Defined.

(** ** Verifying the pages *)

Lemma pageread_returns_app (ev1 ev2 : list event) :
  pageread_returns (ev1 ++ ev2) = pageread_returns ev1 ++ pageread_returns ev2.
Proof. unfold pageread_returns. apply omap_app. Qed.

Lemma pageread_returns_none (events : list event) :
  Forall (fun c => fst c <> PROG_PAGEREAD) (invocations events) ->
  pageread_returns events = [].
Proof.
  induction events as [|e events IH]; [done|].
  destruct e as [instruction data returned|]; cbn.
  - intros Hall. inversion Hall as [|c l Hc Hl]; subst.
    cbn in Hc. destruct instruction; try done; by apply IH.
  - apply IH.
Qed.

Lemma readback_matches_equal (program : list Z) (k : nat) (returned : list Z) :
  length returned = 129%nat ->
  readback_matches program k returned <-> readback_equal program k returned.
Proof.
  intros Hlen. unfold readback_matches, readback_equal, page, slice, PAGE_BYTES.
  replace (k * 128 + 128 - k * 128)%nat with 128%nat by lia.
  split.
  - intros Heq i Hi Hprog.
    apply (f_equal (fun l => l !! i)) in Heq.
    rewrite !lookup_take, !lookup_drop in Heq.
    rewrite decide_True in Heq by lia. rewrite decide_True in Heq by lia.
    rewrite Heq. f_equal. lia.
  - intros Heq. apply list_eq. intros i.
    rewrite !lookup_take, !lookup_drop.
    destruct (decide (i < 128)%nat) as [Hi|Hi].
    + destruct (decide (i < length program - k * 128)%nat) as [Hp|Hp].
      * rewrite Heq by lia. f_equal. lia.
      * symmetry. apply lookup_ge_None_2. lia.
    + destruct (decide (i < length program - k * 128)%nat) as [Hp|Hp]; [|done].
      apply lookup_ge_None_2. lia.
Qed.

Section VerifyPages.
Context {D : Type} `{TransportOK D}.

(** One turn of the verify loop: the address, one PROG_PAGEREAD(0), and
    the verdict on what it returned. *)
Lemma Spec_flash_verify_page (program : list Z) (k : nat) :
  Spec (flash_verify_page (D:=D) program (k * PAGE_BYTES)) (VerifyLoop program k 1).
Proof.
  intros w. unfold flash_verify_page.
  pose proof (low_byte_range (Z.shiftr (Z.shiftr (Z.of_nat (k * PAGE_BYTES)) 1) 8)).
  pose proof (low_byte_range (Z.shiftr (Z.of_nat (k * PAGE_BYTES)) 1)).
  destruct (jtag_command_succeeds PROG_COMMANDS
              (PInt (Z.lor 0x0700 (Z.land (Z.shiftr (Z.shiftr (Z.of_nat (k * PAGE_BYTES)) 1) 8) 0xff))) w)
    as (w1 & b1 & Hrun1 & _ & Hlog1); [apply command_word_range; lia|].
  destruct (jtag_command_succeeds PROG_COMMANDS
              (PInt (Z.lor 0x0300 (Z.land (Z.shiftr (Z.of_nat (k * PAGE_BYTES)) 1) 0xff))) w1)
    as (w2 & b2 & Hrun2 & _ & Hlog2); [apply command_word_range; lia|].
  destruct (jtag_command_succeeds PROG_PAGEREAD (PInt 0) w2)
    as (w3 & returned & Hrun3 & Hlen3 & Hlog3); [done|].
  rewrite (bind_ok _ _ _ _ _ Hrun1), (bind_ok _ _ _ _ _ Hrun2), (bind_ok _ _ _ _ _ Hrun3).
  change (ceil_div (nbits_of PROG_PAGEREAD) 8) with 129%nat in Hlen3.
  eexists [_; _; Call PROG_PAGEREAD (PInt 0) (Ok returned)].
  assert (log w3 = log w ++ [Call PROG_COMMANDS
              (PInt (Z.lor 0x0700 (Z.land (Z.shiftr (Z.shiftr (Z.of_nat (k * PAGE_BYTES)) 1) 8) 0xff))) (Ok b1);
            Call PROG_COMMANDS
              (PInt (Z.lor 0x0300 (Z.land (Z.shiftr (Z.of_nat (k * PAGE_BYTES)) 1) 0xff))) (Ok b2);
            Call PROG_PAGEREAD (PInt 0) (Ok returned)]) as Hlog.
  { rewrite Hlog3, Hlog2, Hlog1. by rewrite <- !app_assoc. }
  assert (Forall pageread_zero
            [(PROG_COMMANDS,
              PInt (Z.lor 0x0700 (Z.land (Z.shiftr (Z.shiftr (Z.of_nat (k * PAGE_BYTES)) 1) 8) 0xff)));
             (PROG_COMMANDS,
              PInt (Z.lor 0x0300 (Z.land (Z.shiftr (Z.of_nat (k * PAGE_BYTES)) 1) 0xff)));
             (PROG_PAGEREAD, PInt 0)]) as Hzero.
  { repeat constructor; by intros ?. }
  case_bool_decide as Hcmp.
  - split; [exact Hlog|]. split; [exact Hzero|]. split; [by repeat constructor|].
    left. split; [done|]. split; [done|].
    intros j ret Hj. destruct j as [|j]; [|done].
    cbn in Hj. assert (ret = returned) as -> by congruence.
    by rewrite Nat.add_0_r.
  - split; [exact Hlog|]. split; [exact Hzero|]. split; [by repeat constructor|].
    right. exists 0%nat, returned. rewrite Nat.add_0_r.
    split; [done|]. split; [done|]. split; [lia|]. split; [intros; lia|].
    split; [done|]. split; [done|done].
Qed.

End VerifyPages.

Section VerifyLoopSpec.
Context {D : Type} `{TransportOK D}.

Lemma Spec_verify_loop (program : list Z) (m : nat) :
  forall k0,
    Spec (for_each (map (fun k => k * PAGE_BYTES)%nat (seq k0 m))
                   (flash_verify_page (D:=D) program))
         (VerifyLoop program k0 m).
Proof.
  induction m as [|m IH]; intros k0 w.
  - exists []. cbn. rewrite app_nil_r. split; [done|].
    split; [constructor|]. split; [constructor|]. left. by split.
  - cbn [seq map for_each].
    destruct (Spec_flash_verify_page program k0 w)
      as (ev1 & Hlog1 & Hz1 & Hlen1 & Hcase1).
    destruct (flash_verify_page program (k0 * PAGE_BYTES) w) as [w1 r1] eqn:Hrun1.
    cbn [fst snd] in *.
    destruct Hcase1 as [(-> & Hone & Hmatch1)|(j & ret & Hj & Hone & Hjm & Hearlier & Hmis & -> & Hlast)].
    + rewrite (bind_ok _ _ _ _ _ Hrun1).
      destruct (IH (S k0) w1) as (ev2 & Hlog2 & Hz2 & Hlen2 & Hcase2).
      exists (ev1 ++ ev2). rewrite Hlog2, Hlog1, <- app_assoc. split; [done|].
      unfold VerifyLoop. rewrite invocations_app, pageread_returns_app.
      split; [by apply Forall_app|]. split; [by apply Forall_app|].
      destruct (pageread_returns ev1) as [|ret1 [|? ?]] eqn:Hrs1; [done| |done].
      specialize (Hmatch1 0%nat ret1 eq_refl). rewrite Nat.add_0_r in Hmatch1.
      destruct Hcase2 as [(Hr & Hcount & Hmatch2)|(j & ret & Hj & Hcount & Hjm & Hearlier & Hmis & Hr & Hlast)].
      * left. split; [done|]. split; [cbn; lia|].
        intros j ret Hj. destruct j as [|j]; cbn in Hj.
        -- assert (ret = ret1) as -> by congruence. by rewrite Nat.add_0_r.
        -- replace (k0 + S j)%nat with (S k0 + j)%nat by lia. by apply Hmatch2.
      * right. exists (S j), ret.
        replace (k0 + S j)%nat with (S k0 + j)%nat by lia.
        split; [done|]. split; [cbn; lia|]. split; [lia|]. split; [|split; [done|split; [done|]]].
        -- intros j' ret' Hj' Hlook. destruct j' as [|j']; cbn in Hlook.
           ++ assert (ret' = ret1) as -> by congruence. by rewrite Nat.add_0_r.
           ++ replace (k0 + S j')%nat with (S k0 + j')%nat by lia.
              apply Hearlier; [lia|done].
        -- rewrite last_app, Hlast. done.
    + rewrite (bind_raise _ _ _ _ _ Hrun1). cbn [fst snd].
      exists ev1. split; [done|]. split; [done|]. split; [done|].
      right. exists j, ret. split; [done|]. split; [done|]. split; [lia|].
      split; [done|]. split; [done|]. by split.
Qed.

End VerifyLoopSpec.

Lemma pageread_zero_other (calls : list (AVR_JTAG * Payload)) :
  Forall (fun c => fst c <> PROG_PAGEREAD) calls -> Forall pageread_zero calls.
Proof. apply Forall_impl. intros c Hc Heq. done. Qed.

(** Calls other than PROG_PAGEREAD before the verify loop leave its outcome
    as it is. *)
Lemma VerifyLoop_prefix (program : list Z) (k0 m : nat)
    (ev1 ev2 : list event) (r : result unit) :
  Forall (fun c => fst c <> PROG_PAGEREAD) (invocations ev1) ->
  VerifyLoop program k0 m ev2 r -> VerifyLoop program k0 m (ev1 ++ ev2) r.
Proof.
  intros Hno (Hz & Hlen & Hcase). unfold VerifyLoop.
  rewrite invocations_app, pageread_returns_app, (pageread_returns_none ev1 Hno).
  cbn [app]. split; [apply Forall_app; split; [by apply pageread_zero_other|done]|].
  split; [done|].
  destruct Hcase as [?|(j & ret & Hj & Hone & Hjm & Hearlier & Hmis & Hr & Hlast)]; [by left|].
  right. exists j, ret. repeat (split; [done|]). by rewrite last_app, Hlast.
Qed.

(** So do such calls after a verify loop that found no mismatch. *)
Lemma VerifyLoop_suffix (program : list Z) (k0 m : nat) (ev1 ev2 : list event) :
  Forall (fun c => fst c <> PROG_PAGEREAD) (invocations ev2) ->
  VerifyLoop program k0 m ev1 (Ok tt) -> VerifyLoop program k0 m (ev1 ++ ev2) (Ok tt).
Proof.
  intros Hno (Hz & Hlen & Hcase). unfold VerifyLoop.
  rewrite invocations_app, pageread_returns_app, (pageread_returns_none ev2 Hno).
  rewrite app_nil_r. split; [apply Forall_app; split; [done|by apply pageread_zero_other]|].
  split; [done|].
  destruct Hcase as [?|(j & ret & _ & _ & _ & _ & _ & Hr & _)]; [by left|done].
Qed.

Lemma write_page_calls_no_pageread (program : list Z) (pages : list nat) :
  Forall (fun c => fst c <> PROG_PAGEREAD) (concat (map (write_page_calls program) pages)).
Proof.
  induction pages as [|k pages IH]; [constructor|].
  cbn [map concat]. apply Forall_app. split; [|done].
  unfold write_page_calls, load_address. by repeat constructor.
Qed.

Section VerifyRun.
Context {D : Type} `{TransportOK D}.

Lemma Spec_verify_rest (program : list Z) :
  Spec ((jtag_command (D:=D) PROG_COMMANDS (PInt 0x2302);;
         for_each (py_range 0 (length program) PAGE_BYTES) (flash_verify_page program));;
        jtag_command PROG_COMMANDS (PInt 0x2300);;
        jtag_command PROG_COMMANDS (PInt 0x3300);;
        jtag_command PROG_ENABLE (PInt 0);;
        jtag_command AVR_RESET (PInt 0);;
        mret tt)
       (VerifyLoop program 0 (ceil_div (length program) PAGE_BYTES)).
Proof.
  intros w. rewrite py_range_pages.
  destruct (jtag_command_succeeds PROG_COMMANDS (PInt 0x2302) w)
    as (w1 & b1 & Hrun1 & _ & Hlog1); [done|].
  destruct (Spec_verify_loop program (ceil_div (length program) PAGE_BYTES) 0 w1)
    as (ev2 & Hlog2 & Hloop).
  destruct (for_each _ _ w1) as [w2 r2] eqn:Hrun2. cbn [fst snd] in *.
  assert (Forall (fun c => fst c <> PROG_PAGEREAD)
                 (invocations [Call PROG_COMMANDS (PInt 0x2302) (Ok b1)])) as Hno1
    by (by repeat constructor).
  destruct r2 as [[]|e|].
  - assert (Issues (jtag_command (D:=D) PROG_COMMANDS (PInt 0x2300);;
                    jtag_command PROG_COMMANDS (PInt 0x3300);;
                    jtag_command PROG_ENABLE (PInt 0);;
                    jtag_command AVR_RESET (PInt 0);;
                    mret tt)
                   [(PROG_COMMANDS, PInt 0x2300); (PROG_COMMANDS, PInt 0x3300);
                    (PROG_ENABLE, PInt 0); (AVR_RESET, PInt 0)]) as Hexit.
    { apply (Issues_bind _ _ [_]); [by apply Issues_jtag_command|intros _].
      apply (Issues_bind _ _ [_]); [by apply Issues_jtag_command|intros _].
      apply (Issues_bind _ _ [_]); [by apply Issues_jtag_command|intros _].
      apply (Issues_bind _ _ [_] []); [by apply Issues_jtag_command|intros _].
      apply Issues_ret. }
    destruct (Hexit w2) as (ev3 & Hlog3 & ([] & Hr3) & Hinv3).
    erewrite bind_ok; [|erewrite bind_ok; [exact Hrun2|exact Hrun1]].
    exists ([Call PROG_COMMANDS (PInt 0x2302) (Ok b1)] ++ ev2 ++ ev3).
    split; [rewrite Hlog3, Hlog2, Hlog1; by rewrite <- !app_assoc|].
    rewrite Hr3. apply VerifyLoop_prefix; [done|].
    apply VerifyLoop_suffix; [|done].
    rewrite Hinv3. by repeat constructor.
  - erewrite bind_raise; [|erewrite bind_ok; [exact Hrun2|exact Hrun1]].
    cbn [fst snd].
    exists ([Call PROG_COMMANDS (PInt 0x2302) (Ok b1)] ++ ev2).
    split; [rewrite Hlog2, Hlog1; by rewrite <- !app_assoc|].
    by apply VerifyLoop_prefix.
  - destruct Hloop as (_ & _ & [[? _]|(? & ? & _ & _ & _ & _ & _ & ? & _)]); done.
Qed.

(** The run of [program_elf] with verification, in one statement. *)
Lemma program_elf_verify_run (program : list Z) (w : World D) :
  VerifyLoop program 0 (ceil_div (length program) PAGE_BYTES)
             (events_since w (fst (program_elf program true w)))
             (snd (program_elf program true w))
  /\ list.last (log (fst (program_elf program true w)))
     = match list.last (events_since w (fst (program_elf program true w))) with
       | Some e => Some e
       | None => list.last (log w)
       end.
Proof.
  destruct (Spec_program_prefix program _ _ (Spec_verify_rest program) w)
    as (events & Hlog & ev1 & ev2 & -> & Hinv & Hloop).
  unfold program_elf. rewrite (events_since_app _ _ _ Hlog). split.
  - apply VerifyLoop_prefix; [|done]. rewrite Hinv.
    apply Forall_app. split; [by repeat constructor|apply write_page_calls_no_pageread].
  - rewrite Hlog. apply last_app.
Qed.

End VerifyRun.

Section VerifyClaims.
Context {D : Type} `{TransportOK D}.

(** C4 (verify readback), as the code has it.  With verification
    requested, every PROG_PAGEREAD is issued with the payload 0 and returns
    129 bytes, and [program_elf] completes without error exactly when
    there is one such read per page and, for every page, what it returned
    agrees with the image once its first byte (the 8 bits before the 1024
    data bits) is discarded: returned byte [1 + i] is image byte
    [128 * k + i], compared only as far as the image goes on a short final
    page. *)
Theorem program_elf_verify_compares (program : list Z) (w : World D) :
  Forall pageread_zero
         (invocations (events_since w (fst (program_elf program true w))))
  /\ Forall (fun returned => length returned = 129%nat)
            (pageread_returns (events_since w (fst (program_elf program true w))))
  /\ (snd (program_elf program true w) = Ok tt
      <-> length (pageread_returns (events_since w (fst (program_elf program true w))))
          = ceil_div (length program) 128
          /\ forall k returned,
               pageread_returns (events_since w (fst (program_elf program true w))) !! k
               = Some returned ->
               readback_equal program k returned).
Proof.
  destruct (program_elf_verify_run program w) as [(Hz & Hlen & Hcase) _].
  split; [done|]. split; [done|]. split.
  - intros Hr. rewrite Hr in Hcase.
    destruct Hcase as [(_ & Hcount & Hmatch)|(j & ret & _ & _ & _ & _ & _ & ? & _)]; [|done].
    split; [done|]. intros k returned Hk.
    apply readback_matches_equal; [exact (Forall_lookup_1 _ _ _ _ Hlen Hk)|].
    by apply (Hmatch k returned).
  - intros [Hcount Hequal].
    destruct Hcase as [(Hr & _)|(j & ret & Hj & _ & _ & _ & Hmis & _)]; [done|].
    exfalso. apply Hmis. cbn [Nat.add].
    apply readback_matches_equal; [exact (Forall_lookup_1 _ _ _ _ Hlen Hj)|].
    by apply Hequal.
Qed.

(** C5 (verification failure).  If every readback agrees with the image,
    [program_elf] raises no error.  If the readback of page [k] differs, it
    fails with the error that carries the offset of that page, the bytes
    expected and the bytes read; the failing read is the last thing that
    happened: no page after it is read, none is read twice. *)
Theorem program_elf_verification (program : list Z) (w : World D) :
  ((forall k returned,
      pageread_returns (events_since w (fst (program_elf program true w))) !! k
      = Some returned ->
      readback_equal program k returned) ->
   snd (program_elf program true w) = Ok tt)
  /\ (forall k returned,
        pageread_returns (events_since w (fst (program_elf program true w))) !! k
        = Some returned ->
        ~ readback_equal program k returned ->
        snd (program_elf program true w)
        = Raise (RuntimeError (k * 128) (page program k) (drop 1 returned))
        /\ length (pageread_returns (events_since w (fst (program_elf program true w))))
           = S k
        /\ list.last (log (fst (program_elf program true w)))
           = Some (Call PROG_PAGEREAD (PInt 0) (Ok returned))).
Proof.
  destruct (program_elf_verify_run program w) as [(Hz & Hlen & Hcase) Hlast].
  split.
  - intros Hequal.
    destruct Hcase as [(Hr & _)|(j & ret & Hj & _ & _ & _ & Hmis & _)]; [done|].
    exfalso. apply Hmis. cbn [Nat.add].
    apply readback_matches_equal; [exact (Forall_lookup_1 _ _ _ _ Hlen Hj)|].
    by apply Hequal.
  - intros k returned Hk Hdiff.
    assert (~ readback_matches program k returned) as Hmis.
    { intros Hm. apply Hdiff.
      apply readback_matches_equal; [exact (Forall_lookup_1 _ _ _ _ Hlen Hk)|done]. }
    destruct Hcase as [(_ & _ & Hmatch)|(j & ret & Hj & Hcount & _ & Hearlier & _ & Hr & Hl)].
    + exfalso. apply Hmis. by apply (Hmatch k returned).
    + destruct (Nat.lt_trichotomy k j) as [Hlt|[->|Hgt]].
      * exfalso. apply Hmis. by apply (Hearlier k returned).
      * assert (ret = returned) as -> by congruence.
        cbn [Nat.add] in Hr. split; [done|]. split; [done|].
        by rewrite Hlast, Hl.
      * apply lookup_lt_Some in Hk. lia.
Qed.

End VerifyClaims.

Lemma program_elf_verify_compares_witness :
  Forall pageread_zero
         (invocations (events_since (script_world [])
                         (fst (program_elf [1; 2; 3] true (script_world [])))))
  /\ Forall (fun returned => length returned = 129%nat)
            (pageread_returns (events_since (script_world [])
                                 (fst (program_elf [1; 2; 3] true (script_world [])))))
  /\ (snd (program_elf [1; 2; 3] true (script_world [])) = Ok tt
      <-> length (pageread_returns (events_since (script_world [])
                                      (fst (program_elf [1; 2; 3] true (script_world [])))))
          = ceil_div (length [1; 2; 3]) 128
          /\ forall k returned,
               pageread_returns (events_since (script_world [])
                                   (fst (program_elf [1; 2; 3] true (script_world [])))) !! k
               = Some returned ->
               readback_equal [1; 2; 3] k returned).
Proof. exact (program_elf_verify_compares [1; 2; 3] (script_world [])). Defined.

Lemma program_elf_verification_witness :
  snd (program_elf [1; 2; 3] true (script_world []))
  = Raise (RuntimeError (0 * 128) (page [1; 2; 3] 0) (drop 1 (replicate 129 0)))
  /\ length (pageread_returns (events_since (script_world [])
                                 (fst (program_elf [1; 2; 3] true (script_world [])))))
     = 1%nat
  /\ list.last (log (fst (program_elf [1; 2; 3] true (script_world []))))
     = Some (Call PROG_PAGEREAD (PInt 0) (Ok (replicate 129 0))).
Proof.
  apply (proj2 (program_elf_verification [1; 2; 3] (script_world [])) 0%nat (replicate 129 0)).
  - by vm_compute.
  - intros Hequal. specialize (Hequal 0%nat ltac:(lia) ltac:(cbn; lia)).
    vm_compute in Hequal. discriminate.
Defined.

(** C4 as the specification words it fails: the device answers the read of
    the one page of the image [0x55] with a zero byte followed by 0x55.  The
    run verifies, although with only the first returned bit discarded the
    readback would start with 0x80, not 0x55. *)
Lemma verify_readback_counterexample :
  snd (program_elf [0x55] true
         (script_world (replicate 3180 0 ++ [8; 0; 0; 0; 8; 0; 0; 0; 8; 0; 0; 0; 8])))
  = Ok tt
  /\ pageread_returns
       (log (fst (program_elf [0x55] true
                    (script_world (replicate 3180 0 ++ [8; 0; 0; 0; 8; 0; 0; 0; 8; 0; 0; 0; 8])))))
     = [0 :: 0x55 :: replicate 127 0]
  /\ take 1 (drop_first_bit (0 :: 0x55 :: replicate 127 0)) = [0x80]
  /\ take 1 (drop 1 (0 :: 0x55 :: replicate 127 0)) = [0x55].
Proof. by vm_compute. Qed.

(** ** The program on concrete inputs *)

Example encode_bypass :
  encode 0xF 1 [1]
  = ([0; 0; 32; 0; 32; 16; 48; 16; 48; 0; 32; 0; 32; 4; 36; 4; 36; 4; 36; 20; 52;
      16; 48; 0; 32; 16; 48; 0; 32; 0; 32; 20; 52; 16; 48; 0; 32; 0; 32],
     Some 33%nat).
Proof. reflexivity. Qed.

Example idcode_first_bit :
  snd (jtag_command IDCODE (PInt 0) (script_world (replicate 33 0 ++ [8])))
  = Ok [1; 0; 0; 0].
Proof. by vm_compute. Qed.

Example short_response :
  snd (jtag_command (D:=list Z) (H:={| dev_flush d := d;
                                        dev_write d bs := (d, length bs);
                                        dev_read d count := (d, []) |})
         BYPASS (PInt 0) (mkWorld [] [] []))
  = Raise IndexError.
Proof. by vm_compute. Qed.

Example read_fuses_locks_all_ones :
  snd (read_fuses_locks (script_world (replicate 510 8))) = Ok (255, 65535, 255).
Proof. by vm_compute. Qed.

Example program_two_pages :
  map fst (invocations (log (fst (program_elf (replicate 130 7) false (script_world [])))))
  = [AVR_RESET; PROG_ENABLE;
     PROG_COMMANDS; PROG_COMMANDS; PROG_COMMANDS; PROG_COMMANDS; PROG_COMMANDS;
     PROG_COMMANDS; PROG_COMMANDS; PROG_PAGELOAD;
     PROG_COMMANDS; PROG_COMMANDS; PROG_COMMANDS; PROG_COMMANDS;
     PROG_COMMANDS; PROG_COMMANDS; PROG_PAGELOAD;
     PROG_COMMANDS; PROG_COMMANDS; PROG_COMMANDS; PROG_COMMANDS;
     PROG_COMMANDS; PROG_COMMANDS; PROG_ENABLE; AVR_RESET].
Proof. by vm_compute. Qed.

(** ** Further properties of one transaction *)

Lemma lor_range (k a b : Z) :
  0 <= k -> 0 <= a < 2 ^ k -> 0 <= b < 2 ^ k -> 0 <= Z.lor a b < 2 ^ k.
Proof.
  intros Hk Ha Hb.
  assert (0 <= Z.lor a b) as Hnonneg by (apply Z.lor_nonneg; lia).
  split; [done|].
  destruct (Z.eq_dec (Z.lor a b) 0) as [->|Hne]; [lia|].
  assert (0 < k) as Hpos.
  { destruct (Z.eq_dec k 0) as [->|?]; [|lia].
    exfalso. apply Hne. change (2 ^ 0) with 1 in *.
    assert (a = 0) as -> by lia. assert (b = 0) as -> by lia. done. }
  apply Z.log2_lt_pow2; [lia|].
  rewrite Z.log2_lor by lia.
  assert (Z.log2 a < k).
  { destruct (Z.eq_dec a 0) as [->|?]; [cbn; lia|]. apply Z.log2_lt_pow2; lia. }
  assert (Z.log2 b < k).
  { destruct (Z.eq_dec b 0) as [->|?]; [cbn; lia|]. apply Z.log2_lt_pow2; lia. }
  lia.
Qed.

Lemma sample_bit_range (r : Z) (j : nat) :
  (j < 8)%nat -> is_byte (Z.shiftl (py_bool (Z.land r TDO)) (Z.of_nat j)).
Proof.
  intros Hj. rewrite py_bool_land_TDO. unfold is_byte.
  rewrite Z.shiftl_mul_pow2 by lia.
  assert (0 < 2 ^ Z.of_nat j <= 2 ^ 7) as Hpow.
  { split; [apply Z.pow_pos_nonneg; lia|apply Z.pow_le_mono_r; lia]. }
  change (2 ^ 7) with 128 in Hpow.
  destruct (tdo_line r); cbn [Z.b2z]; lia.
Qed.

Lemma decode_step_bytes (retindex : option nat) (ret : list Z)
    (acc : result (list Z)) (bit : nat) :
  (forall buf, acc = Ok buf -> Forall is_byte buf) ->
  forall buf, decode_step retindex ret acc bit = Ok buf -> Forall is_byte buf.
Proof.
  intros Hacc buf. unfold decode_step.
  destruct acc as [bytes|e|]; [|done|done].
  destruct retindex as [ri|]; [|done].
  destruct (ret !! (ri + 2 * bit)%nat) as [r|]; [|done].
  case_bool_decide; [|done].
  intros Hbuf. assert (buf = alter (fun b => Z.lor b (Z.shiftl (py_bool (Z.land r TDO))
                                                   (Z.of_nat (bit mod 8))))
                                   (bit / 8)%nat bytes) as -> by congruence.
  apply Forall_alter; [by apply Hacc|].
  intros b Hb Hbyte.
  pose proof (sample_bit_range r (bit mod 8) (Nat.mod_upper_bound bit 8 ltac:(lia))) as Hs.
  unfold is_byte in *. change 256 with (2 ^ 8). apply lor_range; [lia|done|done].
Qed.

Lemma decode_bytes (nbits : nat) (retindex : option nat) (ret buf : list Z) :
  decode nbits retindex ret = Ok buf -> Forall is_byte buf.
Proof.
  unfold decode.
  assert (forall l acc, (forall buf, acc = Ok buf -> Forall is_byte buf) ->
            forall buf, fold_left (decode_step retindex ret) l acc = Ok buf ->
                        Forall is_byte buf) as Hfold.
  { induction l as [|bit l IH]; intros acc Hacc buf'; cbn [fold_left]; [by apply Hacc|].
    apply IH. by apply decode_step_bytes. }
  apply Hfold. intros buf' Hbuf'.
  assert (buf' = replicate (ceil_div nbits 8) 0) as -> by congruence.
  apply Forall_replicate. unfold is_byte. lia.
Qed.

Lemma decode_step_raise (retindex : option nat) (ret : list Z) (e : error) (l : list nat) :
  fold_left (decode_step retindex ret) l (Raise e) = Raise e.
Proof. induction l as [|bit l IH]; [done|]. cbn. apply IH. Qed.

(** A response that ends before the last sampled position makes the decoder
    fail. *)
Lemma decode_loop_short (retindex : nat) (ret : list Z) (len m : nat) :
  (forall i, (i < m)%nat -> (i / 8 < len)%nat) ->
  (0 < m)%nat ->
  (length ret <= retindex + 2 * (m - 1))%nat ->
  fold_left (decode_step (Some retindex) ret) (seq 0 m) (Ok (replicate len 0))
  = Raise IndexError.
Proof.
  induction m as [|m IH]; intros Hlen Hm Hshort; [lia|].
  rewrite seq_S, fold_left_app. cbn [fold_left Nat.add].
  destruct (Nat.le_gt_cases (length ret) (retindex + 2 * (m - 1))) as [Hle|Hgt].
  - destruct m as [|m].
    + cbn [seq fold_left decode_step].
      rewrite lookup_ge_None_2 by lia. done.
    + rewrite IH; [done|intros; apply Hlen; lia|lia|done].
  - destruct (decode_loop retindex ret len m) as (buf & Hrun & _ & _).
    + intros i Hi. apply lookup_lt_is_Some_2. lia.
    + intros i Hi. apply Hlen. lia.
    + rewrite Hrun. cbn [decode_step].
      rewrite lookup_ge_None_2 by lia. done.
Qed.

Lemma decode_short (nbits retindex : nat) (ret : list Z) :
  (0 < nbits)%nat ->
  (length ret <= retindex + 2 * (nbits - 1))%nat ->
  decode nbits (Some retindex) ret = Raise IndexError.
Proof.
  intros Hn Hshort. apply decode_loop_short; [|done|done].
  intros i Hi. by apply div8_lt_ceil.
Qed.

Section TransactionExtras.
Context {D : Type} `{Transport D}.

(** X3.  Whatever integers the transport answers with, every element of the
    buffer [jtag_command] returns is a byte (0..255): the [bytearray] never
    overflows. *)
Theorem jtag_command_returns_bytes (instruction : AVR_JTAG) (data : Payload)
    (w : World D) (buf : list Z) :
  snd (jtag_command instruction data w) = Ok buf -> Forall is_byte buf.
Proof.
  destruct (payload_bytes_cases (nbits_of instruction) data) as [[bs Hbs]|Hraise].
  - destruct (jtag_command_run instruction data bs w Hbs) as (w1 & ret & _ & _ & _ & Hrun).
    rewrite Hrun. cbn [snd]. apply decode_bytes.
  - by rewrite (jtag_command_raise _ _ _ _ Hraise).
Qed.

(** X2.  The call fails with IndexError exactly when the response ends before
    the last sampled position, 31 + 2n; the whole stream has been written by
    then.  With a response of at least 32 + 2n bytes it returns. *)
Theorem jtag_command_short_response (instruction : AVR_JTAG) (data : Payload)
    (bs ret : list Z) (w w1 : World D) :
  payload_bytes (nbits_of instruction) data = Ok bs ->
  exchange (fst (encode (irvalue_of instruction) (nbits_of instruction) bs)) w
    = (w1, Ok ret) ->
  wire (fst (jtag_command instruction data w))
  = wire w ++ fst (encode (irvalue_of instruction) (nbits_of instruction) bs)
  /\ ((length ret < 32 + 2 * nbits_of instruction)%nat ->
      snd (jtag_command instruction data w) = Raise IndexError)
  /\ ((32 + 2 * nbits_of instruction <= length ret)%nat ->
      exists buf, snd (jtag_command instruction data w) = Ok buf).
Proof.
  rewrite encode_spec by apply nbits_of_pos. cbn [fst].
  intros Hbs Hex.
  destruct (jtag_command_run instruction data bs w Hbs)
    as (w1' & ret' & Hex' & Hwire & _ & Hrun).
  assert (ret' = ret) as -> by congruence.
  rewrite Hrun. cbn [fst snd log_event wire].
  pose proof (nbits_of_pos instruction) as Hn.
  split; [done|]. split.
  - intros Hshort. apply decode_short; lia.
  - intros Hlong.
    destruct (decode_spec (nbits_of instruction) 33 ret) as (buf & Hdec & _).
    { intros i Hi. apply lookup_lt_is_Some_2. lia. }
    by exists buf.
Qed.

(** X4.  The instruction can be read back from the stream: TDI of the four
    instruction register cells, least significant bit first, is the
    instruction's code, and TMS is raised on the last of the four cells
    only. *)
Theorem jtag_command_instruction_bits (instruction : AVR_JTAG) (data : Payload)
    (bs : list Z) (w : World D) :
  payload_bytes (nbits_of instruction) data = Ok bs ->
  exists stream,
    wire (fst (jtag_command instruction data w)) = wire w ++ stream
    /\ ir_of_stream stream = irvalue_of instruction
    /\ map (fun j => Z.testbit (stream !!! (13 + 2 * j)%nat) 4) (seq 0 4)
       = [false; false; false; true].
Proof.
  intros Hbs.
  destruct (jtag_command_run instruction data bs w Hbs) as (w1 & ret & _ & Hwire & _ & Hrun).
  eexists. rewrite Hrun. cbn [fst log_event wire]. split; [exact Hwire|].
  unfold frame. by destruct instruction.
Qed.

End TransactionExtras.

Lemma jtag_command_returns_bytes_witness :
  Forall is_byte [255; 127].
Proof.
  apply (jtag_command_returns_bytes PROG_COMMANDS (PInt 0x3700)
           (script_world (replicate 67 255))).
  by vm_compute.
Defined.

Lemma jtag_command_short_response_witness :
  wire (fst (jtag_command BYPASS (PInt 1) (script_world [])))
  = [] ++ fst (encode (irvalue_of BYPASS) (nbits_of BYPASS) [1])
  /\ ((length (replicate 39 0) < 32 + 2 * nbits_of BYPASS)%nat ->
      snd (jtag_command BYPASS (PInt 1) (script_world [])) = Raise IndexError)
  /\ ((32 + 2 * nbits_of BYPASS <= length (replicate 39 0))%nat ->
      exists buf, snd (jtag_command BYPASS (PInt 1) (script_world [])) = Ok buf).
Proof.
  eapply (jtag_command_short_response BYPASS (PInt 1) [1] (replicate 39 0)
            (script_world [])).
  - reflexivity.
  - vm_compute. reflexivity.
Defined.

Lemma jtag_command_instruction_bits_witness :
  exists stream,
    wire (fst (jtag_command PROG_PAGEREAD (PInt 0) (script_world []))) = [] ++ stream
    /\ ir_of_stream stream = irvalue_of PROG_PAGEREAD
    /\ map (fun j => Z.testbit (stream !!! (13 + 2 * j)%nat) 4) (seq 0 4)
       = [false; false; false; true].
Proof.
  apply (jtag_command_instruction_bits PROG_PAGEREAD (PInt 0) (replicate 129 0)
           (script_world [])).
  by vm_compute.
Defined.

(** ** The shape of the result *)

Section ResultShape.
Context {D : Type} `{Transport D}.

(** C9 (result shape), as the code has it.  For an instruction with an
    [n]-bit data register and a response of at least 32 + 2n bytes, as is
    every response as long as the 37 + 2n bytes written, [jtag_command]
    returns a buffer of exactly ceil(n/8) bytes, and every bit of it at a
    position >= n is zero.  On a shorter response it raises IndexError and
    returns no buffer. *)
Theorem jtag_command_result_shape (instruction : AVR_JTAG) (data : Payload)
    (bs ret : list Z) (w w1 : World D) :
  payload_bytes (nbits_of instruction) data = Ok bs ->
  exchange (fst (encode (irvalue_of instruction) (nbits_of instruction) bs)) w
    = (w1, Ok ret) ->
  ((32 + 2 * nbits_of instruction <= length ret)%nat ->
   exists buf,
     snd (jtag_command instruction data w) = Ok buf
     /\ length buf = ceil_div (nbits_of instruction) 8
     /\ (forall (k : nat) (b : Z) (j : Z),
           buf !! k = Some b -> 0 <= j ->
           (nbits_of instruction <= 8 * k + Z.to_nat j)%nat ->
           Z.testbit b j = false))
  /\ ((length ret < 32 + 2 * nbits_of instruction)%nat ->
      snd (jtag_command instruction data w) = Raise IndexError).
Proof.
  rewrite encode_spec by apply nbits_of_pos. cbn [fst].
  intros Hbs Hex.
  destruct (jtag_command_run instruction data bs w Hbs)
    as (w1' & ret' & Hex' & _ & _ & Hrun).
  assert (ret' = ret) as -> by congruence.
  rewrite Hrun. cbn [snd].
  pose proof (nbits_of_pos instruction) as Hn.
  split.
  - intros Hlong.
    destruct (decode_spec (nbits_of instruction) 33 ret) as (buf & Hdec & Hbuf & Hp).
    { intros i Hi. apply lookup_lt_is_Some_2. lia. }
    exists buf. split; [done|]. split; [done|].
    intros k b j Hk Hj Hhigh. rewrite (Hp k b Hk j Hj).
    destruct (Nat.ltb_spec (8 * k + Z.to_nat j) (nbits_of instruction)); [lia|].
    by rewrite andb_false_r.
  - intros Hshort. apply decode_short; lia.
Qed.

End ResultShape.

Lemma jtag_command_result_shape_witness :
  ((32 + 2 * nbits_of PROG_COMMANDS <= length (replicate 67 8))%nat ->
   exists buf,
     snd (jtag_command PROG_COMMANDS (PInt 0x3700) (script_world (replicate 67 8))) = Ok buf
     /\ length buf = ceil_div (nbits_of PROG_COMMANDS) 8
     /\ (forall (k : nat) (b : Z) (j : Z),
           buf !! k = Some b -> 0 <= j ->
           (nbits_of PROG_COMMANDS <= 8 * k + Z.to_nat j)%nat ->
           Z.testbit b j = false))
  /\ ((length (replicate 67 8) < 32 + 2 * nbits_of PROG_COMMANDS)%nat ->
      snd (jtag_command PROG_COMMANDS (PInt 0x3700) (script_world (replicate 67 8)))
      = Raise IndexError).
Proof.
  eapply (jtag_command_result_shape PROG_COMMANDS (PInt 0x3700) [0; 0x37] (replicate 67 8)
            (script_world (replicate 67 8))).
  - reflexivity.
  - vm_compute. reflexivity.
Defined.

(** C9 as the specification words it fails: a transport whose reads return
    nothing takes the whole stream of a BYPASS transaction, and the call
    raises IndexError instead of returning a buffer. *)
Lemma result_shape_counterexample :
  snd (jtag_command (H:=silent_transport) BYPASS (PInt 0) (mkWorld tt [] []))
  = Raise IndexError
  /\ length (wire (fst (jtag_command (H:=silent_transport) BYPASS (PInt 0)
                          (mkWorld tt [] [])))) = 39%nat.
Proof. by vm_compute. Qed.

(** ** The chunks a device is handed *)

Lemma lt_ceil_div (k n step : nat) :
  (0 < step)%nat -> (k < ceil_div n step)%nat <-> (k * step < n)%nat.
Proof.
  intros Hstep. unfold ceil_div.
  pose proof (Nat.div_mod_eq (n + (step - 1)) step) as Hdm.
  pose proof (Nat.mod_upper_bound (n + (step - 1)) step ltac:(lia)) as Hmod.
  revert Hdm Hmod. generalize ((n + (step - 1)) mod step)%nat ((n + (step - 1)) / step)%nat.
  intros r q Hdm Hmod. split; intros Hk; nia.
Qed.

Lemma py_range_chunk_offsets (len : nat) :
  py_range 0 len CHUNK_SIZE
  = map (fun k => k * CHUNK_SIZE)%nat (seq 0 (ceil_div len CHUNK_SIZE)).
Proof.
  unfold py_range. rewrite range_from_seq by (unfold CHUNK_SIZE; lia).
  by rewrite Nat.sub_0_r.
Qed.

Lemma recorder_transfer_chunks (stream : list Z) (offsets : list nat) :
  forall (read_ : list (list Z)) (w : World (list (list Z))),
    dev (fst (transfer_chunks (H:=recorder_transport) stream offsets read_ w))
    = dev w ++ map (fun offset => slice stream offset (offset + CHUNK_SIZE)) offsets.
Proof.
  induction offsets as [|offset offsets IH]; intros read_ w.
  - cbn. by rewrite app_nil_r.
  - cbn [transfer_chunks map].
    erewrite bind_ok; [|reflexivity].
    erewrite bind_ok; [|reflexivity].
    rewrite IH. cbn [dev]. by rewrite <- app_assoc.
Qed.

(** X1.  A device that records its [dev.write] calls is handed the stream of
    a transaction in ceil(length/256) writes, in order: every write carries
    at most 256 bytes and at least one, every write but the last exactly 256,
    and the writes put end to end are the stream. *)
Theorem jtag_command_chunks (instruction : AVR_JTAG) (data : Payload) (bs : list Z)
    (w : World (list (list Z))) :
  payload_bytes (nbits_of instruction) data = Ok bs ->
  exists chunks,
    dev (fst (jtag_command (H:=recorder_transport) instruction data w)) = dev w ++ chunks
    /\ concat chunks = fst (encode (irvalue_of instruction) (nbits_of instruction) bs)
    /\ length chunks = ceil_div (37 + 2 * nbits_of instruction) 256
    /\ (forall i chunk, chunks !! i = Some chunk ->
          (0 < length chunk <= 256)%nat
          /\ ((S i < length chunks)%nat -> length chunk = 256%nat)).
Proof.
  intros Hbs. rewrite encode_spec by apply nbits_of_pos. cbn [fst].
  set (stream := 0 :: cells (frame (irvalue_of instruction) (nbits_of instruction) bs)).
  assert (length stream = (37 + 2 * nbits_of instruction)%nat) as Hlen.
  { unfold stream. cbn [length]. rewrite length_cells, length_frame. lia. }
  exists (map (fun offset => slice stream offset (offset + CHUNK_SIZE))
              (py_range 0 (length stream) CHUNK_SIZE)).
  split; [|split; [|split]].
  - unfold jtag_command, jtag_transaction.
    fold (nbits_of instruction). fold (irvalue_of instruction).
    erewrite bind_ok; [|unfold lift; by rewrite Hbs].
    rewrite encode_spec by apply nbits_of_pos. fold stream.
    unfold exchange, transfer.
    pose proof (recorder_transfer_chunks stream (py_range 0 (length stream) CHUNK_SIZE) []
                  (mkWorld (dev w) (wire w) (log w))) as Hdev.
    destruct (transfer_chunks_spec (H:=recorder_transport) stream
                (py_range 0 (length stream) CHUNK_SIZE) []
                (mkWorld (dev w) (wire w) (log w)))
      as (w' & chunks & Hrun & _ & _).
    rewrite Hrun in Hdev. cbn [fst dev] in Hdev.
    erewrite bind_ok; [|erewrite bind_ok; [|reflexivity];
                        erewrite bind_ok; [reflexivity|exact Hrun]].
    unfold lift. by destruct (decode _ _ _).
  - apply py_range_chunks. unfold CHUNK_SIZE. lia.
  - rewrite length_map, py_range_chunk_offsets, length_map, length_seq. by rewrite Hlen.
  - intros i chunk Hi. rewrite py_range_chunk_offsets, map_map in Hi.
    rewrite length_map, py_range_chunk_offsets, length_map, length_seq.
    rewrite lookup_map in Hi.
    destruct (seq 0 (ceil_div (length stream) CHUNK_SIZE) !! i) as [k|] eqn:Hk; [|done].
    apply lookup_seq in Hk as [-> Hk]. cbn [fmap option_fmap option_map Nat.add] in Hi.
    assert (chunk = slice stream (i * CHUNK_SIZE) (i * CHUNK_SIZE + CHUNK_SIZE)) as ->
      by congruence.
    rewrite slice_chunk, length_take, length_drop.
    apply lt_ceil_div in Hk; [|unfold CHUNK_SIZE; lia].
    unfold CHUNK_SIZE in *. split; [lia|].
    intros Hnext. apply (lt_ceil_div (S i)) in Hnext; lia.
Qed.

Lemma jtag_command_chunks_witness :
  exists chunks,
    dev (fst (jtag_command (H:=recorder_transport) PROG_PAGELOAD (PBytes [1; 2; 3])
                (mkWorld [] [] [])))
    = [] ++ chunks
    /\ concat chunks = fst (encode (irvalue_of PROG_PAGELOAD) (nbits_of PROG_PAGELOAD) [1; 2; 3])
    /\ length chunks = ceil_div (37 + 2 * nbits_of PROG_PAGELOAD) 256
    /\ (forall i chunk, chunks !! i = Some chunk ->
          (0 < length chunk <= 256)%nat
          /\ ((S i < length chunks)%nat -> length chunk = 256%nat)).
Proof.
  apply (jtag_command_chunks PROG_PAGELOAD (PBytes [1; 2; 3]) [1; 2; 3] (mkWorld [] [] [])).
  reflexivity.
Defined.


(** ** The walk of the TAP controller *)

Lemma tap_edge_post (t : tap) (pre : Z) :
  output_state pre ->
  Z.testbit pre 5 = false /\ Z.testbit (pre + TCK) 5 = true
  /\ tap_edge t (pre + TCK) = tap_edge t pre.
Proof. by intros [->|[->|[->| ->]]]. Qed.

(** A stream of cells gives the controller one edge per cell, with the lines
    of the pre-edge byte. *)
Lemma tap_run_cells (pres : list Z) :
  Forall output_state pres ->
  forall tck t, tap_run (cells pres) tck t = fold_left tap_edge pres t.
Proof.
  induction 1 as [|pre pres Hpre _ IH]; intros tck t; [done|].
  destruct (tap_edge_post t pre Hpre) as (Hlow & Hhigh & Hedge).
  cbn [cells cell app tap_run fold_left].
  rewrite Hlow, Hhigh. cbn [andb negb]. rewrite Hedge. apply IH.
Qed.

Lemma tap_run_idle (stream : list Z) (tck : bool) (t : tap) :
  tap_run (0 :: stream) tck t = tap_run stream false t.
Proof. reflexivity. Qed.

Lemma tap_postamble (irb drb : list bool) (b : bool) :
  fold_left tap_edge (Z.lor (tdi b) TMS :: postamble) (mkTap ShiftDR irb drb)
  = mkTap RunTestIdle irb (drb ++ [b]).
Proof. by destruct b. Qed.

Lemma tap_shift_dr (data : list Z) (irb : list bool) (l : list nat) :
  forall acc,
    fold_left tap_edge (map (fun i => tdi (payload_bit data i)) l) (mkTap ShiftDR irb acc)
    = mkTap ShiftDR irb (acc ++ map (payload_bit data) l).
Proof.
  induction l as [|i l IH]; intros acc; cbn [map fold_left].
  - by rewrite app_nil_r.
  - replace (tap_edge (mkTap ShiftDR irb acc) (tdi (payload_bit data i)))
      with (mkTap ShiftDR irb (acc ++ [payload_bit data i]))
      by (by destruct (payload_bit data i)).
    rewrite IH. by rewrite <- app_assoc.
Qed.

Lemma tap_preamble (instruction : AVR_JTAG) (t : tap) :
  tap_st t = TestLogicReset \/ tap_st t = RunTestIdle ->
  fold_left tap_edge (preamble (irvalue_of instruction)) t
  = mkTap ShiftDR (map (Z.testbit (irvalue_of instruction)) [0; 1; 2; 3]) [].
Proof.
  destruct t as [s irb drb]. cbn [tap_st].
  by intros [-> | ->]; destruct instruction.
Qed.

Section TapWalk.
Context {D : Type} `{Transport D}.

(** X5.  The stream of a transaction walks a TAP controller that starts in
    Test-Logic-Reset or in Run-Test/Idle through one instruction scan and one
    data scan and leaves it in Run-Test/Idle: the controller has shifted in
    the four bits of the instruction code, least significant bit first, and
    the [n] payload bits in order, and nothing else. *)
Theorem jtag_command_tap_walk (instruction : AVR_JTAG) (data : Payload) (bs : list Z)
    (w : World D) (t : tap) (tck : bool) :
  payload_bytes (nbits_of instruction) data = Ok bs ->
  tap_st t = TestLogicReset \/ tap_st t = RunTestIdle ->
  exists stream,
    wire (fst (jtag_command instruction data w)) = wire w ++ stream
    /\ tap_run stream tck t
       = mkTap RunTestIdle
               (map (Z.testbit (irvalue_of instruction)) [0; 1; 2; 3])
               (map (payload_bit bs) (seq 0 (nbits_of instruction))).
Proof.
  intros Hbs Hstart.
  destruct (jtag_command_run instruction data bs w Hbs) as (w1 & ret & _ & Hwire & _ & Hrun).
  exists (0 :: cells (frame (irvalue_of instruction) (nbits_of instruction) bs)).
  rewrite Hrun. split; [exact Hwire|].
  rewrite tap_run_idle, tap_run_cells by apply frame_lines.
  unfold frame. rewrite !fold_left_app, (tap_preamble _ _ Hstart).
  pose proof (nbits_of_pos instruction) as Hn.
  generalize dependent (nbits_of instruction). intros n _ _ Hn.
  destruct n as [|n]; [lia|].
  rewrite dr_cells_snoc, fold_left_app, tap_shift_dr.
  rewrite <- fold_left_app. cbn [app].
  rewrite tap_postamble. by rewrite seq_S, map_app.
Qed.

End TapWalk.

Lemma jtag_command_tap_walk_witness :
  exists stream,
    wire (fst (jtag_command PROG_ENABLE (PInt 0xA370) (script_world []))) = [] ++ stream
    /\ tap_run stream true (mkTap RunTestIdle [] [])
       = mkTap RunTestIdle
               (map (Z.testbit (irvalue_of PROG_ENABLE)) [0; 1; 2; 3])
               (map (payload_bit [0x70; 0xA3]) (seq 0 (nbits_of PROG_ENABLE))).
Proof.
  apply (jtag_command_tap_walk PROG_ENABLE (PInt 0xA370) [0x70; 0xA3] (script_world [])
           (mkTap RunTestIdle [] []) true).
  - reflexivity.
  - by right.
Defined.

(** ** Runs that return *)

Lemma Completes_weaken {D A} (m : M D A) (P P' : list (AVR_JTAG * Payload) -> Prop) :
  Completes m P -> (forall calls, P calls -> P' calls) -> Completes m P'.
Proof.
  intros Hm HP. eapply Spec_weaken; [exact Hm|].
  intros events r Hp Hok. by apply HP, Hp.
Qed.

Lemma Completes_bind {D A B} (m : M D A) (f : A -> M D B)
    (P1 P2 : list (AVR_JTAG * Payload) -> Prop) :
  Completes m P1 -> (forall a, Completes (f a) P2) ->
  Completes (m ≫= f)
            (fun calls => exists calls1 calls2,
                 calls = calls1 ++ calls2 /\ P1 calls1 /\ P2 calls2).
Proof.
  intros Hm Hf w. destruct (Hm w) as (ev1 & Hlog1 & Hp1).
  unfold mbind, M_bind. destruct (m w) as [w1 [a|e|]]; cbn [fst snd] in *.
  - destruct (Hf a w1) as (ev2 & Hlog2 & Hp2).
    exists (ev1 ++ ev2). rewrite Hlog2, Hlog1, <- app_assoc. split; [done|].
    intros Hok. exists (invocations ev1), (invocations ev2).
    split; [apply invocations_app|]. split; [apply Hp1; by eauto|by apply Hp2].
  - exists ev1. split; [done|]. by intros [? ?].
  - exists ev1. split; [done|]. by intros [? ?].
Qed.

(** The same for a first part that makes exactly the calls [calls1]. *)
Lemma Completes_prefix {D A B} (m : M D A) (f : A -> M D B)
    (calls1 : list (AVR_JTAG * Payload)) (P : list (AVR_JTAG * Payload) -> Prop) :
  Completes m (eq calls1) -> (forall a, Completes (f a) P) ->
  Completes (m ≫= f) (fun calls => exists rest, calls = calls1 ++ rest /\ P rest).
Proof.
  intros Hm Hf. eapply Completes_weaken; [by apply Completes_bind|].
  intros calls (c1 & c2 & -> & <- & Hp). by exists c2.
Qed.

Lemma Completes_seq {D A B} (m : M D A) (f : A -> M D B)
    (calls1 calls2 : list (AVR_JTAG * Payload)) :
  Completes m (eq calls1) -> (forall a, Completes (f a) (eq calls2)) ->
  Completes (m ≫= f) (eq (calls1 ++ calls2)).
Proof.
  intros Hm Hf. eapply Completes_weaken; [by apply Completes_bind|].
  by intros calls (c1 & c2 & -> & <- & <-).
Qed.

Lemma Completes_ret {D A} (a : A) : Completes (mret a : M D A) (eq []).
Proof. intros w. exists []. cbn. by rewrite app_nil_r. Qed.

Lemma Completes_raise {D A} (e : error) (P : list (AVR_JTAG * Payload) -> Prop) :
  Completes (raise e : M D A) P.
Proof. intros w. exists []. cbn. rewrite app_nil_r. split; [done|]. by intros [? ?]. Qed.

Lemma Completes_for_each_map {D A B} (g : A -> B) (body : B -> M D unit)
    (calls : A -> list (AVR_JTAG * Payload)) (l : list A) :
  (forall x, Completes (body (g x)) (eq (calls x))) ->
  Completes (for_each (map g l) body) (eq (concat (map calls l))).
Proof.
  intros Hbody. induction l as [|x l IH]; cbn [for_each map concat].
  - apply Completes_ret.
  - apply Completes_seq; [apply Hbody|]. by intros _.
Qed.

Lemma Runs_bind {D A B} (m : M D A) (f : A -> M D B)
    (trace1 trace2 : list (option (AVR_JTAG * Payload))) :
  Runs m trace1 -> (forall a, Runs (f a) trace2) -> Runs (m ≫= f) (trace1 ++ trace2).
Proof.
  intros Hm Hf w. destruct (Hm w) as (ev1 & Hlog1 & (a & Hr) & Htr1).
  destruct (m w) as [w1 r1] eqn:Hmw. cbn [fst snd] in *. subst r1.
  rewrite (bind_ok _ _ _ _ _ Hmw).
  destruct (Hf a w1) as (ev2 & Hlog2 & Hok & Htr2).
  exists (ev1 ++ ev2). rewrite Hlog2, Hlog1, <- app_assoc. split; [done|].
  split; [done|]. by rewrite map_app, Htr1, Htr2.
Qed.

Lemma Runs_ret {D A} (a : A) : Runs (mret a : M D A) [].
Proof. intros w. exists []. cbn. rewrite app_nil_r. by eauto. Qed.

Lemma Runs_for_each_map {D A B} (g : A -> B) (body : B -> M D unit)
    (trace : A -> list (option (AVR_JTAG * Payload))) (l : list A) :
  (forall x, Runs (body (g x)) (trace x)) ->
  Runs (for_each (map g l) body) (concat (map trace l)).
Proof.
  intros Hbody. induction l as [|x l IH]; cbn [for_each map concat].
  - apply Runs_ret.
  - apply Runs_bind; [apply Hbody|]. by intros _.
Qed.

Section MoreRuns.
Context {D : Type} `{Transport D}.

Lemma Completes_jtag_command (instruction : AVR_JTAG) (data : Payload) :
  Completes (jtag_command (D:=D) instruction data) (eq [(instruction, data)]).
Proof. intros w. eexists. split; [apply jtag_command_log|]. done. Qed.

Lemma Completes_sleep : Completes (sleep (D:=D)) (eq []).
Proof. intros w. exists [Sleep]. by cbn. Qed.

Lemma Runs_sleep : Runs (sleep (D:=D)) [None].
Proof. intros w. exists [Sleep]. cbn. by eauto. Qed.

Context `{!TransportOK D}.

Lemma Runs_jtag_command (instruction : AVR_JTAG) (data : Payload) :
  converts (nbits_of instruction) data ->
  Runs (jtag_command (D:=D) instruction data) [Some (instruction, data)].
Proof.
  intros Hconv. eapply Spec_weaken; [by apply Spec_jtag_command|].
  intros events r (buf & -> & -> & _). split; [by eauto|done].
Qed.

End MoreRuns.

(** ** The whole of program_elf *)

Section ProgramRuns.
Context {D : Type} `{Transport D}.

Lemma Completes_flash_write_page (program : list Z) (k : nat) :
  Completes (flash_write_page (D:=D) program (k * PAGE_BYTES))
            (eq (write_page_calls program k)).
Proof.
  unfold flash_write_page, write_page_calls, load_address, page.
  rewrite Z.shiftr_div_pow2 by lia. change (2 ^ 1) with 2.
  repeat (apply (Completes_seq _ _ [_]); [apply Completes_jtag_command|intros _]).
  apply Completes_sleep.
Qed.

Lemma Completes_flash_verify_page (program : list Z) (k : nat) :
  Completes (flash_verify_page (D:=D) program (k * PAGE_BYTES))
            (eq (read_page_calls k)).
Proof.
  unfold flash_verify_page, read_page_calls, load_address.
  rewrite Z.shiftr_div_pow2 by lia. change (2 ^ 1) with 2.
  apply (Completes_seq _ _ [_]); [apply Completes_jtag_command|intros _].
  apply (Completes_seq _ _ [_]); [apply Completes_jtag_command|intros _].
  apply (Completes_seq _ _ [_] []); [apply Completes_jtag_command|intros returned].
  case_bool_decide; [apply Completes_ret|apply Completes_raise].
Qed.

Lemma Completes_program_elf (program : list Z) (verify : bool) :
  Completes (program_elf (D:=D) program verify)
    (eq (erase_calls
         ++ concat (map (write_page_calls program)
                        (seq 0 (ceil_div (length program) PAGE_BYTES)))
         ++ (if verify
             then command 0x2302
                  :: concat (map read_page_calls
                                 (seq 0 (ceil_div (length program) PAGE_BYTES)))
             else [])
         ++ exit_calls)).
Proof.
  unfold program_elf, erase_calls. rewrite py_range_pages.
  do 6 (apply (Completes_seq _ _ [_]); [apply Completes_jtag_command|intros _]).
  apply (Completes_seq _ _ []); [apply Completes_sleep|intros _].
  apply (Completes_seq _ _ [_]); [apply Completes_jtag_command|intros _].
  apply Completes_seq; [apply Completes_for_each_map, Completes_flash_write_page|intros _].
  apply Completes_seq.
  - destruct verify; [|apply Completes_ret].
    apply (Completes_seq _ _ [_]); [apply Completes_jtag_command|intros _].
    apply Completes_for_each_map, Completes_flash_verify_page.
  - intros _. unfold exit_calls.
    do 3 (apply (Completes_seq _ _ [_]); [apply Completes_jtag_command|intros _]).
    apply (Completes_seq _ _ [_] []); [apply Completes_jtag_command|intros _].
    apply Completes_ret.
Qed.

(** X9.  A run of [program_elf] that returns, on any transport, has made
    exactly these calls: the erase calls, the calls of each page in ascending
    order, then with verification the entry into flash read mode and for each
    page in ascending order its address and one PROG_PAGEREAD(0), and last
    the four calls that leave programming mode. *)
Theorem program_elf_completed (program : list Z) (verify : bool) (w : World D) :
  snd (program_elf program verify w) = Ok tt ->
  invocations (events_since w (fst (program_elf program verify w)))
  = erase_calls
    ++ concat (map (write_page_calls program) (seq 0 (ceil_div (length program) 128)))
    ++ (if verify
        then command 0x2302
             :: concat (map read_page_calls (seq 0 (ceil_div (length program) 128)))
        else [])
    ++ exit_calls.
Proof.
  intros Hok. destruct (Completes_program_elf program verify w) as (events & Hlog & Hcalls).
  rewrite (events_since_app _ _ _ Hlog). symmetry. apply Hcalls. by eauto.
Qed.

Context `{!TransportOK D}.

Lemma Runs_command (opcode : Z) :
  0 <= opcode < 2 ^ 16 ->
  Runs (jtag_command (D:=D) PROG_COMMANDS (PInt opcode)) [Some (command opcode)].
Proof. intros Hop. by apply Runs_jtag_command. Qed.

Lemma Runs_flash_write_page (program : list Z) (k : nat) :
  Runs (flash_write_page (D:=D) program (k * PAGE_BYTES)) (write_page_trace program k).
Proof.
  unfold flash_write_page, write_page_trace, write_page_calls, load_address, page.
  rewrite Z.shiftr_div_pow2 by lia. change (2 ^ 1) with 2.
  pose proof (low_byte_range (Z.shiftr (Z.of_nat (k * PAGE_BYTES) / 2) 8)).
  pose proof (low_byte_range (Z.of_nat (k * PAGE_BYTES) / 2)).
  apply (Runs_bind _ _ [_]); [apply Runs_command, command_word_range; lia|intros _].
  apply (Runs_bind _ _ [_]); [apply Runs_command, command_word_range; lia|intros _].
  apply (Runs_bind _ _ [_]); [by apply Runs_jtag_command|intros _].
  do 4 (apply (Runs_bind _ _ [_]); [apply Runs_command; lia|intros _]).
  apply Runs_sleep.
Qed.

Lemma Runs_program_elf (program : list Z) :
  Runs (program_elf (D:=D) program false)
    (erase_trace
     ++ concat (map (write_page_trace program)
                    (seq 0 (ceil_div (length program) PAGE_BYTES)))
     ++ map Some exit_calls).
Proof.
  unfold program_elf, erase_trace. rewrite py_range_pages.
  do 6 (apply (Runs_bind _ _ [_]); [by apply Runs_jtag_command|intros _]).
  apply (Runs_bind _ _ [_]); [apply Runs_sleep|intros _].
  apply (Runs_bind _ _ [_]); [by apply Runs_jtag_command|intros _].
  apply Runs_bind; [apply Runs_for_each_map, Runs_flash_write_page|intros _].
  apply (Runs_bind _ _ []); [apply Runs_ret|intros _].
  unfold exit_calls.
  do 3 (apply (Runs_bind _ _ [_]); [by apply Runs_jtag_command|intros _]).
  apply (Runs_bind _ _ [_] []); [by apply Runs_jtag_command|intros _].
  apply Runs_ret.
Qed.

(** X8.  Without verification, on a transport that keeps its contract,
    [program_elf] always returns, and what it does is exactly: the erase
    calls with one settle sleep after the erase pulse, then for each page in
    ascending order its calls followed by one settle sleep, then the four
    calls that leave programming mode.  It never reads a page back. *)
Theorem program_elf_without_verify (program : list Z) (w : World D) :
  snd (program_elf program false w) = Ok tt
  /\ map invocation (events_since w (fst (program_elf program false w)))
     = erase_trace
       ++ concat (map (write_page_trace program) (seq 0 (ceil_div (length program) 128)))
       ++ map Some exit_calls.
Proof.
  destruct (Runs_program_elf program w) as (events & Hlog & ([] & Hok) & Htrace).
  by rewrite (events_since_app _ _ _ Hlog).
Qed.

(** X13.  The empty image: on a transport that keeps its contract
    [program_elf] returns with or without verification, having written and
    read no page: its calls are the erase calls, with verification the entry
    into flash read mode, and the calls that leave programming mode. *)
Theorem program_elf_empty_image (verify : bool) (w : World D) :
  snd (program_elf [] verify w) = Ok tt
  /\ invocations (events_since w (fst (program_elf [] verify w)))
     = erase_calls ++ (if verify then [command 0x2302] else []) ++ exit_calls.
Proof.
  assert (snd (program_elf [] verify w) = Ok tt) as Hok.
  { destruct verify.
    - destruct (program_elf_verify_run [] w) as [(_ & _ & Hcase) _].
      destruct Hcase as [(Hr & _)|(j & ret & _ & _ & Hj & _)]; [done|].
      cbn in Hj. lia.
    - by destruct (Runs_program_elf [] w) as (events & _ & ([] & Hr) & _). }
  split; [done|].
  destruct (Completes_program_elf [] verify w) as (events & Hlog & Hcalls).
  rewrite (events_since_app _ _ _ Hlog), <- Hcalls by eauto.
  by destruct verify.
Qed.

(** X12.  The word address is cut to 16 bits: page [k + 1024], which lies
    128 KiB further into the image, is written to the address of page [k]. *)
Theorem flash_write_page_address_wraps (program : list Z) (k : nat) (w : World D) :
  take 2 (invocations (events_since w (fst (flash_write_page program
                                             ((k + 1024) * PAGE_BYTES) w))))
  = load_address (k * PAGE_BYTES).
Proof.
  destruct (Runs_flash_write_page program (k + 1024) w) as (ev & Hlog & Hok & _).
  destruct (Completes_flash_write_page program (k + 1024) w) as (ev' & Hlog' & Hcalls).
  rewrite (events_since_app _ _ _ Hlog'). rewrite <- Hcalls by done.
  unfold write_page_calls, load_address, PAGE_BYTES. cbn [app take].
  replace (Z.of_nat ((k + 1024) * 128) / 2) with (Z.of_nat (k * 128) / 2 + 256 * 256).
  2:{ replace (Z.of_nat ((k + 1024) * 128)) with (Z.of_nat (k * 128) + 65536 * 2) by lia.
      rewrite Z.div_add by lia. lia. }
  assert (forall x, Z.land (x + 256 * 256) 255 = Z.land x 255) as Hlow.
  { intros x. change 255 with (Z.ones 8). rewrite !Z.land_ones by lia.
    change (2 ^ 8) with 256. by rewrite Z.mod_add by lia. }
  assert (forall x, Z.land (Z.shiftr (x + 256 * 256) 8) 255 = Z.land (Z.shiftr x 8) 255)
    as Hhigh.
  { intros x. rewrite !Z.shiftr_div_pow2 by lia. change (2 ^ 8) with 256.
    rewrite Z.div_add by lia. change 255 with (Z.ones 8). rewrite !Z.land_ones by lia.
    change (2 ^ 8) with 256.
    rewrite <- (Z.mod_add (x / 256) 1 256) by lia. done. }
  by rewrite Hlow, Hhigh.
Qed.

End ProgramRuns.

Lemma program_elf_completed_witness :
  invocations
    (events_since
       (script_world (replicate 3180 0 ++ [8; 0; 0; 0; 8; 0; 0; 0; 8; 0; 0; 0; 8]))
       (fst (program_elf [0x55] true
               (script_world (replicate 3180 0 ++ [8; 0; 0; 0; 8; 0; 0; 0; 8; 0; 0; 0; 8])))))
  = erase_calls
    ++ concat (map (write_page_calls [0x55]) (seq 0 (ceil_div (length [0x55]) 128)))
    ++ (if true
        then command 0x2302
             :: concat (map read_page_calls (seq 0 (ceil_div (length [0x55]) 128)))
        else [])
    ++ exit_calls.
Proof.
  refine (program_elf_completed [0x55] true
            (script_world (replicate 3180 0 ++ [8; 0; 0; 0; 8; 0; 0; 0; 8; 0; 0; 0; 8])) _).
  vm_compute. reflexivity.
Defined.

Lemma program_elf_without_verify_witness :
  snd (program_elf [1; 2; 3] false (script_world [])) = Ok tt
  /\ map invocation (events_since (script_world [])
                       (fst (program_elf [1; 2; 3] false (script_world []))))
     = erase_trace
       ++ concat (map (write_page_trace [1; 2; 3]) (seq 0 (ceil_div 3 128)))
       ++ map Some exit_calls.
Proof. exact (program_elf_without_verify [1; 2; 3] (script_world [])). Defined.

(** ** Reading the fuses and lock bits *)

Section Fuses.
Context {D : Type} `{Transport D}.

(** A poll that reads the status bit clear on every turn uses up the fuel. *)
Lemma poll_out_of_fuel (fuel : nat) :
  forall w : World D,
    (forall k, (k < fuel)%nat -> poll_status (after_polls k w) = Some false) ->
    poll_fuse_write_complete fuel w = (after_polls fuel w, OutOfFuel).
Proof.
  induction fuel as [|fuel IH]; intros w Hclear; [done|].
  rewrite (poll_step fuel w false (Hclear 0%nat ltac:(lia))).
  rewrite after_polls_S. apply IH.
  intros k Hk. rewrite <- after_polls_S. apply Hclear. lia.
Qed.

(** X10.  The poll has no bound of its own: as long as the device shows the
    status bit clear it polls again.  With the bit clear on the first [fuel]
    polls it has not returned after [fuel] turns, each of them spent on one
    PROG_COMMANDS(0x3700). *)
Theorem poll_fuse_write_complete_keeps_polling (fuel : nat) (w : World D) :
  (forall k, (k < fuel)%nat -> poll_status (after_polls k w) = Some false) ->
  snd (poll_fuse_write_complete fuel w) = OutOfFuel
  /\ invocations (events_since w (fst (poll_fuse_write_complete fuel w)))
     = replicate fuel poll_call.
Proof.
  intros Hclear.
  rewrite (poll_out_of_fuel fuel w Hclear).
  cbn [fst snd]. split; [done|].
  destruct (log_after_polls fuel w) as (events & Hlog & Hinv).
  by rewrite (events_since_app _ _ _ Hlog).
Qed.

Context `{!TransportOK D}.

Lemma jtag_command_succeeds_bytes (instruction : AVR_JTAG) (data : Payload) (w : World D) :
  converts (nbits_of instruction) data ->
  exists w' buf,
    jtag_command instruction data w = (w', Ok buf)
    /\ length buf = ceil_div (nbits_of instruction) 8
    /\ Forall is_byte buf
    /\ log w' = log w ++ [Call instruction data (Ok buf)].
Proof.
  intros Hconv.
  destruct (jtag_command_succeeds instruction data w Hconv) as (w' & buf & Hrun & Hlen & Hlog).
  exists w', buf. split; [done|]. split; [done|]. split; [|done].
  destruct (converts_payload_bytes _ _ Hconv) as (bs & Hbs & _).
  destruct (jtag_command_run instruction data bs w Hbs) as (w1 & ret & _ & _ & _ & Hrun').
  rewrite Hrun in Hrun'. apply (decode_bytes (nbits_of instruction) (Some 33%nat) ret).
  congruence.
Qed.

Lemma first_byte (buf : list Z) :
  length buf = 2%nat -> Forall is_byte buf -> exists b, buf !! 0%nat = Some b /\ is_byte b.
Proof.
  intros Hlen Hall. destruct buf as [|b buf]; [done|].
  exists b. split; [done|]. by inversion Hall.
Qed.

(** X6.  On a transport that keeps its contract [read_fuses_locks] always
    returns.  It makes eight calls, the last four being the reads of the
    extended, high, low and lock bytes, and returns the first byte of each of
    those four replies: the extended byte, the high byte shifted over the low
    byte, and the lock byte.  The three results fit in 8, 16 and 8 bits.  It
    does not leave programming mode. *)
Theorem read_fuses_locks_returns (w : World D) :
  exists extended high low lock : Z,
    snd (read_fuses_locks w) = Ok (extended, Z.lor (Z.shiftl high 8) low, lock)
    /\ invocations (events_since w (fst (read_fuses_locks w)))
       = [(AVR_RESET, PInt 1); (PROG_ENABLE, PInt 0xA370); command 0x2304;
          command 0x3a00; command 0x3e00; command 0x3200; command 0x3600;
          command 0x3700]
    /\ (fun returned => returned !! 0%nat)
         <$> drop 4 (replies (events_since w (fst (read_fuses_locks w))))
       = [Some extended; Some high; Some low; Some lock]
    /\ is_byte extended /\ is_byte lock
    /\ 0 <= Z.lor (Z.shiftl high 8) low < 65536.
Proof.
  unfold read_fuses_locks.
  destruct (jtag_command_succeeds AVR_RESET (PInt 1) w) as (w1 & b1 & Hrun1 & _ & Hlog1); [done|].
  destruct (jtag_command_succeeds PROG_ENABLE (PInt 0xA370) w1)
    as (w2 & b2 & Hrun2 & _ & Hlog2); [done|].
  destruct (jtag_command_succeeds PROG_COMMANDS (PInt 0x2304) w2)
    as (w3 & b3 & Hrun3 & _ & Hlog3); [done|].
  destruct (jtag_command_succeeds PROG_COMMANDS (PInt 0x3a00) w3)
    as (w4 & b4 & Hrun4 & _ & Hlog4); [done|].
  destruct (jtag_command_succeeds_bytes PROG_COMMANDS (PInt 0x3e00) w4)
    as (w5 & re & Hrun5 & Hlen5 & Hbytes5 & Hlog5); [done|].
  destruct (jtag_command_succeeds_bytes PROG_COMMANDS (PInt 0x3200) w5)
    as (w6 & rh & Hrun6 & Hlen6 & Hbytes6 & Hlog6); [done|].
  destruct (jtag_command_succeeds_bytes PROG_COMMANDS (PInt 0x3600) w6)
    as (w7 & rl & Hrun7 & Hlen7 & Hbytes7 & Hlog7); [done|].
  destruct (jtag_command_succeeds_bytes PROG_COMMANDS (PInt 0x3700) w7)
    as (w8 & rk & Hrun8 & Hlen8 & Hbytes8 & Hlog8); [done|].
  destruct (first_byte re Hlen5 Hbytes5) as (extended & Hre & Hextended).
  destruct (first_byte rh Hlen6 Hbytes6) as (high & Hrh & Hhigh).
  destruct (first_byte rl Hlen7 Hbytes7) as (low & Hrl & Hlow).
  destruct (first_byte rk Hlen8 Hbytes8) as (lock & Hrk & Hlock).
  exists extended, high, low, lock.
  rewrite (bind_ok _ _ _ _ _ Hrun1), (bind_ok _ _ _ _ _ Hrun2),
    (bind_ok _ _ _ _ _ Hrun3), (bind_ok _ _ _ _ _ Hrun4).
  erewrite bind_ok; [|erewrite bind_ok; [|exact Hrun5]; unfold index; rewrite Hre; reflexivity].
  erewrite bind_ok; [|erewrite bind_ok; [|exact Hrun6]; unfold index; rewrite Hrh; reflexivity].
  erewrite bind_ok; [|erewrite bind_ok; [|exact Hrun7]; unfold index; rewrite Hrl; reflexivity].
  erewrite bind_ok; [|erewrite bind_ok; [|exact Hrun8]; unfold index; rewrite Hrk; reflexivity].
  cbn [mret M_ret fst snd].
  assert (log w8 = log w ++ [Call AVR_RESET (PInt 1) (Ok b1);
                             Call PROG_ENABLE (PInt 0xA370) (Ok b2);
                             Call PROG_COMMANDS (PInt 0x2304) (Ok b3);
                             Call PROG_COMMANDS (PInt 0x3a00) (Ok b4);
                             Call PROG_COMMANDS (PInt 0x3e00) (Ok re);
                             Call PROG_COMMANDS (PInt 0x3200) (Ok rh);
                             Call PROG_COMMANDS (PInt 0x3600) (Ok rl);
                             Call PROG_COMMANDS (PInt 0x3700) (Ok rk)]) as Hlog.
  { rewrite Hlog8, Hlog7, Hlog6, Hlog5, Hlog4, Hlog3, Hlog2, Hlog1.
    by rewrite <- !app_assoc. }
  rewrite (events_since_app _ _ _ Hlog).
  split; [done|]. split; [done|]. split; [cbn; by rewrite Hre, Hrh, Hrl, Hrk|].
  split; [done|]. split; [done|].
  unfold is_byte in *. change 65536 with (2 ^ 16). apply lor_range; [lia| |lia].
  rewrite Z.shiftl_mul_pow2 by lia. change (2 ^ 8) with 256. lia.
Qed.

(** X11.  An [extended_fuses] that is not an integer is found out late: with
    an integer [fuses], the reset, the programming enable and the entry into
    fuse write mode have gone to the device before the TypeError is
    raised. *)
Theorem program_fuses_late_type_error (fuel : nat) (fuses extended_fuses : PyObj)
    (w : World D) :
  isinstance_int fuses = true ->
  int_value extended_fuses = None ->
  snd (program_fuses fuel fuses extended_fuses w) = Raise TypeError
  /\ invocations (events_since w (fst (program_fuses fuel fuses extended_fuses w)))
     = [(AVR_RESET, PInt 1); (PROG_ENABLE, PInt 0xA370); command 0x2340].
Proof.
  intros Hint Hext. unfold program_fuses, low_byte. rewrite Hint, Hext.
  change (negb true) with false. cbv iota.
  destruct (jtag_command_succeeds AVR_RESET (PInt 1) w) as (w1 & b1 & Hrun1 & _ & Hlog1); [done|].
  destruct (jtag_command_succeeds PROG_ENABLE (PInt 0xA370) w1)
    as (w2 & b2 & Hrun2 & _ & Hlog2); [done|].
  destruct (jtag_command_succeeds PROG_COMMANDS (PInt 0x2340) w2)
    as (w3 & b3 & Hrun3 & _ & Hlog3); [done|].
  rewrite (bind_ok _ _ _ _ _ Hrun1), (bind_ok _ _ _ _ _ Hrun2), (bind_ok _ _ _ _ _ Hrun3).
  erewrite bind_raise; [|reflexivity]. cbn [fst snd]. split; [done|].
  assert (log w3 = log w ++ [Call AVR_RESET (PInt 1) (Ok b1);
                             Call PROG_ENABLE (PInt 0xA370) (Ok b2);
                             Call PROG_COMMANDS (PInt 0x2340) (Ok b3)]) as Hlog.
  { rewrite Hlog3, Hlog2, Hlog1. by rewrite <- !app_assoc. }
  by rewrite (events_since_app _ _ _ Hlog).
Qed.

End Fuses.

Lemma poll_fuse_write_complete_keeps_polling_witness :
  snd (poll_fuse_write_complete 3 (script_world [])) = OutOfFuel
  /\ invocations (events_since (script_world [])
                    (fst (poll_fuse_write_complete 3 (script_world []))))
     = replicate 3 poll_call.
Proof.
  apply (poll_fuse_write_complete_keeps_polling 3 (script_world [])).
  intros k Hk. destruct k as [|[|[|k]]]; [by vm_compute..|lia].
Defined.

Lemma read_fuses_locks_returns_witness :
  exists extended high low lock : Z,
    snd (read_fuses_locks (script_world (replicate 510 8)))
    = Ok (extended, Z.lor (Z.shiftl high 8) low, lock)
    /\ invocations (events_since (script_world (replicate 510 8))
                      (fst (read_fuses_locks (script_world (replicate 510 8)))))
       = [(AVR_RESET, PInt 1); (PROG_ENABLE, PInt 0xA370); command 0x2304;
          command 0x3a00; command 0x3e00; command 0x3200; command 0x3600;
          command 0x3700]
    /\ (fun returned => returned !! 0%nat)
         <$> drop 4 (replies (events_since (script_world (replicate 510 8))
                                (fst (read_fuses_locks (script_world (replicate 510 8))))))
       = [Some extended; Some high; Some low; Some lock]
    /\ is_byte extended /\ is_byte lock
    /\ 0 <= Z.lor (Z.shiftl high 8) low < 65536.
Proof. exact (read_fuses_locks_returns (script_world (replicate 510 8))). Defined.

Lemma program_fuses_late_type_error_witness :
  snd (program_fuses 1 (PyInt 0x99) PyNone (script_world [])) = Raise TypeError
  /\ invocations (events_since (script_world [])
                    (fst (program_fuses 1 (PyInt 0x99) PyNone (script_world []))))
     = [(AVR_RESET, PInt 1); (PROG_ENABLE, PInt 0xA370); command 0x2340].
Proof.
  apply (program_fuses_late_type_error 1 (PyInt 0x99) PyNone (script_world [])); reflexivity.
Defined.

(** ** The order of the fuse writes *)

Lemma Completes_ret_bind {D A B} (a : A) (f : A -> M D B)
    (P : list (AVR_JTAG * Payload) -> Prop) :
  Completes (f a) P -> Completes (mret a ≫= f) P.
Proof. intros Hf w. apply Hf. Qed.

Section FuseOrder.
Context {D : Type} `{Transport D}.

(** A poll that returns has made between one and [fuel] calls, all of them
    PROG_COMMANDS(0x3700). *)
Lemma Completes_poll (fuel : nat) :
  Completes (poll_fuse_write_complete (D:=D) fuel)
            (fun calls => exists k, (1 <= k <= fuel)%nat /\ calls = replicate k poll_call).
Proof.
  induction fuel as [|fuel IH].
  - intros w. exists []. cbn. rewrite app_nil_r. split; [done|]. by intros [? ?].
  - cbn [poll_fuse_write_complete].
    eapply Completes_weaken.
    + eapply Completes_prefix; [apply Completes_jtag_command|intros returned].
      eapply (Completes_bind _ _ (eq [])
                (fun calls => calls = []
                              \/ exists k, (1 <= k <= fuel)%nat
                                           /\ calls = replicate k poll_call)).
      * intros w. unfold index. destruct (returned !! 1%nat).
        -- apply Completes_ret.
        -- apply Completes_raise.
      * intros status. destruct (negb (Z.land status 2 =? 0)).
        -- eapply Completes_weaken; [apply Completes_ret|]. intros calls <-. by left.
        -- eapply Completes_weaken; [exact IH|]. intros calls Hk. by right.
    + intros calls (rest & -> & c1 & c2 & -> & <- & [->|(k & Hk & ->)]).
      * exists 1%nat. split; [lia|done].
      * exists (S k). split; [lia|done].
Qed.

(** X7.  A run of [program_fuses] on integers that returns has written the
    three fuse bytes in the order extended, high, low: after entering fuse
    write mode, each byte (the low 8 bits of [extended_fuses], bits 8-15 of
    [fuses], the low 8 bits of [fuses]) is loaded and pulsed with its own
    opcodes, and is followed by at least one poll before the next byte is
    loaded.  Nothing follows the last poll. *)
Theorem program_fuses_order (fuel : nat) (fuses extended_fuses : PyObj) (f e : Z)
    (w : World D) :
  int_value fuses = Some f ->
  int_value extended_fuses = Some e ->
  snd (program_fuses fuel fuses extended_fuses w) = Ok tt ->
  exists k1 k2 k3,
    (1 <= k1 <= fuel)%nat /\ (1 <= k2 <= fuel)%nat /\ (1 <= k3 <= fuel)%nat
    /\ invocations (events_since w (fst (program_fuses fuel fuses extended_fuses w)))
       = [(AVR_RESET, PInt 1); (PROG_ENABLE, PInt 0xA370); command 0x2340]
         ++ fuse_write_calls (Z.land e 0xff) 0x3b00 0x3900 ++ replicate k1 poll_call
         ++ fuse_write_calls (Z.land (Z.shiftr f 8) 0xff) 0x3700 0x3500
         ++ replicate k2 poll_call
         ++ fuse_write_calls (Z.land f 0xff) 0x3300 0x3100 ++ replicate k3 poll_call.
Proof.
  intros Hf He Hok.
  assert (isinstance_int fuses = true) as Hint by (by destruct fuses).
  assert (Completes (program_fuses (D:=D) fuel fuses extended_fuses)
            (fun calls => exists k1 k2 k3,
                 (1 <= k1 <= fuel)%nat /\ (1 <= k2 <= fuel)%nat /\ (1 <= k3 <= fuel)%nat
                 /\ calls
                    = [(AVR_RESET, PInt 1); (PROG_ENABLE, PInt 0xA370); command 0x2340]
                      ++ fuse_write_calls (Z.land e 0xff) 0x3b00 0x3900
                      ++ replicate k1 poll_call
                      ++ fuse_write_calls (Z.land (Z.shiftr f 8) 0xff) 0x3700 0x3500
                      ++ replicate k2 poll_call
                      ++ fuse_write_calls (Z.land f 0xff) 0x3300 0x3100
                      ++ replicate k3 poll_call)) as Hrun.
  { unfold program_fuses, low_byte, high_byte. rewrite Hint, Hf, He.
    change (negb true) with false. cbv iota.
    eapply Completes_weaken.
    - do 3 (eapply Completes_prefix; [apply Completes_jtag_command|intros _]).
      apply Completes_ret_bind.
      do 5 (eapply Completes_prefix; [apply Completes_jtag_command|intros _]).
      eapply Completes_bind; [apply Completes_poll|intros _].
      apply Completes_ret_bind.
      do 5 (eapply Completes_prefix; [apply Completes_jtag_command|intros _]).
      eapply Completes_bind; [apply Completes_poll|intros _].
      apply Completes_ret_bind.
      do 5 (eapply Completes_prefix; [apply Completes_jtag_command|intros _]).
      apply Completes_poll.
    - cbv beta. intros calls Hcalls.
      repeat match goal with
             | Hx : exists _, _ |- _ => destruct Hx as [? Hx]
             | Hx : _ /\ _ |- _ => destruct Hx
             end.
      subst. eexists _, _, _. split; [|split; [|split]].
      4: reflexivity.
      all: split; assumption. }
  destruct (Hrun w) as (events & Hlog & Hcalls).
  rewrite (events_since_app _ _ _ Hlog). apply Hcalls. by eauto.
Qed.

End FuseOrder.

Lemma program_fuses_order_witness :
  exists k1 k2 k3,
    (1 <= k1 <= 2)%nat /\ (1 <= k2 <= 2)%nat /\ (1 <= k3 <= 2)%nat
    /\ invocations (events_since (script_world (replicate 1600 8))
                      (fst (program_fuses 2 (PyInt 0x99e2) (PyInt 0xff)
                              (script_world (replicate 1600 8)))))
       = [(AVR_RESET, PInt 1); (PROG_ENABLE, PInt 0xA370); command 0x2340]
         ++ fuse_write_calls (Z.land 0xff 0xff) 0x3b00 0x3900 ++ replicate k1 poll_call
         ++ fuse_write_calls (Z.land (Z.shiftr 0x99e2 8) 0xff) 0x3700 0x3500
         ++ replicate k2 poll_call
         ++ fuse_write_calls (Z.land 0x99e2 0xff) 0x3300 0x3100 ++ replicate k3 poll_call.
Proof.
  refine (program_fuses_order 2 (PyInt 0x99e2) (PyInt 0xff) 0x99e2 0xff
            (script_world (replicate 1600 8)) eq_refl eq_refl _).
  vm_compute. reflexivity.
Defined.

Lemma program_elf_empty_image_witness :
  snd (program_elf [] true (script_world [])) = Ok tt
  /\ invocations (events_since (script_world []) (fst (program_elf [] true (script_world []))))
     = erase_calls ++ (if true then [command 0x2302] else []) ++ exit_calls.
Proof. exact (program_elf_empty_image true (script_world [])). Defined.

Lemma flash_write_page_address_wraps_witness :
  take 2 (invocations
            (events_since (script_world [])
               (fst (flash_write_page [] ((3 + 1024) * PAGE_BYTES) (script_world [])))))
  = load_address (3 * PAGE_BYTES).
Proof. exact (flash_write_page_address_wraps [] 3 (script_world [])). Defined.

(** ** What the decoder looks at *)

(** X14.  The decoder looks at nothing but the TDO line of the sampled
    bytes: two responses that show the same TDO state at every sampled
    position (and end before the same positions) decode alike, whatever
    their other bits and their other bytes are. *)
Theorem decode_depends_on_tdo_only (nbits retindex : nat) (ret ret' : list Z) :
  (forall i, (i < nbits)%nat ->
     tdo_line <$> ret !! (retindex + 2 * i)%nat
     = tdo_line <$> ret' !! (retindex + 2 * i)%nat) ->
  decode nbits (Some retindex) ret = decode nbits (Some retindex) ret'.
Proof.
  intros Hsame.
  destruct nbits as [|n]; [done|].
  destruct (ret !! (retindex + 2 * n)%nat) as [r|] eqn:Hlast.
  - assert (forall l : list Z, is_Some (l !! (retindex + 2 * n)%nat) ->
              forall i, (i < S n)%nat -> is_Some (l !! (retindex + 2 * i)%nat)) as Hall.
    { intros l Hl%lookup_lt_is_Some_1 i Hi. apply lookup_lt_is_Some_2. lia. }
    assert (is_Some (ret' !! (retindex + 2 * n)%nat)) as Hlast'.
    { specialize (Hsame n ltac:(lia)). rewrite Hlast in Hsame.
      destruct (ret' !! (retindex + 2 * n)%nat); [by eexists|done]. }
    destruct (decode_spec (S n) retindex ret) as (buf & Hdec & Hlen & Hp);
      [by apply Hall; eexists|].
    destruct (decode_spec (S n) retindex ret') as (buf' & Hdec' & Hlen' & Hp');
      [by apply Hall|].
    rewrite Hdec, Hdec'. f_equal.
    apply (packed_unique (sample retindex ret) (S n)); [done| |congruence].
    eapply packed_ext; [|exact Hp']. intros i Hi. unfold sample.
    specialize (Hsame i Hi).
    destruct (ret !! (retindex + 2 * i)%nat), (ret' !! (retindex + 2 * i)%nat);
      cbn in Hsame |- *; congruence.
  - assert (ret' !! (retindex + 2 * n)%nat = None) as Hlast'.
    { specialize (Hsame n ltac:(lia)). rewrite Hlast in Hsame.
      by destruct (ret' !! (retindex + 2 * n)%nat). }
    apply lookup_ge_None in Hlast, Hlast'.
    rewrite !decode_short by lia. done.
Qed.

Lemma decode_depends_on_tdo_only_witness :
  decode 3 (Some 1%nat) [0; 8; 0; 0; 0; 8] = decode 3 (Some 1%nat) [52; 60; 32; 7; 1; 255; 9].
Proof.
  apply (decode_depends_on_tdo_only 3 1 [0; 8; 0; 0; 0; 8] [52; 60; 32; 7; 1; 255; 9]).
  intros i Hi. destruct i as [|[|[|i]]]; [reflexivity..|lia].
Defined.
